(** * ClickUp exporter: field normalisation, column discovery, row building

    A shallow embedding of [src/main.py] (class [ClickUpExporter]).  The
    values the program handles are the results of [response.json()]: the
    Python images of JSON documents.  Every method of the class that the
    export relies on is translated into a function over those values, with
    Python exceptions made explicit in the result type. *)

From Stdlib Require Import List ZArith Lia Bool Ascii String.
From Stdlib Require Import Numbers.DecimalString Floats.SpecFloat.
Import ListNotations.

Set Warnings "-register-all".

Local Open Scope string_scope.
Local Open Scope Z_scope.

(** ** Exceptions and the error monad *)

Inductive exn : Type :=
| TypeError
| AttributeError
| KeyError
| ValueError
| OverflowError
| ZeroDivisionError.

Inductive result (A : Type) : Type :=
| Ok (a : A)
| Raise (e : exn).

Arguments Ok {A} a.
Arguments Raise {A} e.

Definition bind {A B : Type} (r : result A) (k : A -> result B) : result B :=
  match r with
  | Ok a => k a
  | Raise e => Raise e
  end.

Notation "x <- c1 ;; c2" := (bind c1 (fun x => c2))
  (at level 61, c1 at next level, right associativity).

(** Runs [f] over a list from left to right and stops at the first
    exception, as a Python [for] loop or comprehension does. *)
Fixpoint mapM {A B : Type} (f : A -> result B) (l : list A) : result (list B) :=
  match l with
  | [] => Ok []
  | x :: r => y <- f x ;; ys <- mapM f r ;; Ok (y :: ys)
  end.

Fixpoint foldM {A S : Type} (f : S -> A -> result S) (l : list A) (s : S)
  : result S :=
  match l with
  | [] => Ok s
  | x :: r => s' <- f s x ;; foldM f r s'
  end.

(** ** Python values

    [str] is a Rocq [string] holding the UTF-8 encoding of the text; [float]
    is an IEEE 754 binary64 number in the representation of [SpecFloat]; an
    object (a [dict] with [str] keys, keys pairwise distinct) is the list of
    its items in insertion order. *)

Inductive pyval : Type :=
| VNone
| VBool (b : bool)
| VInt (n : Z)
| VFloat (f : spec_float)
| VStr (s : string)
| VList (l : list pyval)
| VDict (d : list (string * pyval)).

Definition is_str (v : pyval) : bool :=
  match v with VStr _ => true | _ => false end.

Definition is_dict (v : pyval) : bool :=
  match v with VDict _ => true | _ => false end.

Definition is_list (v : pyval) : bool :=
  match v with VList _ => true | _ => false end.

Definition is_none (v : pyval) : bool :=
  match v with VNone => true | _ => false end.

(** ** binary64 arithmetic *)

Definition prec : Z := 53.
Definition emax : Z := 1024.

Definition float_of_Z (n : Z) : spec_float :=
  binary_normalize prec emax n 0 false.

(** [a / b] on [int]: the correctly rounded quotient, [OverflowError] when
    it is too large for a [float]. *)
Definition int_truediv (a b : Z) : result spec_float :=
  if b =? 0 then Raise ZeroDivisionError
  else if a =? 0 then Ok (S754_zero (b <? 0))
  else
    let sign := xorb (a <? 0) (b <? 0) in
    let '(q, e, loc) := SFdiv_core_binary prec emax (Z.abs a) 0 (Z.abs b) 0 in
    match binary_round_aux prec emax sign q e loc with
    | S754_infinity _ => Raise OverflowError
    | r => Ok r
    end.

Definition float_truediv (x y : spec_float) : result spec_float :=
  match y with
  | S754_zero _ => Raise ZeroDivisionError
  | _ => Ok (SFdiv prec emax x y)
  end.

Definition Z_of_bool (b : bool) : Z := if b then 1 else 0.

(** [v / n] for an [int] literal [n], as the [/] operator dispatches on the
    type of [v]; [bool] is a subclass of [int]. *)
Definition py_truediv_int (v : pyval) (n : Z) : result pyval :=
  match v with
  | VBool b => f <- int_truediv (Z_of_bool b) n ;; Ok (VFloat f)
  | VInt a => f <- int_truediv a n ;; Ok (VFloat f)
  | VFloat x => f <- float_truediv x (float_of_Z n) ;; Ok (VFloat f)
  | _ => Raise TypeError
  end.

(** ** Truth value, [bool(v)] *)

Definition truthy (v : pyval) : bool :=
  match v with
  | VNone => false
  | VBool b => b
  | VInt n => negb (n =? 0)
  | VFloat (S754_zero _) => false
  | VFloat _ => true
  | VStr s => negb (String.eqb s "")
  | VList l => match l with [] => false | _ => true end
  | VDict d => match d with [] => false | _ => true end
  end.

(** ** [str] and [repr]

    Decimal rendering of an [int]. *)

Definition str_of_Z (n : Z) : string :=
  NilEmpty.string_of_int (Z.to_int n).

(** *** Shortest round-trip digits of a finite binary64

    CPython renders a [float] with the shortest digit string that reads
    back as the same [float] (nearest, ties to even), choosing the one
    closest to the value.  For [m * 2^e] the numbers that read back as it are
    those between the midpoints to its two neighbours; the midpoints belong
    to it when [m] is even.  All quantities are kept as numerators over the
    common denominator [den]. *)

Record dyadic := { num_lo : Z; num_x : Z; num_hi : Z; den : Z }.

Definition rounding_interval (m : positive) (e : Z) : dyadic :=
  let m' := Zpos m in
  let narrow := (m' =? 2 ^ (prec - 1)) && (emin prec emax <? e) in
  let lo := if narrow then 4 * m' - 1 else 4 * m' - 2 in
  let hi := 4 * m' + 2 in
  let s := e - 2 in
  if 0 <=? s
  then {| num_lo := lo * 2 ^ s; num_x := 4 * m' * 2 ^ s;
          num_hi := hi * 2 ^ s; den := 1 |}
  else {| num_lo := lo; num_x := 4 * m'; num_hi := hi; den := 2 ^ (- s) |}.

(** Position of the decimal point: the [p] with [10^(p-1) <= x < 10^p],
    for [x = n / d], searched upwards from 1 when [x] is at least 1 and
    downwards from 0 when it is below. *)
Fixpoint decpt_above (fuel : nat) (p : Z) (n d : Z) : Z :=
  match fuel with
  | O => p
  | S f => if n <? 10 ^ p * d then p else decpt_above f (p + 1) n d
  end.

Fixpoint decpt_below (fuel : nat) (k : Z) (n d : Z) : Z :=
  match fuel with
  | O => - k
  | S f => if d <=? 10 ^ (k + 1) * n then - k else decpt_below f (k + 1) n d
  end.

Definition decimal_point (n d : Z) : Z :=
  if d <=? n then decpt_above 400 1 n d else decpt_below 400 0 n d.

Definition in_interval (closed : bool) (lo hi c : Z) : bool :=
  if closed then (lo <=? c) && (c <=? hi) else (lo <? c) && (c <? hi).

(** The [k]-digit decimal nearest to the value that still reads back as it,
    if there is one. *)
Definition digits_at (closed : bool) (iv : dyadic) (p k : Z) : option Z :=
  let up := 10 ^ Z.max 0 (k - p) in
  let down := den iv * 10 ^ Z.max 0 (p - k) in
  let lo := num_lo iv * up in
  let x := num_x iv * up in
  let hi := num_hi iv * up in
  let c1 := x / down in
  let c2 := c1 + 1 in
  let ok1 := in_interval closed lo hi (c1 * down) in
  let ok2 := in_interval closed lo hi (c2 * down) in
  match ok1, ok2 with
  | true, false => Some c1
  | false, true => Some c2
  | false, false => None
  | true, true =>
      match (x - c1 * down) ?= (c2 * down - x) with
      | Lt => Some c1
      | Gt => Some c2
      | Eq => Some (if Z.even c1 then c1 else c2)
      end
  end.

Fixpoint shortest_from (fuel : nat) (closed : bool) (iv : dyadic) (p k : Z)
  : Z * Z :=
  match fuel with
  | O => (num_x iv * 10 ^ Z.max 0 (k - p) / (den iv * 10 ^ Z.max 0 (p - k)), k)
  | S f =>
      match digits_at closed iv p k with
      | Some c => (c, k)
      | None => shortest_from f closed iv p (k + 1)
      end
  end.

(** Drops the trailing zeros of the [k] digits of [c], keeping one digit. *)
Fixpoint trim_zeros (fuel : nat) (c k : Z) : Z * Z :=
  match fuel with
  | O => (c, k)
  | S f =>
      if (c mod 10 =? 0) && (1 <? k) then trim_zeros f (c / 10) (k - 1)
      else (c, k)
  end.

(** The shortest digits as a number, how many they are, and the position of
    the decimal point relative to their start.  Rounding up to a power of
    ten gives one digit more before the zeros are dropped. *)
Definition shortest_digits (m : positive) (e : Z) : Z * Z * Z :=
  let iv := rounding_interval m e in
  let p := decimal_point (num_x iv) (den iv) in
  let '(c, k) := shortest_from 17 (Z.even (Zpos m)) iv p 1 in
  let k0 := if c =? 10 ^ k then k + 1 else k in
  let '(c', k') := trim_zeros 18 c k0 in
  (c', k', p + (k0 - k)).

Definition digit_char (d : Z) : ascii := ascii_of_N (48 + Z.to_N d).

(** The last [k] decimal digits of [c], most significant first. *)
Fixpoint digit_string (k : nat) (c : Z) : string :=
  match k with
  | O => ""
  | S j => String (digit_char (c / 10 ^ Z.of_nat j mod 10)) (digit_string j c)
  end.

(** Layout of [repr] for a [float] with the [k] digits [c]: fixed notation
    with at least one digit after the point, scientific notation when the
    decimal point falls outside the range [-3 .. 16]. *)
Definition format_float_short (c k decpt : Z) : string :=
  if (decpt <=? -4) || (16 <? decpt) then
    let ex := decpt - 1 in
    digit_string 1 (c / 10 ^ (k - 1))
    ++ (if 1 <? k then "." ++ digit_string (Z.to_nat (k - 1)) c else "")
    ++ "e" ++ (if ex <? 0 then "-" else "+")
    ++ digit_string (if Z.abs ex <? 100 then 2 else 3) (Z.abs ex)
  else if decpt <=? 0 then
    "0." ++ digit_string (Z.to_nat (k - decpt)) c
  else if decpt <? k then
    digit_string (Z.to_nat decpt) (c / 10 ^ (k - decpt))
    ++ "." ++ digit_string (Z.to_nat (k - decpt)) c
  else
    digit_string (Z.to_nat decpt) (c * 10 ^ (decpt - k)) ++ ".0".

Definition float_repr (f : spec_float) : string :=
  match f with
  | S754_nan => "nan"
  | S754_infinity s => if s then "-inf" else "inf"
  | S754_zero s => if s then "-0.0" else "0.0"
  | S754_finite s m e =>
      let '(c, k, decpt) := shortest_digits m e in
      (if s then "-" else "") ++ format_float_short c k decpt
  end.

(** *** [repr] of a [str]

    Single quotes unless the text has a single quote and no double quote;
    backslash, the chosen quote, tab, newline and carriage return are
    escaped, other ASCII control characters are written [\xNN].  Bytes from
    128 up, which encode the characters beyond ASCII, are kept: this is what
    CPython does for every printable character.  The characters beyond
    ASCII that are not printable (U+00A0 and the like), which CPython
    writes as [\xNN], [\uNNNN] or [\UNNNNNNNN], are outside this model: on
    a text holding one, [repr_str] is not the text CPython gives. *)

Definition hex_digit (n : N) : ascii :=
  match n with
  | 0%N => "0" | 1%N => "1" | 2%N => "2" | 3%N => "3" | 4%N => "4"
  | 5%N => "5" | 6%N => "6" | 7%N => "7" | 8%N => "8" | 9%N => "9"
  | 10%N => "a" | 11%N => "b" | 12%N => "c" | 13%N => "d" | 14%N => "e"
  | _ => "f"
  end%char.

Fixpoint contains_char (c : ascii) (s : string) : bool :=
  match s with
  | EmptyString => false
  | String d r => Ascii.eqb c d || contains_char c r
  end.

Definition escape_char (quote c : ascii) : string :=
  let n := N_of_ascii c in
  if Ascii.eqb c "\" then "\\"
  else if Ascii.eqb c quote then String "\" (String c "")
  else if (n =? 9)%N then "\t"
  else if (n =? 10)%N then "\n"
  else if (n =? 13)%N then "\r"
  else if ((n <? 32) || (n =? 127))%N then
    String "\" (String "x" (String (hex_digit (n / 16))
                                  (String (hex_digit (n mod 16)) "")))
  else String c "".

Fixpoint escape_string (quote : ascii) (s : string) : string :=
  match s with
  | EmptyString => ""
  | String c r => escape_char quote c ++ escape_string quote r
  end.

Definition double_quote : ascii := ascii_of_N 34.

Definition repr_str (s : string) : string :=
  let quote : ascii :=
    if contains_char "'" s && negb (contains_char double_quote s)
    then double_quote
    else "'"%char in
  String quote (escape_string quote s ++ String quote "").

Fixpoint py_repr (v : pyval) : string :=
  match v with
  | VNone => "None"
  | VBool b => if b then "True" else "False"
  | VInt n => str_of_Z n
  | VFloat f => float_repr f
  | VStr s => repr_str s
  | VList l => "[" ++ String.concat ", " (map py_repr l) ++ "]"
  | VDict d =>
      "{" ++ String.concat ", "
               (map (fun kv =>
                       let '(k, x) := kv in repr_str k ++ ": " ++ py_repr x) d)
          ++ "}"
  end.

(** [str(v)] *)
Definition py_str (v : pyval) : string :=
  match v with
  | VStr s => s
  | _ => py_repr v
  end.

(** ** Iteration

    A [list] yields its items, a [dict] its keys, a [str] its characters;
    nothing else among these values is iterable. *)

Definition is_continuation (c : ascii) : bool :=
  let n := N_of_ascii c in ((128 <=? n) && (n <? 192))%N.

(** The characters of a text: each leading byte with the continuation bytes
    that follow it. *)
Fixpoint utf8_chars (s : string) : list string :=
  match s with
  | EmptyString => []
  | String c r =>
      let starts_inside :=
        match r with String c' _ => is_continuation c' | EmptyString => false end in
      match utf8_chars r with
      | chunk :: rest =>
          if starts_inside then String c chunk :: rest
          else String c "" :: chunk :: rest
      | [] => [String c ""]
      end
  end.

Definition py_iter (v : pyval) : result (list pyval) :=
  match v with
  | VList l => Ok l
  | VDict d => Ok (map (fun kv => VStr (fst kv)) d)
  | VStr s => Ok (map VStr (utf8_chars s))
  | _ => Raise TypeError
  end.

(** ** Equality, [a == b]

    Numbers compare by exact value across [bool], [int] and [float]; a NaN
    differs from everything, itself included.  Containers compare their
    items with the identity shortcut of CPython ([x is y or x == y]): the
    JSON decoder hands out one shared NaN object, so inside containers a NaN
    equals a NaN. *)

Definition float_eq_Z (f : spec_float) (n : Z) : bool :=
  match f with
  | S754_zero _ => n =? 0
  | S754_finite s m e =>
      let v := if s then Zneg m else Zpos m in
      if 0 <=? e then n =? v * 2 ^ e else n * 2 ^ (- e) =? v
  | _ => false
  end.

Definition is_nan (v : pyval) : bool :=
  match v with VFloat S754_nan => true | _ => false end.

Fixpoint assoc {A : Type} (k : string) (d : list (string * A)) : option A :=
  match d with
  | [] => None
  | (k', x) :: r => if String.eqb k k' then Some x else assoc k r
  end.

Fixpoint py_eq (a b : pyval) {struct a} : bool :=
  match a, b with
  | VNone, VNone => true
  | VBool x, VBool y => Bool.eqb x y
  | VBool x, VInt n => Z_of_bool x =? n
  | VInt n, VBool y => n =? Z_of_bool y
  | VInt n, VInt m => n =? m
  | VBool x, VFloat f => float_eq_Z f (Z_of_bool x)
  | VFloat f, VBool y => float_eq_Z f (Z_of_bool y)
  | VInt n, VFloat f => float_eq_Z f n
  | VFloat f, VInt n => float_eq_Z f n
  | VFloat f, VFloat g => SFeqb f g
  | VStr s, VStr t => String.eqb s t
  | VList l1, VList l2 =>
      (fix items (l1 l2 : list pyval) {struct l1} : bool :=
         match l1, l2 with
         | [], [] => true
         | x :: r1, y :: r2 =>
             ((is_nan x && is_nan y) || py_eq x y) && items r1 r2
         | _, _ => false
         end) l1 l2
  | VDict d1, VDict d2 =>
      Nat.eqb (List.length d1) (List.length d2) &&
      (fix entries (d : list (string * pyval)) {struct d} : bool :=
         match d with
         | [] => true
         | (k, x) :: r =>
             match assoc k d2 with
             | Some y => ((is_nan x && is_nan y) || py_eq x y) && entries r
             | None => false
             end
         end) d1
  | _, _ => false
  end.

(** [x is y or x == y], the comparison used by [in] on a list and by the
    key lookup of a [dict]. *)
Definition py_same (a b : pyval) : bool :=
  (is_nan a && is_nan b) || py_eq a b.

(** [x in l] for a list [l]. *)
Definition py_in_list (x : pyval) (l : list pyval) : bool :=
  existsb (fun y => py_same y x) l.

(** ** Objects and dictionaries *)

(** [obj.get(key, default)]: among these values only a [dict] has a [get]
    method. *)
Definition py_get (obj : pyval) (key : string) (default : pyval) : result pyval :=
  match obj with
  | VDict d => Ok (match assoc key d with Some x => x | None => default end)
  | _ => Raise AttributeError
  end.

(** [sep.join(items)]: every item has to be a [str]. *)
Definition as_str (v : pyval) : result string :=
  match v with
  | VStr s => Ok s
  | _ => Raise TypeError
  end.

Definition py_join (sep : string) (items : list pyval) : result pyval :=
  parts <- mapM as_str items ;; Ok (VStr (String.concat sep parts)).

(** A [dict] built by the program itself, keyed by arbitrary hashable
    values: its items in insertion order. *)
Definition pydict : Type := list (pyval * pyval).

Definition hashable (v : pyval) : bool :=
  match v with
  | VList _ | VDict _ => false
  | _ => true
  end.

Definition dict_mem (d : pydict) (k : pyval) : bool :=
  existsb (fun kv => py_same (fst kv) k) d.

(** Assignment keeps the position of a key that is already present and
    appends a new key at the end. *)
Fixpoint dict_put (d : pydict) (k x : pyval) : pydict :=
  match d with
  | [] => [(k, x)]
  | (k', x') :: r =>
      if py_same k' k then (k', x) :: r else (k', x') :: dict_put r k x
  end.

(** [d[k] = x] *)
Definition dict_setitem (d : pydict) (k x : pyval) : result pydict :=
  if hashable k then Ok (dict_put d k x) else Raise TypeError.

(** [k in d] *)
Definition dict_contains (d : pydict) (k : pyval) : result bool :=
  if hashable k then Ok (dict_mem d k) else Raise TypeError.

Definition dict_keys (d : pydict) : list pyval := map fst d.
Definition dict_values (d : pydict) : list pyval := map snd d.

(** ** [ClickUpExporter._get_field_value] *)

(** [field.get("type_config", {}).get("options", [])] *)
Definition field_options (field : pyval) : result pyval :=
  type_config <- py_get field "type_config" (VDict []) ;;
  py_get type_config "options" (VList []).

(** The [dropdown] loop: the name of the first option whose [id] equals the
    value, the value itself when the loop runs out. *)
Fixpoint dropdown_lookup (options : list pyval) (field_value : pyval)
  : result pyval :=
  match options with
  | [] => Ok field_value
  | option :: rest =>
      id <- py_get option "id" VNone ;;
      if py_eq id field_value then py_get option "name" (VStr "")
      else dropdown_lookup rest field_value
  end.

(** The inner loop of [labels]/[multi_select]: appends to [names] the name
    of every option whose [id] equals [item]. *)
Fixpoint append_matching (options : list pyval) (item : pyval)
  (names : list pyval) : result (list pyval) :=
  match options with
  | [] => Ok names
  | option :: rest =>
      id <- py_get option "id" VNone ;;
      if py_eq id item then
        name <- py_get option "name" (VStr "") ;;
        append_matching rest item (names ++ [name])%list
      else append_matching rest item names
  end.

(** One round of the outer loop over the items of the value; [options] is
    iterated only for an item that is not an object carrying a name. *)
Definition append_label (options : pyval) (names : list pyval)
  (item : pyval) : result (list pyval) :=
  let resolve :=
    options <- py_iter options ;; append_matching options item names in
  match item with
  | VDict d =>
      match assoc "name" d with
      | Some name => Ok (names ++ [name])%list
      | None => resolve
      end
  | _ => resolve
  end.

Definition text_types : list pyval :=
  [VStr "text"; VStr "short_text"; VStr "email"; VStr "phone"; VStr "url"].

Definition number_types : list pyval :=
  [VStr "number"; VStr "rating"; VStr "auto_increment"].

Definition audit_types : list pyval :=
  [VStr "created_by"; VStr "updated_by"].

Definition _get_field_value (field : pyval) : result pyval :=
  field_name <- py_get field "name" VNone ;;
  field_type <- py_get field "type" VNone ;;
  field_value <- py_get field "value" VNone ;;
  if is_none field_value then Ok (VStr "")
  else if py_in_list field_type text_types then
    Ok (VStr (py_str field_value))
  else if py_in_list field_type number_types then
    Ok (VStr (py_str field_value))
  else if py_eq field_type (VStr "checkbox") then
    Ok (VStr (if truthy field_value then "Yes" else "No"))
  else if py_eq field_type (VStr "dropdown") then
    match field_value with
    | VStr _ =>
        options <- field_options field ;;
        options <- py_iter options ;;
        dropdown_lookup options field_value
    | VDict _ => py_get field_value "name" (VStr "")
    | _ => Ok (VStr (py_str field_value))
    end
  else if py_eq field_type (VStr "labels")
          || py_eq field_type (VStr "multi_select") then
    match field_value with
    | VList items =>
        options <- field_options field ;;
        names <- foldM (append_label options) items [] ;;
        py_join ", " names
    | _ => Ok (VStr "")
    end
  else if py_eq field_type (VStr "date") || py_eq field_type (VStr "time") then
    seconds <- py_truediv_int field_value 1000 ;;
    Ok (VStr (py_str seconds))
  else if py_eq field_type (VStr "users") then
    match field_value with
    | VList users =>
        names <- mapM (fun user => py_get user "username" (VStr ""))
                      (filter is_dict users) ;;
        py_join ", " names
    | _ => Ok (VStr "")
    end
  else if py_eq field_type (VStr "location") then
    match field_value with
    | VDict _ => py_get field_value "name" (VStr "")
    | _ => Ok (VStr "")
    end
  else if py_eq field_type (VStr "relationship") then
    match field_value with
    | VList linked =>
        names <- mapM (fun linked_task => py_get linked_task "name" (VStr ""))
                      (filter truthy linked) ;;
        py_join ", " names
    | _ => Ok (VStr "")
    end
  else if py_eq field_type (VStr "formula") then
    match field_value with
    | VDict _ => py_get field_value "text" (VStr "")
    | _ => Ok (VStr "")
    end
  else if py_in_list field_type audit_types then
    match field_value with
    | VDict _ => py_get field_value "username" (VStr "")
    | _ => Ok (VStr "")
    end
  else Ok (VStr (py_str field_value)).

(** ** [ClickUpExporter._process_task] *)

Definition store_field (custom_field_values : pydict) (field : pyval)
  : result pydict :=
  field_name <- py_get field "name" VNone ;;
  present <- dict_contains custom_field_values field_name ;;
  if present then
    value <- _get_field_value field ;;
    dict_setitem custom_field_values field_name value
  else Ok custom_field_values.

Definition _process_task (task : pyval) (custom_field_names : pydict)
  : result (list pyval) :=
  name <- py_get task "name" (VStr "") ;;
  let row_data := [name] in
  custom_field_values <-
    foldM (fun d name => dict_setitem d name (VStr ""))
          (dict_keys custom_field_names) [] ;;
  fields <- py_get task "custom_fields" (VList []) ;;
  fields <- py_iter fields ;;
  custom_field_values <- foldM store_field fields custom_field_values ;;
  Ok (row_data ++ dict_values custom_field_values)%list.

(** ** Column discovery (lines 175-181 of [export_to_excel])

    [custom_field_names[field.get("name")] = True] for every field of every
    task, in order. *)

Definition add_field_name (custom_field_names : pydict) (field : pyval)
  : result pydict :=
  field_name <- py_get field "name" VNone ;;
  dict_setitem custom_field_names field_name (VBool true).

Definition add_task_fields (custom_field_names : pydict) (task : pyval)
  : result pydict :=
  fields <- py_get task "custom_fields" (VList []) ;;
  fields <- py_iter fields ;;
  foldM add_field_name fields custom_field_names.

Definition discover_columns (tasks : list pyval) : result pydict :=
  foldM add_task_fields tasks [].

(** ** The workbook

    What the export uses of [openpyxl]: a workbook is the list of its sheets,
    a sheet has a title and the rows appended so far.  A sheet handle is the
    position of the sheet in the workbook, so that appending through the
    handle changes the workbook that owns the sheet. *)

Record worksheet : Type := { title : string; rows : list (list pyval) }.

Definition workbook : Type := list worksheet.

(** [Workbook()] comes with one empty sheet titled ["Sheet"]. *)
Definition Workbook : workbook := [ {| title := "Sheet"; rows := [] |} ].

Definition sheetnames (wb : workbook) : list string := map title wb.

Fixpoint update_sheet (sheet : nat) (f : worksheet -> worksheet) (wb : workbook)
  : workbook :=
  match wb, sheet with
  | [], _ => []
  | ws :: r, O => f ws :: r
  | ws :: r, S i => ws :: update_sheet i f r
  end.

Definition add_row (cells : list pyval) (ws : worksheet) : worksheet :=
  {| title := title ws; rows := (rows ws ++ [cells])%list |}.

(** [del workbook[key]] removes the first sheet of that title. *)
Fixpoint remove_titled (key : string) (wb : workbook) : option workbook :=
  match wb with
  | [] => None
  | ws :: r =>
      if String.eqb (title ws) key then Some r
      else option_map (cons ws) (remove_titled key r)
  end.

Definition wb_delitem (wb : workbook) (key : string) : result workbook :=
  match remove_titled key wb with
  | Some wb' => Ok wb'
  | None => Raise KeyError
  end.

(** ** [ClickUpExporter.export_to_excel] *)

Section Orchestrator.

(** The outcome of the [k]-th HTTP exchange of the run, asked for the
    given list id: [None] when [requests] raises a [RequestException],
    otherwise the decoded body of the response. *)
Variable http_get : nat -> pyval -> option pyval.

(** The title [openpyxl] gives to a sheet created with [title=t] in a
    workbook whose sheets carry the given titles, or the exception it
    raises for a title it refuses. *)
Variable sheet_title : list string -> pyval -> result string.

(** The content [openpyxl] gives to a cell assigned a value, or the
    exception it raises for a value it cannot store. *)
Variable cell_value : pyval -> result pyval.

(** The outcome of lines 192-193: the formatted file name joined to the
    output directory. *)
Variable filepath : result string.

Definition _get_tasks_from_list (k : nat) (list_id : pyval) : result pyval :=
  match http_get k list_id with
  | Some body => py_get body "tasks" (VList [])
  | None => Ok (VList [])
  end.

(** [workbook.create_sheet(title=t)]: the new sheet goes last. *)
Definition create_sheet (wb : workbook) (t : pyval) : result (workbook * nat) :=
  name <- sheet_title (sheetnames wb) t ;;
  Ok ((wb ++ [ {| title := name; rows := [] |} ])%list, List.length wb).

(** [sheet.append(row)] *)
Definition ws_append (wb : workbook) (sheet : nat) (row : list pyval)
  : result workbook :=
  cells <- mapM cell_value row ;;
  Ok (update_sheet sheet (add_row cells) wb).

Definition append_task_row (custom_field_names : pydict) (sheet : nat)
  (wb : workbook) (task : pyval) : result workbook :=
  row_data <- _process_task task custom_field_names ;;
  ws_append wb sheet row_data.

(** The body of the loop over the configured lists, from [create_sheet]
    on: the part that runs for a list with tasks. *)
Definition export_sheet (wb : workbook) (sheet_name tasks : pyval)
  : result workbook :=
  created <- create_sheet wb sheet_name ;;
  let '(wb, sheet) := created in
  let headers := [VStr "Task Name"] in
  tasks <- py_iter tasks ;;
  custom_field_names <- discover_columns tasks ;;
  let headers := (headers ++ dict_keys custom_field_names)%list in
  wb <- ws_append wb sheet headers ;;
  foldM (append_task_row custom_field_names sheet) tasks wb.

(** One round of the loop; the state is the workbook and the number of
    HTTP exchanges made so far. *)
Definition export_list (st : workbook * nat) (entry : pyval * pyval)
  : result (workbook * nat) :=
  let '(wb, k) := st in
  let '(sheet_name, list_id) := entry in
  tasks <- _get_tasks_from_list k list_id ;;
  if negb (truthy tasks) then Ok (wb, S k)
  else wb <- export_sheet wb sheet_name tasks ;; Ok (wb, S k).

(** Lines 188-190. *)
Definition remove_default_sheet (wb : workbook) : result workbook :=
  if (1 <? List.length (sheetnames wb))%nat
     && existsb (String.eqb "Sheet") (sheetnames wb)
  then wb_delitem wb "Sheet"
  else Ok wb.

(** The body of the [try]: [Ok (path, wb)] is the call
    [workbook.save(path)] on the workbook [wb]; an exception is caught by
    the [except] clause, which prints it, and then nothing is saved.
    [list_ids] are the items of the configured mapping, in its order. *)
Definition export_to_excel (list_ids : list (pyval * pyval))
  : result (string * workbook) :=
  let wb := Workbook in
  st <- foldM export_list list_ids (wb, O) ;;
  wb <- remove_default_sheet (fst st) ;;
  path <- filepath ;;
  Ok (path, wb).

End Orchestrator.

(** * Specification-side definitions

    What the specification says a field, a column set or a row should be,
    written from its words, to be compared with the functions above. *)

(** The [id] of an option of [type_config.options]. *)
Definition option_id (option : pyval) : pyval :=
  match option with
  | VDict d => match assoc "id" d with Some x => x | None => VNone end
  | _ => VNone
  end.

(** [option.get("name", "")], and the empty text for what is no object. *)
Definition option_name (option : pyval) : pyval :=
  match option with
  | VDict d => match assoc "name" d with Some x => x | None => VStr "" end
  | _ => VStr ""
  end.

(** A [dropdown] value: the name of the first option with that id, the raw
    identifier when there is none; the name of an object; anything else
    stringified. *)
Definition dropdown_display (options : list pyval) (v : pyval) : pyval :=
  match v with
  | VStr _ =>
      match find (fun option => py_eq (option_id option) v) options with
      | Some option => option_name option
      | None => v
      end
  | VDict _ => option_name v
  | _ => VStr (py_str v)
  end.

(** What one item of a [labels]/[multi_select] value contributes: its own
    name when it is an object carrying one, otherwise the names of the
    options whose id it is (none when it cannot be resolved). *)
Definition contributed (options : list pyval) (item : pyval) : list pyval :=
  let resolved :=
    map option_name
        (filter (fun option => py_eq (option_id option) item) options) in
  match item with
  | VDict d =>
      match assoc "name" d with
      | Some name => [name]
      | None => resolved
      end
  | _ => resolved
  end.

(** The values [/] accepts on the left of an [int]. *)
Definition is_number (v : pyval) : bool :=
  match v with
  | VBool _ | VInt _ | VFloat _ => true
  | _ => false
  end.

(** Reads a list of values as texts, when all of them are. *)
Fixpoint texts (l : list pyval) : option (list string) :=
  match l with
  | [] => Some []
  | VStr s :: r => option_map (cons s) (texts r)
  | _ :: _ => None
  end.

(** A [relationship] value as the code renders it: the names of the entries
    that are not falsy, each of which has to be an object. *)
Definition relationship_text (v : pyval) : option string :=
  match v with
  | VList linked =>
      let kept := filter truthy linked in
      if forallb is_dict kept
      then option_map (String.concat ", ") (texts (map option_name kept))
      else None
  | _ => Some ""
  end.

(** The same value as the specification words it: only the null entries
    are skipped. *)
Definition relationship_text_claimed (v : pyval) : option string :=
  match v with
  | VList linked =>
      let kept := filter (fun x => negb (is_none x)) linked in
      if forallb is_dict kept
      then option_map (String.concat ", ") (texts (map option_name kept))
      else None
  | _ => Some ""
  end.

(** ** Timestamps

    What the specification says of a [date] or [time] field: the text is the
    number of milliseconds divided by 1000.  For a whole number of
    milliseconds that quotient has a finite decimal expansion, and the text
    is to be that expansion.  The reader below takes a text apart without
    any reference to the functions that produce it. *)

Definition digit_value (c : ascii) : option Z :=
  let n := Z.of_N (N_of_ascii c) in
  if (48 <=? n) && (n <=? 57) then Some (n - 48) else None.

(** Reads the digits at the start of [s] after the digits [acc]: the number
    read, how many digits were added to [cnt], and the rest of the text. *)
Fixpoint read_digits (s : string) (acc cnt : Z) : Z * Z * string :=
  match s with
  | String c r =>
      match digit_value c with
      | Some d => read_digits r (10 * acc + d) (cnt + 1)
      | None => (acc, cnt, s)
      end
  | EmptyString => (acc, cnt, s)
  end.

(** A text [W.F] of at least one digit on each side of the point. *)
Record decimal_text := {
  dt_whole : Z;          (* the digits before the point, as a number *)
  dt_whole_digits : Z;   (* how many they are *)
  dt_digits : Z;         (* all the digits, as a number *)
  dt_places : Z          (* how many digits follow the point *)
}.

Definition read_unsigned (s : string) : option decimal_text :=
  let '(w, nw, rest) := read_digits s 0 0 in
  match rest with
  | String c frac =>
      if Ascii.eqb c "." && (0 <? nw) then
        let '(d, nf, rest') := read_digits frac w 0 in
        match rest' with
        | EmptyString =>
            if 0 <? nf then
              Some {| dt_whole := w; dt_whole_digits := nw;
                      dt_digits := d; dt_places := nf |}
            else None
        | _ => None
        end
      else None
  | EmptyString => None
  end.

(** A decimal text, with a minus sign in front or not. *)
Definition read_decimal (s : string) : option (bool * decimal_text) :=
  match read_unsigned s with
  | Some d => Some (false, d)
  | None =>
      match s with
      | String c r =>
          if Ascii.eqb c "-" then option_map (pair true) (read_unsigned r)
          else None
      | EmptyString => None
      end
  end.

(** No zero in front of the whole part unless it is the single digit [0],
    no zero at the end of the fraction unless it is the single digit [0]. *)
Definition plain_decimal (d : decimal_text) : bool :=
  ((dt_whole_digits d =? 1) || (10 ^ (dt_whole_digits d - 1) <=? dt_whole d))
  && ((dt_places d =? 1) || negb (dt_digits d mod 10 =? 0)).

(** [text] is the decimal expansion of [n / 1000]. *)
Definition is_thousandth (text : string) (n : Z) : bool :=
  match read_decimal text with
  | Some (neg, d) =>
      plain_decimal d
      && (dt_digits d * 1000 =? Z.abs n * 10 ^ dt_places d)
      && (if neg then n <=? 0 else 0 <=? n)
  | None => false
  end.

(** The binary64 number [x] is the integer [n]: a zero for 0, otherwise a
    well-formed [m * 2^e] of the sign of [n] and of its magnitude. *)
Definition float_holds (x : spec_float) (n : Z) : bool :=
  match x with
  | S754_zero _ => n =? 0
  | S754_finite s m e =>
      bounded prec emax m e
      && (if s then n <? 0 else 0 <? n)
      && (if e <? 0 then Z.abs n * 2 ^ (- e) =? Zpos m
          else Z.abs n =? Zpos m * 2 ^ e)
  | _ => false
  end.

(** [v] is the whole number [n]: an [int], a [bool] ([True] is 1, [False]
    is 0), or a [float] holding an integer. *)
Definition whole_number (v : pyval) (n : Z) : bool :=
  match v with
  | VBool b => (if b then 1 else 0) =? n
  | VInt a => a =? n
  | VFloat x => float_holds x n
  | _ => false
  end.

(** ** Columns, rows and sheets *)

(** The custom fields of a task record of the expected shape. *)
Definition task_fields (task : pyval) : option (list pyval) :=
  match task with
  | VDict d =>
      match assoc "custom_fields" d with
      | None => Some []
      | Some (VList fields) => Some fields
      | Some _ => None
      end
  | _ => None
  end.

(** The name of a field record, when it is a text. *)
Definition field_name (field : pyval) : option string :=
  match field with
  | VDict d =>
      match assoc "name" d with
      | Some (VStr s) => Some s
      | _ => None
      end
  | _ => None
  end.

(** The names of a sequence of field records, when each has one. *)
Fixpoint names_of (fields : list pyval) : option (list string) :=
  match fields with
  | [] => Some []
  | field :: r =>
      match field_name field, names_of r with
      | Some n, Some ns => Some (n :: ns)
      | _, _ => None
      end
  end.

(** The field names of all tasks, task after task, each task's fields in
    their own order. *)
Fixpoint all_field_names (tasks : list pyval) : option (list string) :=
  match tasks with
  | [] => Some []
  | task :: r =>
      match task_fields task with
      | Some fields =>
          match names_of fields, all_field_names r with
          | Some ns, Some rest => Some (ns ++ rest)%list
          | _, _ => None
          end
      | None => None
      end
  end.

(** [m] is another name than [n]. *)
Definition differs (n m : string) : bool := negb (String.eqb m n).

(** Each name once, at the place of its first occurrence. *)
Fixpoint first_seen (names : list string) : list string :=
  match names with
  | [] => []
  | n :: r => n :: filter (differs n) (first_seen r)
  end.

(** Whether a field record carries the name [c]. *)
Definition named (c : string) (field : pyval) : bool :=
  match field_name field with
  | Some n => String.eqb n c
  | None => false
  end.

(** The content of the slot of column [c] in the row of a task with the
    given fields: the normalised value of the last field named [c], the
    empty text when there is none. *)
Definition slot_value (fields : list pyval) (c : string) : result pyval :=
  match find (named c) (rev fields) with
  | Some field => _get_field_value field
  | None => Ok (VStr "")
  end.

(** The placeholder sheet a new workbook starts with. *)
Definition default_sheet : worksheet := {| title := "Sheet"; rows := [] |}.

(** How many of the configured lists come back with tasks, the first of
    them being asked in the [k]-th exchange: the number of data sheets a
    run creates. *)
Fixpoint lists_with_tasks (http_get : nat -> pyval -> option pyval) (k : nat)
  (list_ids : list (pyval * pyval)) : nat :=
  match list_ids with
  | [] => O
  | (_, list_id) :: rest =>
      match _get_tasks_from_list http_get k list_id with
      | Ok tasks => if truthy tasks then 1%nat else O
      | Raise _ => O
      end + lists_with_tasks http_get (S k) rest
  end.

(** ** Auxiliary definitions for the proofs *)

(** Membership of a name in a list of columns. *)
Definition mem (n : string) (cols : list string) : bool :=
  existsb (String.eqb n) cols.

(** The insertion loop on plain names: a name joins the columns, at the
    end, unless it is among them already. *)
Definition insert_name (cols : list string) (n : string) : list string :=
  if mem n cols then cols else (cols ++ [n])%list.

(** A [dict] with the given text keys, in that order, the value of each
    given by [g]. *)
Definition slots (g : string -> pyval) (cols : list string) : pydict :=
  map (fun c => (VStr c, g c)) cols.

(** The slots [g] with the slot of [n] set to [x]. *)
Definition override (g : string -> pyval) (n : string) (x : pyval)
  : string -> pyval :=
  fun c => if String.eqb c n then x else g c.

(** The column set over the given names: every key maps to [True]. *)
Definition marked (cols : list string) : pydict :=
  slots (fun _ => VBool true) cols.

(** [n] is not among the columns yet. *)
Definition fresh_for (cols : list string) (n : string) : bool :=
  negb (mem n cols).

(** The slots a row starts from: every column empty. *)
Definition blank : string -> pyval := fun _ => VStr "".

(** How a remainder [a] out of [b] is kept by the rounding of [SpecFloat]:
    the round bit and the sticky bit of the fraction [a / b]. *)
Definition frac_code (a b : Z) : bool * bool :=
  if a =? 0 then (false, false)
  else match 2 * a ?= b with
       | Lt => (false, true)
       | Eq => (true, false)
       | Gt => (true, true)
       end.

(** The record [r] carries the fraction [a / b] below its mantissa. *)
Definition located (r : shr_record) (a b : Z) : Prop :=
  0 <= a < b /\ (shr_r r, shr_s r) = frac_code a b.

(** [m * 2^e] is a normal binary64 whose rounding interval has the
    thousandth of [N] strictly inside. *)
Definition rounds_thousandth (N : Z) (m : positive) (e : Z) : Prop :=
  2 ^ 52 <= Zpos m < 2 ^ 53
  /\ -1074 < e <= -11
  /\ (4 * Zpos m - (if Zpos m =? 2 ^ 52 then 1 else 2)) * 1000 < N * 2 ^ (2 - e)
  /\ N * 2 ^ (2 - e) < (4 * Zpos m + 2) * 1000.

(** ** Further definitions: field types, dictionaries, tables *)

(** The type names that have a branch of their own after [checkbox]. *)
Definition structured_names : list string :=
  ["dropdown"; "labels"; "multi_select"; "date"; "time"; "users";
   "location"; "relationship"; "formula"; "created_by"; "updated_by"].

Definition is_structured (t : pyval) : bool :=
  existsb (fun n => py_eq t (VStr n)) structured_names.

(** The member an object-valued type shows. *)
Definition member_key (t : string) : option string :=
  if String.eqb t "location" then Some "name"
  else if String.eqb t "formula" then Some "text"
  else if String.eqb t "created_by" || String.eqb t "updated_by"
  then Some "username"
  else None.

(** [v.get(key, "")] for an object, the empty text for anything else. *)
Definition member (key : string) (v : pyval) : pyval :=
  match v with
  | VDict d => match assoc key d with Some x => x | None => VStr "" end
  | _ => VStr ""
  end.

(** The types whose value has to be a list. *)
Definition list_names : list string :=
  ["labels"; "multi_select"; "users"; "relationship"].

(** The name an item of a [labels] value carries itself. *)
Definition own_name (item : pyval) : option pyval :=
  match item with
  | VDict d => assoc "name" d
  | _ => None
  end.

Fixpoint own_names (items : list pyval) : option (list pyval) :=
  match items with
  | [] => Some []
  | item :: r =>
      match own_name item, own_names r with
      | Some n, Some ns => Some (n :: ns)
      | _, _ => None
      end
  end.

(** No key among [seen] is found equal to [k] by a lookup. *)
Definition unmatched (seen : list pyval) (k : pyval) : bool :=
  negb (existsb (fun k' => py_same k' k) seen).

(** Every key of [keys] is new with respect to [seen] and the keys before
    it: the order in which a [dict] received its keys. *)
Fixpoint distinct_after (seen keys : list pyval) : bool :=
  match keys with
  | [] => true
  | k :: r => unmatched seen k && distinct_after (seen ++ [k])%list r
  end.

(** What holds of the items of every [dict]: hashable keys, no key twice. *)
Definition dict_wf (d : pydict) : bool :=
  forallb hashable (dict_keys d) && distinct_after [] (dict_keys d).

(** A sheet holding a table: a header row and data rows of its length. *)
Definition is_table (ws : worksheet) : bool :=
  match rows ws with
  | [] => false
  | header :: data =>
      forallb (fun row => Nat.eqb (List.length row) (List.length header)) data
  end.

(** A sheet whose rows all have the same length. *)
Definition rectangular (ws : worksheet) : bool :=
  match rows ws with
  | [] => true
  | first :: rest =>
      forallb (fun row => Nat.eqb (List.length row) (List.length first)) rest
  end.

(** What the discovery loops keep: the dictionary is well formed and every
    value is [True]. *)
Definition column_set (d : pydict) : Prop :=
  dict_wf d = true /\ Forall (fun x => x = VBool true) (dict_values d).

(** * Example records *)

Definition stage_options : list pyval :=
  [VDict [("id", VStr "a1"); ("name", VStr "Open")];
   VDict [("id", VStr "b2"); ("name", VStr "Closed")];
   VDict [("id", VStr "b2"); ("name", VStr "Shut")]].

Definition stage_field (v : pyval) : pyval :=
  VDict [("name", VStr "Stage"); ("type", VStr "dropdown"); ("value", v);
         ("type_config", VDict [("options", VList stage_options)])].

Definition linked_tasks_example : pyval :=
  VList [VDict [("id", VStr "t1"); ("name", VStr "Survey")]; VNone;
         VDict [("id", VStr "t2")]; VDict [];
         VDict [("id", VStr "t3"); ("name", VStr "Permit")]].

Definition tag_options : list pyval :=
  [VDict [("id", VStr "o1"); ("name", VStr "Urgent")];
   VDict [("id", VStr "o2"); ("name", VStr "Billing")];
   VDict [("id", VStr "o3"); ("name", VStr "Review")]].

Definition tag_items : list pyval :=
  [VStr "o3"; VDict [("id", VStr "x9"); ("name", VStr "Legacy")]; VStr "o1"].

Definition text_field (n v : string) : pyval :=
  VDict [("id", VStr n); ("name", VStr n); ("type", VStr "text");
         ("value", VStr v)].

Definition two_tasks : list pyval :=
  [VDict [("name", VStr "first");
          ("custom_fields", VList [text_field "A" "1"; text_field "B" "2"])];
   VDict [("name", VStr "second");
          ("custom_fields", VList [text_field "B" "3"; text_field "C" "4"])]].

Definition row_task : pyval :=
  VDict [("id", VStr "t7"); ("name", VStr "first");
         ("custom_fields",
          VList [text_field "A" "1"; text_field "B" "2"; text_field "Z" "9";
                 text_field "A" "5"])].

(** Collaborators for a run over two lists: the service answers the first
    list with no tasks and the second with one task; the workbook takes
    titles and cell values as given. *)

Definition status_task : pyval :=
  VDict [("id", VStr "86c0"); ("name", VStr "Call the surveyor");
         ("custom_fields",
          VList [VDict [("id", VStr "f1"); ("name", VStr "Status");
                        ("type", VStr "text"); ("value", VStr "Open")]])].

Definition two_lists_http (k : nat) (list_id : pyval) : option pyval :=
  if py_eq list_id (VStr "902")
  then Some (VDict [("tasks", VList [status_task])])
  else if py_eq list_id (VStr "901") then Some (VDict [("tasks", VList [])])
  else None.

Definition no_answer (k : nat) (list_id : pyval) : option pyval := None.

Definition title_as_given (names : list string) (t : pyval) : result string :=
  match t with
  | VStr s => Ok s
  | _ => Raise TypeError
  end.

Definition cell_as_given (v : pyval) : result pyval := Ok v.

Definition two_lists : list (pyval * pyval) :=
  [(VStr "Biuro", VStr "901"); (VStr "Kontakty OSD", VStr "902")].

Definition contacts_sheet : worksheet :=
  {| title := "Kontakty OSD";
     rows := [[VStr "Task Name"; VStr "Status"];
              [VStr "Call the surveyor"; VStr "Open"]] |}.

Definition assignees_example : list pyval :=
  [VDict [("id", VInt 11); ("username", VStr "ola")]; VStr "ghost"; VInt 4;
   VDict [("id", VInt 12)]; VNone;
   VDict [("id", VInt 13); ("username", VStr "jan")]].

(** Two tasks whose fields are named by a number, by the same number
    written as a float, by nothing, and by a text. *)
Definition odd_names_tasks : list pyval :=
  [VDict [("name", VStr "first");
          ("custom_fields",
           VList [VDict [("name", VInt 1); ("type", VStr "text");
                         ("value", VStr "a")];
                  VDict [("type", VStr "text"); ("value", VStr "b")]])];
   VDict [("name", VStr "second");
          ("custom_fields",
           VList [VDict [("name", VFloat (S754_finite false 1 0));
                         ("type", VStr "text"); ("value", VStr "c")];
                  VDict [("name", VStr "Status"); ("type", VStr "text");
                         ("value", VStr "d")]])]].

(** A task whose due date arrives as a text, and a service that answers
    the first list with a sound task and the second with that one; a
    service that answers with a JSON array instead of an object. *)
Definition due_task : pyval :=
  VDict [("id", VStr "86c1"); ("name", VStr "File the permit");
         ("custom_fields",
          VList [VDict [("id", VStr "f2"); ("name", VStr "Due");
                        ("type", VStr "date");
                        ("value", VStr "1700000000000")]])].

Definition due_http (k : nat) (list_id : pyval) : option pyval :=
  if py_eq list_id (VStr "901")
  then Some (VDict [("tasks", VList [status_task])])
  else Some (VDict [("tasks", VList [due_task])]).

Definition array_http (k : nat) (list_id : pyval) : option pyval :=
  Some (VList [status_task]).

Definition no_tasks_key_http (k : nat) (list_id : pyval) : option pyval :=
  Some (VDict [("err", VStr "Team not authorized"); ("ECODE", VStr "OAUTH_027")]).

(** The sheet the first list of [due_http] produces. *)
Definition office_sheet : worksheet :=
  {| title := "Biuro";
     rows := [[VStr "Task Name"; VStr "Status"];
              [VStr "Call the surveyor"; VStr "Open"]] |}.

(** * Properties *)

Lemma field_is_dict (field : pyval) (key : string) (default v : pyval) :
  py_get field key default = Ok v -> exists d, field = VDict d.
Proof. destruct field; simpl; try discriminate. eauto. Qed.

(** Opens [_get_field_value] on a field whose type and value are known. *)
Ltac open_field field Htype Hvalue :=
  let d := fresh "d" in
  destruct (field_is_dict _ _ _ _ Htype) as [d ->];
  unfold _get_field_value;
  cbn [py_get bind] in Htype, Hvalue |- *;
  injection Htype as Htype; injection Hvalue as Hvalue;
  rewrite Htype, Hvalue.

Lemma texts_as_str (l : list pyval) (parts : list string) :
  texts l = Some parts -> mapM as_str l = Ok parts.
Proof.
  revert parts. induction l as [|x r IH]; intros parts H; simpl in *.
  - now injection H as <-.
  - destruct x; try discriminate.
    destruct (texts r) as [ps|]; try discriminate.
    injection H as <-. now rewrite (IH ps eq_refl).
Qed.

Lemma py_join_texts (sep : string) (l : list pyval) (parts : list string) :
  texts l = Some parts -> py_join sep l = Ok (VStr (String.concat sep parts)).
Proof. intros H. unfold py_join. now rewrite (texts_as_str _ _ H). Qed.

Lemma py_get_option_name (option : pyval) :
  is_dict option = true -> py_get option "name" (VStr "") = Ok (option_name option).
Proof. destruct option; simpl; try discriminate; reflexivity. Qed.

Lemma py_get_option_id (option : pyval) :
  is_dict option = true -> py_get option "id" VNone = Ok (option_id option).
Proof. destruct option; simpl; try discriminate; reflexivity. Qed.

(** C1.  The normaliser is not total: a [date] field whose value is a text
    (the form in which the service sends timestamps) raises [TypeError] at
    the division, and a [relationship] field with a non-empty text among its
    entries raises [AttributeError] at the [get] call. *)
Theorem get_field_value_raises_on_malformed :
  _get_field_value
    (VDict [("name", VStr "Due"); ("type", VStr "date");
            ("value", VStr "1700000000000")]) = Raise TypeError
  /\ _get_field_value
       (VDict [("name", VStr "Links"); ("type", VStr "relationship");
               ("value", VList [VStr "t1"])]) = Raise AttributeError.
Proof. split; reflexivity. Qed.

(** C7, amended.  A [checkbox] field yields ["Yes"] when its value is
    truthy and ["No"] when it is falsy but not null; a null or absent value
    yields the empty text, as for every other type. *)
Theorem checkbox_yes_no (field v : pyval) :
  py_get field "type" VNone = Ok (VStr "checkbox") ->
  py_get field "value" VNone = Ok v ->
  _get_field_value field =
    Ok (VStr (if is_none v then "" else if truthy v then "Yes" else "No")).
Proof.
  intros Htype Hvalue. open_field field Htype Hvalue.
  destruct (is_none v); reflexivity.
Qed.

Lemma checkbox_yes_no_witness :
  _get_field_value
    (VDict [("name", VStr "Done"); ("type", VStr "checkbox"); ("value", VInt 0)])
  = Ok (VStr "No")
  /\ _get_field_value
       (VDict [("name", VStr "Done"); ("type", VStr "checkbox");
               ("value", VStr "false")])
     = Ok (VStr "Yes").
Proof.
  split.
  - apply (checkbox_yes_no
             (VDict [("name", VStr "Done"); ("type", VStr "checkbox");
                     ("value", VInt 0)]) (VInt 0)); reflexivity.
  - apply (checkbox_yes_no
             (VDict [("name", VStr "Done"); ("type", VStr "checkbox");
                     ("value", VStr "false")]) (VStr "false")); reflexivity.
Defined.

(** C7 as stated fails on a null value: it is falsy, and the result is the
    empty text, not ["No"]; likewise when the field has no value at all. *)
Lemma checkbox_null_is_not_no :
  truthy VNone = false
  /\ _get_field_value
       (VDict [("name", VStr "Done"); ("type", VStr "checkbox"); ("value", VNone)])
     = Ok (VStr "")
  /\ _get_field_value (VDict [("name", VStr "Done"); ("type", VStr "checkbox")])
     = Ok (VStr "")
  /\ Ok (VStr "") <> Ok (VStr "No").
Proof. repeat split; try reflexivity. discriminate. Qed.

(** ** Timestamps: the quotient by 1000 and its text

    *** Binary digits *)

Lemma digits2_pos_size (p : positive) : digits2_pos p = Pos.size p.
Proof. induction p; simpl; congruence. Qed.

Lemma Zdigits2_log2 (x : Z) : 0 < x -> Zdigits2 x = Z.log2 x + 1.
Proof.
  destruct x as [|p|p]; try lia. intros _. simpl. rewrite digits2_pos_size.
  destruct p; simpl; lia.
Qed.

Lemma Zdigits2_nonneg (x : Z) : 0 <= x -> 0 <= Zdigits2 x.
Proof. destruct x; simpl; lia. Qed.

Lemma Zdigits2_le (x : Z) (k : Z) :
  0 <= x -> 0 <= k -> x < 2 ^ k -> Zdigits2 x <= k.
Proof.
  intros Hx Hk H. destruct (Z.eq_dec x 0) as [->|Hne]; [simpl; lia|].
  rewrite Zdigits2_log2 by lia.
  assert (Z.log2 x < k) by (apply Z.log2_lt_pow2; lia). lia.
Qed.

Lemma Zdigits2_lt_pow (x : Z) : 0 <= x -> x < 2 ^ Zdigits2 x.
Proof.
  intros Hx. destruct (Z.eq_dec x 0) as [->|Hne]; [simpl; lia|].
  rewrite Zdigits2_log2 by lia.
  pose proof (Z.log2_spec x). rewrite <- Z.add_1_r in *. lia.
Qed.

Lemma shr_m_of_loc (m : Z) (l : location) : shr_m (shr_record_of_loc m l) = m.
Proof. destruct l as [|[]]; reflexivity. Qed.

(** *** Shifting and rounding a located value *)

Lemma frac_code_zero (b : Z) : frac_code 0 b = (false, false).
Proof. reflexivity. Qed.

Lemma frac_code_low (a b : Z) : 0 < a -> 2 * a < b -> frac_code a b = (false, true).
Proof.
  intros Ha Hb. unfold frac_code.
  replace (a =? 0) with false by (symmetry; apply Z.eqb_neq; lia).
  replace (2 * a ?= b) with Lt by (symmetry; apply Z.compare_lt_iff; lia).
  reflexivity.
Qed.

Lemma frac_code_half (a b : Z) : 0 < a -> 2 * a = b -> frac_code a b = (true, false).
Proof.
  intros Ha Hb. unfold frac_code.
  replace (a =? 0) with false by (symmetry; apply Z.eqb_neq; lia).
  replace (2 * a ?= b) with Eq by (symmetry; apply Z.compare_eq_iff; lia).
  reflexivity.
Qed.

Lemma frac_code_high (a b : Z) : 0 < a -> b < 2 * a -> frac_code a b = (true, true).
Proof.
  intros Ha Hb. unfold frac_code.
  replace (a =? 0) with false by (symmetry; apply Z.eqb_neq; lia).
  replace (2 * a ?= b) with Gt by (symmetry; apply Z.compare_gt_iff; lia).
  reflexivity.
Qed.

Lemma frac_code_sticky (a b : Z) (rb st : bool) :
  (rb, st) = frac_code a b -> orb rb st = negb (a =? 0).
Proof.
  unfold frac_code. destruct (a =? 0).
  - intros H. injection H as -> ->. reflexivity.
  - destruct (2 * a ?= b); intros H; injection H as -> ->; reflexivity.
Qed.

Lemma shr_1_located (r : shr_record) (a b : Z) :
  0 <= shr_m r -> located r a b ->
  located (shr_1 r) (shr_m r mod 2 * b + a) (2 * b)
  /\ shr_m (shr_1 r) = shr_m r / 2.
Proof.
  destruct r as [m rb st]. unfold located. cbn [shr_m shr_r shr_s].
  intros Hm [Hab Hc].
  apply frac_code_sticky in Hc.
  assert (Ha : a = 0 \/ 0 < a) by lia.
  assert (Hs : orb rb st = false /\ a = 0 \/ orb rb st = true /\ 0 < a).
  { destruct Ha as [-> | Ha]; [left | right]; rewrite Hc; split; auto.
    replace (a =? 0) with false by (symmetry; apply Z.eqb_neq; lia). reflexivity. }
  clear Hc Ha.
  destruct m as [|[p|p|]|p]; try lia; cbn [shr_1 shr_m shr_r shr_s].
  - split; [|reflexivity]. change (0 mod 2) with 0. split; [lia|].
    destruct Hs as [[-> ->] | [-> Ha]].
    + reflexivity.
    + symmetry. apply frac_code_low; lia.
  - replace (Z.pos p~1 mod 2) with 1
      by (rewrite Pos2Z.inj_xI, Z.add_comm, Z.mul_comm, Z.mod_add by lia; reflexivity).
    replace (Z.pos p~1 / 2) with (Z.pos p)
      by (rewrite Pos2Z.inj_xI, Z.add_comm, Z.mul_comm, Z.div_add by lia; reflexivity).
    split; [|reflexivity]. split; [lia|].
    destruct Hs as [[-> ->] | [-> Ha]].
    + symmetry. apply frac_code_half; lia.
    + symmetry. apply frac_code_high; lia.
  - replace (Z.pos p~0 mod 2) with 0
      by (rewrite Pos2Z.inj_xO, Z.mul_comm, Z.mod_mul by lia; reflexivity).
    replace (Z.pos p~0 / 2) with (Z.pos p)
      by (rewrite Pos2Z.inj_xO, Z.mul_comm, Z.div_mul by lia; reflexivity).
    split; [|reflexivity]. split; [lia|].
    destruct Hs as [[-> ->] | [-> Ha]].
    + reflexivity.
    + symmetry. apply frac_code_low; lia.
  - split; [|reflexivity]. change (1 mod 2) with 1. split; [lia|].
    destruct Hs as [[-> ->] | [-> Ha]].
    + symmetry. apply frac_code_half; lia.
    + symmetry. apply frac_code_high; lia.
Qed.

Lemma iter_pos_nat {A : Type} (f : A -> A) (p : positive) (x : A) :
  iter_pos f p x = Nat.iter (Pos.to_nat p) f x.
Proof.
  revert x. induction p as [p IH|p IH|]; intros x; simpl iter_pos.
  - rewrite !IH. rewrite Pos2Nat.inj_xI.
    replace (S (2 * Pos.to_nat p))%nat with (Pos.to_nat p + (Pos.to_nat p + 1))%nat by lia.
    rewrite !Nat.iter_add. reflexivity.
  - rewrite !IH. rewrite Pos2Nat.inj_xO.
    replace (2 * Pos.to_nat p)%nat with (Pos.to_nat p + Pos.to_nat p)%nat by lia.
    rewrite !Nat.iter_add. reflexivity.
  - reflexivity.
Qed.

Lemma iter_shr_1_located (n : nat) (r : shr_record) (a b : Z) :
  0 <= shr_m r -> 0 < b -> located r a b ->
  located (Nat.iter n shr_1 r) (shr_m r mod 2 ^ Z.of_nat n * b + a) (2 ^ Z.of_nat n * b)
  /\ shr_m (Nat.iter n shr_1 r) = shr_m r / 2 ^ Z.of_nat n.
Proof.
  intros Hm Hb Hl. induction n as [|n [IHl IHm]].
  - simpl. rewrite Z.mod_1_r, Z.div_1_r.
    replace (0 * b + a) with a by lia.
    replace (match b with 0 => 0 | Z.pos y' => Z.pos y' | Z.neg y' => Z.neg y' end) with b
      by (destruct b; reflexivity).
    split; [exact Hl | reflexivity].
  - rewrite Nat.iter_succ.
    assert (Hp : 0 < 2 ^ Z.of_nat n) by (apply Z.pow_pos_nonneg; lia).
    assert (Hm' : 0 <= shr_m (Nat.iter n shr_1 r)).
    { rewrite IHm. apply Z.div_pos; lia. }
    destruct (shr_1_located _ _ _ Hm' IHl) as [Hl1 Hm1].
    rewrite Nat2Z.inj_succ, Z.pow_succ_r by lia.
    split.
    + replace (shr_m r mod (2 * 2 ^ Z.of_nat n) * b + a)
        with (shr_m (Nat.iter n shr_1 r) mod 2 * (2 ^ Z.of_nat n * b)
              + (shr_m r mod 2 ^ Z.of_nat n * b + a)).
      * replace (2 * 2 ^ Z.of_nat n * b) with (2 * (2 ^ Z.of_nat n * b)) by ring.
        exact Hl1.
      * rewrite IHm. rewrite (Z.mul_comm 2 (2 ^ Z.of_nat n)).
        rewrite (Z.rem_mul_r (shr_m r) (2 ^ Z.of_nat n) 2) by lia. ring.
    + rewrite Hm1, IHm. rewrite Z.div_div by lia. f_equal. ring.
Qed.

Lemma shr_nat (r : shr_record) (e n : Z) :
  0 <= n -> shr r e n = (Nat.iter (Z.to_nat n) shr_1 r, e + n).
Proof.
  intros Hn. destruct n as [|p|p]; try lia.
  - simpl. rewrite Z.add_0_r. reflexivity.
  - unfold shr. rewrite iter_pos_nat. reflexivity.
Qed.

Lemma Zdigits2_unique (x k : Z) :
  0 < k -> 2 ^ (k - 1) <= x < 2 ^ k -> Zdigits2 x = k.
Proof.
  intros Hk Hx.
  assert (0 < 2 ^ (k - 1)) by (apply Z.pow_pos_nonneg; lia).
  rewrite Zdigits2_log2 by lia.
  rewrite (Z.log2_unique x (k - 1)); try lia.
  replace (Z.succ (k - 1)) with k by lia. exact Hx.
Qed.

Lemma Zdigits2_lower (x : Z) : 0 < x -> 2 ^ (Zdigits2 x - 1) <= x.
Proof.
  intros Hx. rewrite Zdigits2_log2 by lia.
  replace (Z.log2 x + 1 - 1) with (Z.log2 x) by lia.
  apply Z.log2_spec. exact Hx.
Qed.

Lemma located_of_loc (m a b : Z) (l : location) :
  located (shr_record_of_loc m l) a b ->
  located {| shr_m := m; shr_r := fst (frac_code a b); shr_s := snd (frac_code a b) |} a b.
Proof.
  unfold located. intros [H1 H2]. split; [exact H1|]. simpl.
  destruct (frac_code a b); reflexivity.
Qed.

Lemma round_located (r : shr_record) (a b : Z) :
  located r a b ->
  (round_nearest_even (shr_m r) (loc_of_shr_record r) = shr_m r /\ 2 * a <= b)
  \/ (round_nearest_even (shr_m r) (loc_of_shr_record r) = shr_m r + 1 /\ b <= 2 * a).
Proof.
  destruct r as [m rb st]. unfold located, frac_code. cbn [shr_m shr_r shr_s].
  intros [Hab Hc].
  destruct (a =? 0) eqn:Ea.
  - apply Z.eqb_eq in Ea. injection Hc as -> ->. left.
    cbn [round_nearest_even loc_of_shr_record]. lia.
  - destruct (2 * a ?= b) eqn:Ec; injection Hc as -> ->;
      cbn [round_nearest_even loc_of_shr_record].
    + apply Z.compare_eq_iff in Ec. destruct (Z.even m); [left | right]; lia.
    + assert (2 * a < b) by exact Ec. left. lia.
    + apply Z.compare_gt_iff in Ec. right. lia.
Qed.

(** Rounding a located value in the normal range: the result is a finite
    number with a full mantissa whose rounding interval contains the
    value [(mx + a/b) * 2^ex]. *)
Lemma binary_round_aux_normal (sx : bool) (mx ex a b : Z) (lx : location) :
  0 < mx ->
  53 <= Zdigits2 mx ->
  -1074 <= ex + Zdigits2 mx - 53 ->
  ex + Zdigits2 mx - 52 <= 971 ->
  located (shr_record_of_loc mx lx) a b ->
  exists m e,
    binary_round_aux prec emax sx mx ex lx = S754_finite sx m e
    /\ 2 ^ 52 <= Zpos m < 2 ^ 53
    /\ ex + Zdigits2 mx - 53 <= e <= ex + Zdigits2 mx - 52
    /\ (4 * Zpos m - (if Zpos m =? 2 ^ 52 then 1 else 2)) * (2 ^ (e - ex) * b)
       <= 4 * (mx * b + a)
    /\ 4 * (mx * b + a) <= (4 * Zpos m + 2) * (2 ^ (e - ex) * b).
Proof.
  intros Hmx Hd Hlow Hhigh Hloc.
  pose proof (Zdigits2_lower mx Hmx) as Hlo.
  pose proof (Zdigits2_lt_pow mx ltac:(lia)) as Hhi.
  set (d := Zdigits2 mx) in *.
  assert (Hb : 0 < b) by (destruct Hloc as [? _]; lia).
  unfold binary_round_aux, shr_fexp. fold d.
  replace (fexp prec emax (d + ex) - ex) with (d - 53)
    by (unfold fexp, emin, prec, emax; lia).
  rewrite shr_nat by lia.
  set (r0 := shr_record_of_loc mx lx) in *.
  assert (Hm0 : shr_m r0 = mx) by apply shr_m_of_loc.
  destruct (iter_shr_1_located (Z.to_nat (d - 53)) r0 a b) as [Hl1 Hm1];
    [lia | exact Hb | exact Hloc |].
  rewrite Z2Nat.id in Hl1, Hm1 by lia. rewrite Hm0 in Hl1, Hm1.
  set (r1 := Nat.iter (Z.to_nat (d - 53)) shr_1 r0) in *.
  set (K := 2 ^ (d - 53)) in *.
  assert (HK : 0 < K) by (apply Z.pow_pos_nonneg; lia).
  assert (Hsplit : mx = K * shr_m r1 + mx mod K).
  { rewrite Hm1. apply Z.div_mod. lia. }
  assert (Hmod : 0 <= mx mod K < K) by (apply Z.mod_pos_bound; lia).
  assert (Hp1 : 2 ^ (d - 1) = 2 ^ 52 * K).
  { unfold K. rewrite <- Z.pow_add_r by lia. f_equal. lia. }
  assert (Hp2 : 2 ^ d = 2 ^ 53 * K).
  { unfold K. rewrite <- Z.pow_add_r by lia. f_equal. lia. }
  assert (Hm1b : 2 ^ 52 <= shr_m r1 < 2 ^ 53).
  { rewrite Hm1. split.
    - apply Z.div_le_lower_bound; lia.
    - apply Z.div_lt_upper_bound; lia. }
  set (m1 := shr_m r1) in *.
  set (a1 := mx mod K * b + a) in *.
  set (b1 := K * b) in *.
  assert (HV : mx * b + a = m1 * b1 + a1).
  { unfold a1, b1. rewrite Hsplit at 1. ring. }
  assert (Hab1 : 0 <= a1 < b1) by (destruct Hl1 as [? _]; assumption).
  pose proof (round_located r1 a1 b1 Hl1) as Hround. fold m1 in Hround.
  set (mr := round_nearest_even m1 (loc_of_shr_record r1)) in *.
  assert (Hmr : 2 ^ 52 <= mr <= 2 ^ 53) by (destruct Hround as [[-> _]|[-> _]]; lia).
  set (X := m1 * b1) in *.
  destruct (Z.eq_dec mr (2 ^ 53)) as [Hcarry | Hno].
  - (* the mantissa is rounded up to the next power of two *)
    rewrite Hcarry.
    exists (4503599627370496%positive), (ex + (d - 53) + 1).
    assert (Hm : m1 = 2 ^ 53 - 1 /\ b1 <= 2 * a1).
    { destruct Hround as [[E _]|[E H]]; [lia | split; lia]. }
    destruct Hm as [Hm Hhalf].
    split.
    { change (Zdigits2 (2 ^ 53)) with 54.
      replace (fexp prec emax (54 + (ex + (d - 53))) - (ex + (d - 53))) with 1
        by (unfold fexp, emin, prec, emax; lia).
      cbn [shr shr_record_of_loc iter_pos]. 
      change (shr_m (shr_1 {| shr_m := 2 ^ 53; shr_r := false; shr_s := false |}))
        with (Z.pos 4503599627370496).
      cbv iota beta.
      replace (ex + (d - 53) + 1 <=? emax - prec) with true
        by (symmetry; apply Z.leb_le; unfold emax, prec; lia).
      reflexivity. }
    split; [lia|]. split; [lia|].
    replace (ex + (d - 53) + 1 - ex) with (d - 53 + 1) by lia.
    rewrite Z.pow_add_r by lia. fold K. change (2 ^ 1) with 2.
    replace (K * 2 * b) with (2 * b1) by (unfold b1; ring).
    rewrite HV. change (Z.pos 4503599627370496 =? 2 ^ 52) with true. cbv iota.
    assert (HX : X = (2 ^ 53 - 1) * b1) by (unfold X; rewrite Hm; reflexivity).
    change (2 ^ 53) with 9007199254740992 in *.
    split; lia.
  - assert (Hlt : mr < 2 ^ 53) by lia.
    assert (Hdig : Zdigits2 mr = 53) by (apply Zdigits2_unique; lia).
    rewrite Hdig.
    replace (fexp prec emax (53 + (ex + (d - 53))) - (ex + (d - 53))) with 0
      by (unfold fexp, emin, prec, emax; lia).
    cbn [shr shr_record_of_loc shr_m].
    destruct mr as [|m|m] eqn:Emr; try lia.
    exists m, (ex + (d - 53)).
    split.
    { replace (ex + (d - 53) <=? emax - prec) with true
        by (symmetry; apply Z.leb_le; unfold emax, prec; lia).
      reflexivity. }
    split; [lia|]. split; [lia|].
    replace (ex + (d - 53) - ex) with (d - 53) by lia. fold K. fold b1.
    rewrite HV. fold X.
    assert (Hdelta : 1 <= (if Z.pos m =? 2 ^ 52 then 1 else 2) <= 2)
      by (destruct (Z.pos m =? 2 ^ 52); lia).
    destruct Hround as [[E H]|[E H]].
    + rewrite E in *.
      set (dl := if m1 =? 2 ^ 52 then 1 else 2) in *.
      replace ((4 * m1 - dl) * b1) with (4 * X - dl * b1) by (unfold X; ring).
      replace ((4 * m1 + 2) * b1) with (4 * X + 2 * b1) by (unfold X; ring).
      assert (0 <= dl * b1) by (apply Z.mul_nonneg_nonneg; lia).
      split; lia.
    + assert (Hne : (Z.pos m =? 2 ^ 52) = false) by (apply Z.eqb_neq; lia).
      rewrite Hne. rewrite E.
      replace ((4 * (m1 + 1) - 2) * b1) with (4 * X + 2 * b1) by (unfold X; ring).
      replace ((4 * (m1 + 1) + 2) * b1) with (4 * X + 6 * b1) by (unfold X; ring).
      split; lia.
Qed.

Lemma located_new_location (q b r : Z) :
  0 <= r < b -> located (shr_record_of_loc q (new_location b r)) r b.
Proof.
  intros Hr. unfold located. split; [exact Hr|].
  unfold new_location, new_location_even, new_location_odd, frac_code.
  destruct (Z.even b) eqn:Eb.
  - destruct (r =? 0); [reflexivity|].
    destruct (2 * r ?= b); reflexivity.
  - destruct (r =? 0); [reflexivity|].
    assert (Hodd : Z.odd b = true) by (rewrite <- Z.negb_even, Eb; reflexivity).
    apply Z.odd_spec in Hodd. destruct Hodd as [c Hc].
    destruct (2 * r + 1 ?= b) eqn:E1.
    + apply Z.compare_eq_iff in E1.
      replace (2 * r ?= b) with Lt by (symmetry; apply Z.compare_lt_iff; lia).
      reflexivity.
    + assert (2 * r + 1 < b) by exact E1.
      replace (2 * r ?= b) with Lt by (symmetry; apply Z.compare_lt_iff; lia).
      reflexivity.
    + apply Z.compare_gt_iff in E1.
      replace (2 * r ?= b) with Gt by (symmetry; apply Z.compare_gt_iff; lia).
      reflexivity.
Qed.

(** The integer division at the heart of [/]: the dividend is scaled by a
    power of two, the quotient keeps the remainder as a location. *)
Lemma SFdiv_core_binary_spec (m1 e1 m2 e2 : Z) :
  0 < m1 -> 0 < m2 ->
  let e' := Z.min (fexp prec emax (Zdigits2 m1 + e1 - (Zdigits2 m2 + e2))) (e1 - e2) in
  exists q r,
    SFdiv_core_binary prec emax m1 e1 m2 e2 = (q, e', new_location m2 r)
    /\ 0 <= r < m2
    /\ m1 * 2 ^ (e1 - e2 - e') = q * m2 + r.
Proof.
  intros H1 H2 e'. unfold SFdiv_core_binary. fold e'.
  assert (Hs : 0 <= e1 - e2 - e') by (unfold e'; lia).
  set (s := e1 - e2 - e') in *.
  assert (Hm' : forall z, 0 <= z ->
                 match z with Z.pos _ => Z.shiftl m1 z | 0 => m1 | Z.neg _ => 0 end
                 = m1 * 2 ^ z).
  { intros z Hz. destruct z as [|p|p]; try lia.
    rewrite Z.shiftl_mul_pow2 by lia. reflexivity. }
  rewrite (Hm' s Hs).
  pose proof (Z_div_mod (m1 * 2 ^ s) m2 ltac:(lia)) as Hdm.
  destruct (Z.div_eucl (m1 * 2 ^ s) m2) as [q r].
  exists q, r. split; [reflexivity|]. split; [lia|]. lia.
Qed.



(** Rounding the quotient by a thousand: [q * b + r] is the scaled
    dividend [N * 2^(-e')] (times [c], when the divisor is scaled by [c]
    too), of 63 bits. *)
Lemma round_thousandth (sx : bool) (q r b e' c N : Z) (lx : location) :
  located (shr_record_of_loc q lx) r b ->
  b = 1000 * c -> 0 < c ->
  q * b + r = N * 2 ^ (- e') * c ->
  2 ^ 62 <= N * 2 ^ (- e') < 2 ^ 63 ->
  -1074 < e' <= -13 ->
  exists m e,
    binary_round_aux prec emax sx q e' lx = S754_finite sx m e
    /\ 2 ^ 52 <= Zpos m < 2 ^ 53
    /\ -1074 < e <= -11
    /\ (4 * Zpos m - (if Zpos m =? 2 ^ 52 then 1 else 2)) * 1000 < N * 2 ^ (2 - e)
    /\ N * 2 ^ (2 - e) < (4 * Zpos m + 2) * 1000.
Proof.
  intros Hloc Hb Hc HM HN He'.
  assert (Hr : 0 <= r < b) by (destruct Hloc as [? _]; assumption).
  set (M := N * 2 ^ (- e')) in *.
  change (2 ^ 62) with 4611686018427387904 in HN.
  change (2 ^ 63) with 9223372036854775808 in HN.
  assert (Hq : 2 ^ 52 <= q < 2 ^ 54).
  { change (2 ^ 52) with 4503599627370496. change (2 ^ 54) with 18014398509481984.
    subst b. split; nia. }
  assert (Hd : Zdigits2 q = 53 \/ Zdigits2 q = 54).
  { destruct (Z_lt_le_dec q (2 ^ 53)).
    - left. apply Zdigits2_unique; lia.
    - right. apply Zdigits2_unique; lia. }
  destruct (binary_round_aux_normal sx q e' r b lx) as (m & e & Hres & Hm & He & Hlo & Hhi);
    try lia; try assumption.
  exists m, e. split; [exact Hres|]. split; [exact Hm|]. split; [lia|].
  set (dl := if Z.pos m =? 2 ^ 52 then 1 else 2) in *.
  assert (Hdl : (dl = 1 /\ Zpos m = 2 ^ 52) \/ dl = 2).
  { unfold dl. destruct (Z.pos m =? 2 ^ 52) eqn:E; [left | right]; auto.
    split; auto. apply Z.eqb_eq. exact E. }
  set (F := 2 ^ (e - e')) in *.
  assert (HF : 0 < F) by (apply Z.pow_pos_nonneg; lia).
  assert (Hpow : 4 * 2 ^ (- e') = 2 ^ (2 - e) * F).
  { unfold F. rewrite <- Z.pow_add_r by lia. change 4 with (2 ^ 2).
    rewrite <- Z.pow_add_r by lia. f_equal. lia. }
  assert (HM4 : 4 * (q * b + r) = N * 2 ^ (2 - e) * (F * c)).
  { rewrite HM. unfold M.
    replace (4 * (N * 2 ^ (- e') * c)) with (N * (4 * 2 ^ (- e')) * c) by ring.
    rewrite Hpow. ring. }
  rewrite HM4 in Hlo, Hhi. subst b.
  assert (HFc : 0 < F * c) by (apply Z.mul_pos_pos; lia).
  replace ((4 * Z.pos m - dl) * (F * (1000 * c)))
    with ((4 * Z.pos m - dl) * 1000 * (F * c)) in Hlo by ring.
  replace ((4 * Z.pos m + 2) * (F * (1000 * c)))
    with ((4 * Z.pos m + 2) * 1000 * (F * c)) in Hhi by ring.
  apply Z.mul_le_mono_pos_r in Hlo; [|exact HFc].
  apply Z.mul_le_mono_pos_r in Hhi; [|exact HFc].
  assert (H32 : 2 ^ (2 - e) = 32 * 2 ^ (- 3 - e)).
  { change 32 with (2 ^ 5). rewrite <- Z.pow_add_r by lia. f_equal. lia. }
  set (P := 2 ^ (- 3 - e)) in *.
  rewrite H32 in *.
  set (X := N * P).
  replace (N * (32 * P)) with (32 * X) in * by (unfold X; ring).
  change (2 ^ 52) with 4503599627370496 in *.
  split.
  - destruct Hdl as [[-> Hm52] | ->]; lia.
  - lia.
Qed.

Lemma int_truediv_1000_rounds (n : Z) :
  0 < Z.abs n < 10 ^ 15 ->
  exists m e,
    int_truediv n 1000 = Ok (S754_finite (n <? 0) m e)
    /\ rounds_thousandth (Z.abs n) m e.
Proof.
  intros Hn. unfold int_truediv.
  change (1000 =? 0) with false. cbv iota.
  replace (n =? 0) with false by (symmetry; apply Z.eqb_neq; lia).
  change (1000 <? 0) with false. rewrite xorb_false_r.
  change (Z.abs 1000) with 1000.
  set (N := Z.abs n) in *.
  pose proof (Zdigits2_lower N ltac:(lia)) as Hlo.
  pose proof (Zdigits2_lt_pow N ltac:(lia)) as Hhi.
  assert (Hd : 1 <= Zdigits2 N <= 50).
  { split.
    - destruct N; simpl; lia.
    - apply Zdigits2_le; try lia. }
  set (d := Zdigits2 N) in *.
  destruct (SFdiv_core_binary_spec N 0 1000 0) as (q & r & Hcore & Hr & HM); try lia.
  fold d in Hcore, HM. change (Zdigits2 1000) with 10 in Hcore, HM.
  replace (Z.min (fexp prec emax (d + 0 - (10 + 0))) (0 - 0)) with (d - 63) in Hcore, HM
    by (unfold fexp, emin, prec, emax; lia).
  rewrite Hcore.
  replace (0 - 0 - (d - 63)) with (- (d - 63)) in HM by lia.
  assert (Hp1 : 2 ^ 62 = 2 ^ (d - 1) * 2 ^ (- (d - 63))).
  { rewrite <- Z.pow_add_r by lia. f_equal. lia. }
  assert (Hp2 : 2 ^ 63 = 2 ^ d * 2 ^ (- (d - 63))).
  { rewrite <- Z.pow_add_r by lia. f_equal. lia. }
  assert (HK : 0 < 2 ^ (- (d - 63))) by (apply Z.pow_pos_nonneg; lia).
  destruct (round_thousandth (n <? 0) q r 1000 (d - 63) 1 N (new_location 1000 r))
    as (m & e & Hres & Hrounds); try lia.
  - apply located_new_location. exact Hr.
  - rewrite Hp1, Hp2. split.
    + apply Z.mul_le_mono_nonneg_r; lia.
    + apply Z.mul_lt_mono_pos_r; lia.
  - exists m, e. rewrite Hres. split; [reflexivity | exact Hrounds].
Qed.

Lemma float_of_Z_1000 : float_of_Z 1000 = S754_finite false 8796093022208000 (-43).
Proof. reflexivity. Qed.

Lemma float_truediv_1000_rounds (s : bool) (mx : positive) (ex n : Z) :
  bounded prec emax mx ex = true ->
  float_eq_Z (S754_finite s mx ex) n = true ->
  0 < Z.abs n < 10 ^ 15 ->
  exists m e,
    float_truediv (S754_finite s mx ex) (float_of_Z 1000)
    = Ok (S754_finite (n <? 0) m e)
    /\ rounds_thousandth (Z.abs n) m e.
Proof.
  intros Hb Heq Hn. rewrite float_of_Z_1000.
  unfold bounded, canonical_mantissa in Hb.
  apply andb_prop in Hb as [Hcan Hexp].
  apply Z.eqb_eq in Hcan. apply Z.leb_le in Hexp.
  change (Z.pos (digits2_pos mx)) with (Zdigits2 (Zpos mx)) in Hcan.
  pose proof (Zdigits2_lower (Zpos mx) ltac:(lia)) as Hlo.
  pose proof (Zdigits2_lt_pow (Zpos mx) ltac:(lia)) as Hhi.
  set (d := Zdigits2 (Zpos mx)) in *.
  assert (Hdpos : 1 <= d) by (unfold d; simpl; lia).
  change (10 ^ 15) with 1000000000000000 in Hn.
  cbn [float_eq_Z] in Heq.
  assert (Hex : ex < 0).
  { destruct (0 <=? ex) eqn:E; [|apply Z.leb_gt in E; exact E].
    exfalso. apply Z.leb_le in E. apply Z.eqb_eq in Heq.
    assert (d = 53) by (unfold fexp, emin, prec, emax in Hcan; lia).
    assert (Hmx : 2 ^ 52 <= Zpos mx) by (replace 52 with (d - 1) by lia; exact Hlo).
    change (2 ^ 52) with 4503599627370496 in Hmx.
    assert (1 <= 2 ^ ex) by (pose proof (Z.pow_pos_nonneg 2 ex); lia).
    destruct s; nia. }
  replace (0 <=? ex) with false in Heq by (symmetry; apply Z.leb_gt; exact Hex).
  apply Z.eqb_eq in Heq.
  assert (HK : 1 <= 2 ^ (- ex)) by (pose proof (Z.pow_pos_nonneg 2 (- ex)); lia).
  assert (Hsign : s = (n <? 0) /\ Z.abs n * 2 ^ (- ex) = Zpos mx).
  { destruct s.
    - split; [symmetry; apply Z.ltb_lt; nia | nia].
    - split; [symmetry; apply Z.ltb_ge; nia | nia]. }
  destruct Hsign as [Hs HN].
  set (N := Z.abs n) in *.
  assert (Hd : d = 53).
  { unfold fexp, emin, prec, emax in Hcan.
    destruct (Z.eq_dec ex (-1074)) as [E|E]; [|lia].
    exfalso. assert (d <= 53) by lia.
    assert (Zpos mx < 2 ^ 53).
    { eapply Z.lt_le_trans; [exact Hhi|]. apply Z.pow_le_mono_r; lia. }
    assert (2 ^ 53 <= 2 ^ (- ex)) by (apply Z.pow_le_mono_r; lia).
    nia. }
  rewrite Hd in Hlo, Hhi. change (53 - 1) with 52 in Hlo.
  assert (Hexr : -52 <= ex <= -3).
  { split.
    - destruct (Z_lt_le_dec ex (-52)) as [E|E]; [|exact E]. exfalso.
      assert (2 ^ 53 <= 2 ^ (- ex)) by (apply Z.pow_le_mono_r; lia). nia.
    - destruct (Z_lt_le_dec (-3) ex) as [E|E]; [|exact E]. exfalso.
      assert (2 ^ (- ex) <= 2 ^ 2) by (apply Z.pow_le_mono_r; lia).
      change (2 ^ 2) with 4 in *. change (2 ^ 52) with 4503599627370496 in Hlo. nia. }
  unfold float_truediv, SFdiv. rewrite xorb_false_r.
  destruct (SFdiv_core_binary_spec (Zpos mx) ex 8796093022208000 (-43))
    as (q & r & Hcore & Hr & HM); try lia.
  fold d in Hcore, HM. rewrite Hd in Hcore, HM.
  change (Zdigits2 8796093022208000) with 53 in Hcore, HM.
  replace (Z.min (fexp prec emax (53 + ex - (53 + -43))) (ex - -43)) with (ex - 10)
    in Hcore, HM by (unfold fexp, emin, prec, emax; lia).
  rewrite Hcore.
  replace (ex - -43 - (ex - 10)) with 53 in HM by lia.
  assert (Hpw : 2 ^ (- (ex - 10)) = 2 ^ (- ex) * 2 ^ 10).
  { rewrite <- Z.pow_add_r by lia. f_equal. lia. }
  destruct (round_thousandth s q r 8796093022208000 (ex - 10) (2 ^ 43) N
              (new_location 8796093022208000 r))
    as (m & e & Hres & Hrounds); try lia.
  - apply located_new_location. exact Hr.
  - exists m, e. rewrite Hres, <- Hs. split; [reflexivity | exact Hrounds].
Qed.

(** *** The decimal point and the search for the shortest digits *)

Lemma pow10_pos (z : Z) : 0 <= z -> 0 < 10 ^ z.
Proof. intros H. apply Z.pow_pos_nonneg; lia. Qed.

Lemma pow10_le (a b : Z) : 0 <= a <= b -> 10 ^ a <= 10 ^ b.
Proof. intros H. apply Z.pow_le_mono_r; lia. Qed.

Lemma pow10_split (a b : Z) : 0 <= a -> 0 <= b -> 10 ^ (a + b) = 10 ^ a * 10 ^ b.
Proof. intros. apply Z.pow_add_r; lia. Qed.

Lemma pow10_step (a : Z) : 0 <= a -> 10 ^ (a + 1) = 10 * 10 ^ a.
Proof. intros. rewrite Z.pow_add_r by lia. change (10 ^ 1) with 10. ring. Qed.

Lemma decpt_above_spec (fuel : nat) (p0 n d : Z) :
  0 < d -> 1 <= p0 -> 10 ^ (p0 - 1) * d <= n ->
  (exists pm, n < 10 ^ pm * d /\ pm < p0 + Z.of_nat fuel) ->
  p0 <= decpt_above fuel p0 n d
  /\ 10 ^ (decpt_above fuel p0 n d - 1) * d <= n
  /\ n < 10 ^ decpt_above fuel p0 n d * d.
Proof.
  intros Hd. revert p0. induction fuel as [|f IH]; intros p0 Hp0 Hlow (pm & Hpm & Hlt).
  - exfalso.
    assert (0 < 10 ^ (p0 - 1)) by (apply pow10_pos; lia).
    destruct (Z_lt_le_dec pm 0) as [Hneg | Hnn].
    + rewrite Z.pow_neg_r in Hpm by lia. nia.
    + assert (10 ^ pm <= 10 ^ (p0 - 1)) by (apply pow10_le; lia). nia.
  - cbn [decpt_above]. destruct (n <? 10 ^ p0 * d) eqn:E.
    + apply Z.ltb_lt in E. repeat split; try lia.
    + apply Z.ltb_ge in E.
      assert (Ha : 10 ^ (p0 + 1 - 1) * d <= n)
        by (replace (p0 + 1 - 1) with p0 by lia; exact E).
      assert (Hb : exists pm, n < 10 ^ pm * d /\ pm < p0 + 1 + Z.of_nat f)
        by (exists pm; split; [exact Hpm | lia]).
      destruct (IH (p0 + 1) ltac:(lia) Ha Hb) as (H1 & H2 & H3).
      repeat split; try lia.
Qed.

Lemma decpt_below_spec (fuel : nat) (k0 n d : Z) :
  0 < n -> 0 <= k0 -> 10 ^ k0 * n < d ->
  (exists km, d <= 10 ^ (km + 1) * n /\ km < k0 + Z.of_nat fuel) ->
  exists k, decpt_below fuel k0 n d = - k /\ k0 <= k
            /\ d <= 10 ^ (k + 1) * n /\ 10 ^ k * n < d.
Proof.
  intros Hn. revert k0. induction fuel as [|f IH]; intros k0 Hk0 Hlow (km & Hkm & Hlt).
  - exfalso.
    assert (0 < 10 ^ k0) by (apply pow10_pos; lia).
    destruct (Z_lt_le_dec (km + 1) 0) as [Hneg | Hnn].
    + rewrite Z.pow_neg_r in Hkm by lia. nia.
    + assert (10 ^ (km + 1) <= 10 ^ k0) by (apply pow10_le; lia). nia.
  - cbn [decpt_below]. destruct (d <=? 10 ^ (k0 + 1) * n) eqn:E.
    + apply Z.leb_le in E. exists k0. repeat split; try lia.
    + apply Z.leb_gt in E.
      assert (Hb : exists km, d <= 10 ^ (km + 1) * n /\ km < k0 + 1 + Z.of_nat f)
        by (exists km; split; [exact Hkm | lia]).
      destruct (IH (k0 + 1) ltac:(lia) E Hb) as (k & H1 & H2 & H3 & H4).
      exists k. repeat split; try lia.
Qed.

(** The decimal point of [n / d], with both bounds scaled by [10^20]. *)
Lemma decimal_point_spec (n d : Z) :
  0 < n -> 0 < d ->
  n < 10 ^ 13 * d -> d <= 10 ^ 19 * n ->
  let p := decimal_point n d in
  -18 <= p <= 13
  /\ 10 ^ (19 + p) * d <= n * 10 ^ 20
  /\ n * 10 ^ 20 < 10 ^ (20 + p) * d.
Proof.
  intros Hn Hd Hup Hdown. unfold decimal_point.
  destruct (d <=? n) eqn:E.
  - apply Z.leb_le in E.
    assert (Hb : exists pm, n < 10 ^ pm * d /\ pm < 1 + Z.of_nat 400)
      by (exists 13; split; [exact Hup | lia]).
    assert (Ha : 10 ^ (1 - 1) * d <= n) by (change (10 ^ (1 - 1)) with 1; lia).
    destruct (decpt_above_spec 400 1 n d Hd ltac:(lia) Ha Hb) as (H1 & H2 & H3).
    + set (p := decpt_above 400 1 n d) in *. cbv zeta.
      assert (Hp : p <= 13).
      { destruct (Z_lt_le_dec 13 p) as [Hgt|]; [|lia]. exfalso.
        assert (10 ^ 13 <= 10 ^ (p - 1)) by (apply pow10_le; lia). nia. }
      split; [lia|].
      replace (19 + p) with (p - 1 + 20) by lia.
      replace (20 + p) with (p + 20) by lia.
      rewrite !pow10_split by lia.
      assert (0 < 10 ^ 20) by (apply pow10_pos; lia).
      split; nia.
  - apply Z.leb_gt in E.
    assert (Hb : exists km, d <= 10 ^ (km + 1) * n /\ km < 0 + Z.of_nat 400)
      by (exists 18; split; [exact Hdown | lia]).
    assert (Ha : 10 ^ 0 * n < d) by (change (10 ^ 0) with 1; lia).
    destruct (decpt_below_spec 400 0 n d Hn ltac:(lia) Ha Hb) as (k & H0 & H1 & H2 & H3).
    + rewrite H0. cbv zeta.
      assert (Hk : k <= 18).
      { destruct (Z_lt_le_dec 18 k) as [Hgt|]; [|lia]. exfalso.
        assert (10 ^ 19 <= 10 ^ k) by (apply pow10_le; lia). nia. }
      split; [lia|].
      assert (Hs1 : 10 ^ 20 = 10 ^ (19 + - k) * 10 ^ (k + 1)).
      { rewrite <- pow10_split by lia. f_equal. lia. }
      assert (Hs2 : 10 ^ 20 = 10 ^ (20 + - k) * 10 ^ k).
      { rewrite <- pow10_split by lia. f_equal. lia. }
      assert (0 < 10 ^ (19 + - k)) by (apply pow10_pos; lia).
      assert (0 < 10 ^ (20 + - k)) by (apply pow10_pos; lia).
      split.
      * rewrite Hs1. nia.
      * rewrite Hs2. nia.
Qed.

Lemma in_interval_true (closed : bool) (lo hi c : Z) :
  lo < c < hi -> in_interval closed lo hi c = true.
Proof.
  intros H. unfold in_interval. destruct closed.
  - apply andb_true_intro. split; apply Z.leb_le; lia.
  - apply andb_true_intro. split; apply Z.ltb_lt; lia.
Qed.

Lemma in_interval_le (closed : bool) (lo hi c : Z) :
  in_interval closed lo hi c = true -> lo <= c <= hi.
Proof.
  unfold in_interval. destruct closed; intros H; apply andb_prop in H as [H1 H2].
  - apply Z.leb_le in H1, H2. lia.
  - apply Z.ltb_lt in H1, H2. lia.
Qed.

Lemma in_interval_false (closed : bool) (lo hi c : Z) :
  ~ (lo <= c <= hi) -> in_interval closed lo hi c = false.
Proof.
  intros H. destruct (in_interval closed lo hi c) eqn:E; [|reflexivity].
  apply in_interval_le in E. contradiction.
Qed.

(** [digits_at] when exactly one [k]-digit decimal lies in the rounding
    interval; the comparisons are taken up to a common positive factor. *)
Lemma digits_at_some (closed : bool) (iv : dyadic) (p k c0 F : Z) :
  0 < F -> 0 < den iv -> num_lo iv <= num_x iv <= num_hi iv ->
  let up := 10 ^ Z.max 0 (k - p) in
  let down := den iv * 10 ^ Z.max 0 (p - k) in
  num_lo iv * up * F < c0 * down * F < num_hi iv * up * F ->
  (forall c, num_lo iv * up * F <= c * down * F <= num_hi iv * up * F -> c = c0) ->
  digits_at closed iv p k = Some c0.
Proof.
  intros HF Hden Hx up down Hin Huniq.
  assert (Hup : 0 < up) by (apply pow10_pos; lia).
  assert (Hdown : 0 < down).
  { apply Z.mul_pos_pos; [exact Hden | apply pow10_pos; lia]. }
  unfold digits_at. fold up. fold down.
  set (x := num_x iv * up).
  set (c1 := x / down).
  assert (Hc1 : c1 * down <= x < (c1 + 1) * down).
  { pose proof (Z.div_mod x down ltac:(lia)) as Hdm.
    pose proof (Z.mod_pos_bound x down Hdown) as Hmb.
    fold c1 in Hdm. lia. }
  assert (Hxlo : num_lo iv * up <= x) by (unfold x; nia).
  assert (Hxhi : x <= num_hi iv * up) by (unfold x; nia).
  assert (Hin' : num_lo iv * up < c0 * down < num_hi iv * up) by nia.
  assert (Huniq' : forall c, num_lo iv * up <= c * down <= num_hi iv * up -> c = c0).
  { intros c Hc. apply Huniq. nia. }
  assert (Hcase : c0 = c1 \/ c0 = c1 + 1).
  { destruct (Z_lt_le_dec c0 c1) as [Hlt|Hge].
    - exfalso. assert (c1 = c0); [|lia]. apply Huniq'. nia.
    - destruct (Z_lt_le_dec (c1 + 1) c0) as [Hgt|Hle]; [|lia].
      exfalso. assert (c1 + 1 = c0); [|lia]. apply Huniq'. nia. }
  destruct Hcase as [E | E].
  - rewrite <- E. rewrite (in_interval_true closed _ _ (c0 * down)) by exact Hin'.
    rewrite (in_interval_false closed _ _ ((c0 + 1) * down)); [reflexivity|].
    intros Hc. apply Huniq' in Hc. lia.
  - rewrite <- E. rewrite (in_interval_true closed _ _ (c0 * down)) by exact Hin'.
    rewrite (in_interval_false closed _ _ (c1 * down)); [reflexivity|].
    intros Hc. apply Huniq' in Hc. lia.
Qed.

Lemma digits_at_none (closed : bool) (iv : dyadic) (p k F : Z) :
  0 < F ->
  let up := 10 ^ Z.max 0 (k - p) in
  let down := den iv * 10 ^ Z.max 0 (p - k) in
  (forall c, ~ (num_lo iv * up * F <= c * down * F <= num_hi iv * up * F)) ->
  digits_at closed iv p k = None.
Proof.
  intros HF up down Hnone. unfold digits_at. fold up. fold down.
  rewrite !in_interval_false; [reflexivity | |].
  - intros H. apply (Hnone (num_x iv * up / down + 1)). nia.
  - intros H. apply (Hnone (num_x iv * up / down)). nia.
Qed.

Lemma shortest_from_first (fuel : nat) (closed : bool) (iv : dyadic) (p k k' c : Z) :
  k <= k' < k + Z.of_nat fuel ->
  (forall i, k <= i < k' -> digits_at closed iv p i = None) ->
  digits_at closed iv p k' = Some c ->
  shortest_from fuel closed iv p k = (c, k').
Proof.
  revert k. induction fuel as [|f IH]; intros k Hk Hnone Hsome; [lia|].
  cbn [shortest_from].
  destruct (Z.eq_dec k k') as [->|Hne].
  - rewrite Hsome. reflexivity.
  - rewrite Hnone by lia. apply IH; try lia.
    + intros i Hi. apply Hnone. lia.
    + exact Hsome.
Qed.

Lemma rounding_interval_normal (m : positive) (e : Z) :
  -1074 < e <= -11 ->
  rounding_interval m e
  = {| num_lo := 4 * Zpos m - (if Zpos m =? 2 ^ 52 then 1 else 2);
       num_x := 4 * Zpos m;
       num_hi := 4 * Zpos m + 2;
       den := 2 ^ (2 - e) |}.
Proof.
  intros He. unfold rounding_interval.
  replace (0 <=? e - 2) with false by (symmetry; apply Z.leb_gt; lia).
  change (prec - 1) with 52. change (emin prec emax) with (-1074).
  replace (-1074 <? e) with true by (symmetry; apply Z.ltb_lt; lia).
  rewrite andb_true_r.
  replace (- (e - 2)) with (2 - e) by lia.
  destruct (Z.pos m =? 2 ^ 52); reflexivity.
Qed.

(** Scaling the two sides of the comparisons of [digits_at] to the common
    unit [10^-20]. *)
Lemma grid_scale (p k : Z) :
  -20 <= p - k <= 20 ->
  let F := 10 ^ (20 - Z.max 0 (k - p)) in
  0 < F
  /\ 10 ^ Z.max 0 (k - p) * F = 10 ^ 20
  /\ 10 ^ Z.max 0 (p - k) * F = 10 ^ (20 + p - k).
Proof.
  intros H F. unfold F. split; [apply pow10_pos; lia|].
  split; rewrite <- pow10_split by lia; f_equal; lia.
Qed.

Lemma small_multiple (z G : Z) : 0 < G -> - G < z * G < G -> z = 0.
Proof.
  intros HG H. destruct (Z.eq_dec z 0) as [|Hne]; [assumption|]. exfalso.
  assert (Hz : 1 <= z \/ z <= -1) by lia.
  destruct Hz; nia.
Qed.

Lemma multiple_of_ten (c g : Z) : 1 <= g -> (c * 10 ^ g) mod 10 = 0.
Proof.
  intros Hg. replace g with (g - 1 + 1) by lia. rewrite pow10_step by lia.
  replace (c * (10 * 10 ^ (g - 1))) with (c * 10 ^ (g - 1) * 10) by ring.
  apply Z.mod_mul. lia.
Qed.

Section ThousandthDigits.

Variables (N : Z) (m : positive) (e : Z) (cd j kd : Z).
Hypothesis Hround : rounds_thousandth N m e.
Hypothesis HNb : 0 < N < 10 ^ 15.
Hypothesis HN : N = cd * 10 ^ j.
Hypothesis Hj : 0 <= j.
Hypothesis Hcd : cd mod 10 <> 0.
Hypothesis Hkd1 : 1 <= kd.
Hypothesis Hkd : 10 ^ (kd - 1) <= cd < 10 ^ kd.

Local Abbreviation Dn := (2 ^ (2 - e)).
Local Abbreviation lo := (4 * Zpos m - (if Zpos m =? 2 ^ 52 then 1 else 2)).
Local Abbreviation hi := (4 * Zpos m + 2).
Local Abbreviation S20 := 100000000000000000000.

Lemma td_basic :
  0 < Dn /\ 0 < cd /\ kd + j <= 15 /\ 0 < 10 ^ j
  /\ 2 ^ 54 - 2 <= lo /\ lo < 4 * Zpos m /\ 4 * Zpos m - 2 <= lo.
Proof.
  destruct Hround as (Hm & He & Hlo & Hhi).
  assert (0 < Dn) by (apply Z.pow_pos_nonneg; lia).
  assert (H10j : 0 < 10 ^ j) by (apply pow10_pos; lia).
  assert (0 < 10 ^ (kd - 1)) by (apply pow10_pos; lia).
  assert (0 < cd) by lia.
  split; [assumption|]. split; [assumption|]. split.
  - assert (Hlt : 10 ^ (kd - 1 + j) < 10 ^ 15).
    { rewrite pow10_split by lia. nia. }
    apply Z.pow_lt_mono_r_iff in Hlt; lia.
  - split; [assumption|].
    change (2 ^ 54) with 18014398509481984. change (2 ^ 52) with 4503599627370496 in *.
    destruct (Z.pos m =? 4503599627370496); lia.
Qed.

Lemma td_separation : 18014 < Dn * 10 ^ j.
Proof.
  destruct td_basic as (HD & Hc & Hkj & H10 & Hlo54 & _).
  destruct Hround as (Hm & He & Hlo & Hhi).
  change (10 ^ 15) with 1000000000000000 in HNb.
  change (2 ^ 54) with 18014398509481984 in Hlo54.
  set (A := Dn * 10 ^ j).
  assert (HA : N * Dn = cd * A) by (unfold A; rewrite HN; ring).
  rewrite HA in Hlo.
  assert (cd < 1000000000000000) by nia.
  destruct (Z_lt_le_dec 18014 A) as [|Hle]; [assumption|].
  exfalso. assert (cd * A <= cd * 18014) by (apply Z.mul_le_mono_nonneg_l; lia).
  nia.
Qed.

Local Abbreviation U := (Dn * 10 ^ (17 + j)).

Lemma td_unit : 1801400000000000000000 < U /\ U = Dn * 10 ^ j * 10 ^ 17.
Proof.
  pose proof td_separation as Hsep.
  assert (HU : U = Dn * 10 ^ j * 10 ^ 17).
  { replace (17 + j) with (j + 17) by lia. rewrite pow10_split by lia. ring. }
  split; [|exact HU]. rewrite HU.
  change (10 ^ 17) with 100000000000000000. lia.
Qed.

Lemma td_scaled : lo * S20 < cd * U /\ cd * U < hi * S20.
Proof.
  destruct Hround as (Hm & He & Hlo & Hhi).
  destruct td_unit as [_ HU]. rewrite HU.
  replace (cd * (Dn * 10 ^ j * 10 ^ 17)) with (N * Dn * 10 ^ 17) by (rewrite HN; ring).
  change (10 ^ 17) with 100000000000000000. lia.
Qed.

Lemma td_level_some (closed : bool) (p k c0 : Z) :
  -20 <= p - k <= 20 ->
  c0 * (Dn * 10 ^ (20 + p - k)) = cd * U ->
  4 * S20 < Dn * 10 ^ (20 + p - k) ->
  digits_at closed (rounding_interval m e) p k = Some c0.
Proof.
  intros Hpk Hgrid Hwide.
  destruct td_basic as (HD & Hc & Hkj & H10 & Hlo54 & Hlo1 & Hlo2).
  destruct td_scaled as [Hs1 Hs2].
  destruct (grid_scale p k Hpk) as (HF & Hup & Hdown).
  assert (He : -1074 < e <= -11) by (destruct Hround as (_ & He & _); exact He).
  rewrite (rounding_interval_normal m e He).
  set (F := 10 ^ (20 - Z.max 0 (k - p))) in *.
  set (G := Dn * 10 ^ (20 + p - k)) in *.
  change (10 ^ 20) with S20 in Hup.
  apply (digits_at_some closed _ p k c0 F); cbn [num_lo num_x num_hi den]; try lia.
  - replace (lo * 10 ^ Z.max 0 (k - p) * F) with (lo * (10 ^ Z.max 0 (k - p) * F)) by ring.
    replace (hi * 10 ^ Z.max 0 (k - p) * F) with (hi * (10 ^ Z.max 0 (k - p) * F)) by ring.
    replace (c0 * (Dn * 10 ^ Z.max 0 (p - k)) * F)
      with (c0 * (Dn * (10 ^ Z.max 0 (p - k) * F))) by ring.
    rewrite Hup, Hdown. fold G. rewrite Hgrid. lia.
  - intros c.
    replace (lo * 10 ^ Z.max 0 (k - p) * F) with (lo * (10 ^ Z.max 0 (k - p) * F)) by ring.
    replace (hi * 10 ^ Z.max 0 (k - p) * F) with (hi * (10 ^ Z.max 0 (k - p) * F)) by ring.
    replace (c * (Dn * 10 ^ Z.max 0 (p - k)) * F)
      with (c * (Dn * (10 ^ Z.max 0 (p - k) * F))) by ring.
    rewrite Hup, Hdown. fold G. intros Hin.
    assert (Hd : (c - c0) * G = c * G - cd * U) by (rewrite <- Hgrid; ring).
    assert (Hsm : - G < (c - c0) * G < G) by lia.
    apply small_multiple in Hsm; lia.
Qed.

Lemma td_level_none (closed : bool) (p k g : Z) :
  -20 <= p - k <= 20 ->
  1 <= g -> 20 + p - k = 17 + j + g ->
  digits_at closed (rounding_interval m e) p k = None.
Proof.
  intros Hpk Hg Hgrid.
  destruct td_basic as (HD & Hc & Hkj & H10 & Hlo54 & Hlo1 & Hlo2).
  destruct td_scaled as [Hs1 Hs2].
  destruct td_unit as [HU _].
  destruct (grid_scale p k Hpk) as (HF & Hup & Hdown).
  assert (He : -1074 < e <= -11) by (destruct Hround as (_ & He & _); exact He).
  rewrite (rounding_interval_normal m e He).
  set (F := 10 ^ (20 - Z.max 0 (k - p))) in *.
  change (10 ^ 20) with S20 in Hup.
  apply (digits_at_none closed _ p k F); cbn [num_lo num_x num_hi den]; [exact HF|].
  intros c.
  replace (lo * 10 ^ Z.max 0 (k - p) * F) with (lo * (10 ^ Z.max 0 (k - p) * F)) by ring.
  replace (hi * 10 ^ Z.max 0 (k - p) * F) with (hi * (10 ^ Z.max 0 (k - p) * F)) by ring.
  replace (c * (Dn * 10 ^ Z.max 0 (p - k)) * F)
    with (c * (Dn * (10 ^ Z.max 0 (p - k) * F))) by ring.
  rewrite Hup, Hdown, Hgrid.
  rewrite (pow10_split (17 + j) g) by lia.
  replace (c * (Dn * (10 ^ (17 + j) * 10 ^ g))) with (c * 10 ^ g * U) by ring.
  intros Hin.
  assert (Hd : - U < (c * 10 ^ g - cd) * U < U) by lia.
  assert (Heq : c * 10 ^ g = cd) by (apply small_multiple in Hd; lia).
  apply Hcd. rewrite <- Heq. apply multiple_of_ten. exact Hg.
Qed.

Lemma td_point :
  let p := decimal_point (4 * Zpos m) Dn in
  p = kd + j - 3 \/ (p = kd + j - 4 /\ cd = 1 /\ kd = 1).
Proof.
  destruct td_basic as (HD & Hc & Hkj & H10 & Hlo54 & Hlo1 & Hlo2).
  destruct td_scaled as [Hs1 Hs2].
  destruct td_unit as [HU HUeq].
  assert (Hr : (4 * Zpos m - 2) * 1000 < N * Dn /\ N * Dn < hi * 1000).
  { destruct Hround as (_ & _ & Hlo & Hhi). split; lia. }
  destruct Hr as [Hr1 Hr2].
  change (10 ^ 15) with 1000000000000000 in HNb.
  destruct (decimal_point_spec (4 * Zpos m) Dn) as (Hp & Hp1 & Hp2); try lia.
  { change (10 ^ 13) with 10000000000000. nia. }
  { change (10 ^ 19) with 10000000000000000000. nia. }
  set (p := decimal_point (4 * Zpos m) Dn) in *. cbv zeta.
  change (10 ^ 20) with S20 in Hp1, Hp2.
  set (P := kd + j - 3).
  assert (HP1 : 10 ^ (19 + P) * Dn = 10 ^ (kd - 1) * U).
  { replace (19 + P) with (kd - 1 + (17 + j)) by (unfold P; lia).
    rewrite pow10_split by lia. ring. }
  assert (HP2 : 10 ^ (20 + P) * Dn = 10 ^ kd * U).
  { replace (20 + P) with (kd + (17 + j)) by (unfold P; lia).
    rewrite pow10_split by lia. ring. }
  assert (HUpos : 0 < U) by lia.
  assert (Hlow : 10 ^ (kd - 1) * U <= cd * U) by (apply Z.mul_le_mono_nonneg_r; lia).
  assert (Hupp : cd * U <= (10 ^ kd - 1) * U) by (apply Z.mul_le_mono_nonneg_r; lia).
  assert (Hle : p <= P).
  { destruct (Z_lt_le_dec P p) as [Hgt|]; [|lia]. exfalso.
    assert (10 ^ (20 + P) <= 10 ^ (19 + p)) by (apply pow10_le; unfold P; lia).
    assert (10 ^ (20 + P) * Dn <= 10 ^ (19 + p) * Dn) by (apply Z.mul_le_mono_nonneg_r; lia).
    lia. }
  assert (Hge : P - 1 <= p).
  { destruct (Z_lt_le_dec p (P - 1)) as [Hlt|]; [|lia]. exfalso.
    assert (10 ^ (20 + p) <= 10 ^ (18 + P)) by (apply pow10_le; lia).
    assert (10 ^ (20 + p) * Dn <= 10 ^ (18 + P) * Dn) by (apply Z.mul_le_mono_nonneg_r; lia).
    assert (H19 : 10 ^ (19 + P) = 10 * 10 ^ (18 + P)).
    { replace (19 + P) with (18 + P + 1) by lia. apply pow10_step. unfold P. lia. }
    assert (10 ^ (16 + j) <= 10 ^ (18 + P)) by (apply pow10_le; unfold P; lia).
    assert (10 ^ (16 + j) * Dn <= 10 ^ (18 + P) * Dn) by (apply Z.mul_le_mono_nonneg_r; lia).
    assert (HU16 : U = 10 * (10 ^ (16 + j) * Dn)).
    { replace (17 + j) with (16 + j + 1) by lia. rewrite pow10_step by lia. ring. }
    rewrite H19 in HP1. lia. }
  destruct (Z.eq_dec p P) as [E | Hne]; [left; exact E | right].
  assert (E : p = P - 1) by lia.
  assert (Hcd1 : cd = 10 ^ (kd - 1)).
  { destruct (Z.eq_dec cd (10 ^ (kd - 1))) as [|Hn]; [assumption|]. exfalso.
    assert (10 ^ (kd - 1) + 1 <= cd) by lia.
    assert ((10 ^ (kd - 1) + 1) * U <= cd * U) by (apply Z.mul_le_mono_nonneg_r; lia).
    replace (20 + p) with (19 + P) in Hp2 by lia. lia. }
  assert (Hk1 : kd = 1).
  { destruct (Z.eq_dec kd 1) as [|Hn]; [assumption|]. exfalso.
    apply Hcd. rewrite Hcd1.
    replace (10 ^ (kd - 1)) with (1 * 10 ^ (kd - 1)) by ring.
    apply multiple_of_ten. lia. }
  split; [unfold P in E; lia|]. split; [|exact Hk1].
  rewrite Hcd1, Hk1. reflexivity.
Qed.

Lemma td_shortest : shortest_digits m e = (cd, kd, kd + j - 3).
Proof.
  destruct td_basic as (HD & Hc & Hkj & H10 & Hlo54 & Hlo1 & Hlo2).
  destruct td_unit as [HU HUeq].
  assert (He : -1074 < e <= -11) by (destruct Hround as (_ & He & _); exact He).
  pose proof td_point as Hp. cbv zeta in Hp.
  unfold shortest_digits. cbv zeta.
  assert (Hx : num_x (rounding_interval m e) = 4 * Zpos m)
    by (rewrite (rounding_interval_normal m e He); reflexivity).
  assert (Hden : den (rounding_interval m e) = Dn)
    by (rewrite (rounding_interval_normal m e He); reflexivity).
  rewrite Hx, Hden.
  set (p := decimal_point (4 * Zpos m) Dn) in *.
  destruct Hp as [Hp | (Hp & Hc1 & Hk1)].
  - (* the digits start where those of the value do *)
    assert (Hsf : shortest_from 17 (Z.even (Z.pos m)) (rounding_interval m e) p 1
                  = (cd, kd)).
    { apply shortest_from_first; [lia | |].
      - intros i Hi. apply (td_level_none _ p i (kd - i)); lia.
      - apply td_level_some; try lia.
        + replace (20 + p - kd) with (17 + j) by lia. reflexivity.
        + replace (20 + p - kd) with (17 + j) by lia. lia. }
    rewrite Hsf.
    replace (cd =? 10 ^ kd) with false by (symmetry; apply Z.eqb_neq; lia).
    cbn [trim_zeros].
    replace (cd mod 10 =? 0) with false by (symmetry; apply Z.eqb_neq; exact Hcd).
    cbn [andb]. f_equal. lia.
  - (* the value is a power of ten and the number lies just below it *)
    assert (HG : U = 10 * (Dn * 10 ^ (16 + j))).
    { replace (17 + j) with (16 + j + 1) by lia. rewrite pow10_step by lia. ring. }
    assert (Hsf : shortest_from 17 (Z.even (Z.pos m)) (rounding_interval m e) p 1
                  = (10, 1)).
    { apply shortest_from_first; [lia | intros i Hi; lia |].
      apply td_level_some; try lia.
      - replace (20 + p - 1) with (16 + j) by lia. rewrite HG, Hc1. ring.
      - replace (20 + p - 1) with (16 + j) by lia.
        destruct Hround as (_ & _ & Hlo & _). rewrite HN, Hc1 in Hlo.
        replace (16 + j) with (j + 16) by lia. rewrite pow10_split by lia.
        change (10 ^ 16) with 10000000000000000.
        change (2 ^ 54) with 18014398509481984 in Hlo54. nia. }
    rewrite Hsf. change (10 =? 10 ^ 1) with true. cbv iota.
    change (trim_zeros 18 10 (1 + 1)) with (1, 1). cbv iota beta.
    rewrite Hc1, Hk1. f_equal. lia.
Qed.

End ThousandthDigits.

(** *** Reading the text back *)

Lemma digit_value_char (d : Z) : 0 <= d <= 9 -> digit_value (digit_char d) = Some d.
Proof.
  intros H.
  assert (Hd : d = 0 \/ d = 1 \/ d = 2 \/ d = 3 \/ d = 4 \/ d = 5 \/ d = 6 \/ d = 7
               \/ d = 8 \/ d = 9) by lia.
  repeat (destruct Hd as [-> | Hd]; [reflexivity|]). subst d. reflexivity.
Qed.

Lemma read_digits_digit_string (k : nat) (c : Z) (rest : string) (acc cnt : Z) :
  read_digits (digit_string k c ++ rest) acc cnt
  = read_digits rest (acc * 10 ^ Z.of_nat k + c mod 10 ^ Z.of_nat k) (cnt + Z.of_nat k).
Proof.
  revert acc cnt. induction k as [|k IH]; intros acc cnt.
  - cbn [digit_string append]. change (10 ^ Z.of_nat 0) with 1.
    rewrite Z.mod_1_r. f_equal; [lia | simpl; lia].
  - cbn [digit_string append read_digits].
    assert (Hk : 0 < 10 ^ Z.of_nat k) by (apply pow10_pos; lia).
    assert (Hd : 0 <= c / 10 ^ Z.of_nat k mod 10 <= 9).
    { pose proof (Z.mod_pos_bound (c / 10 ^ Z.of_nat k) 10). lia. }
    rewrite (digit_value_char _ Hd). rewrite IH.
    rewrite Nat2Z.inj_succ. unfold Z.succ. rewrite pow10_step by lia.
    rewrite (Z.mul_comm 10 (10 ^ Z.of_nat k)).
    rewrite (Z.rem_mul_r c (10 ^ Z.of_nat k) 10) by lia.
    f_equal; [|lia]. ring.
Qed.

Lemma append_empty (s : string) : s ++ "" = s.
Proof. induction s as [|c s IH]; cbn [append]; [reflexivity | rewrite IH; reflexivity]. Qed.

Lemma read_unsigned_parts (kw kf : nat) (w f : Z) :
  (1 <= kw)%nat -> (1 <= kf)%nat -> 0 <= w < 10 ^ Z.of_nat kw ->
  read_unsigned (digit_string kw w ++ "." ++ digit_string kf f)
  = Some {| dt_whole := w; dt_whole_digits := Z.of_nat kw;
            dt_digits := w * 10 ^ Z.of_nat kf + f mod 10 ^ Z.of_nat kf;
            dt_places := Z.of_nat kf |}.
Proof.
  intros Hkw Hkf Hw. unfold read_unsigned.
  rewrite read_digits_digit_string.
  rewrite Z.mul_0_l, Z.add_0_l, Z.add_0_l. rewrite Z.mod_small by exact Hw.
  cbn [append read_digits]. change (digit_value ".") with (@None Z). cbv iota beta.
  change (Ascii.eqb "." ".") with true. cbn [andb].
  replace (0 <? Z.of_nat kw) with true by (symmetry; apply Z.ltb_lt; lia).
  rewrite <- (append_empty (digit_string kf f)).
  rewrite read_digits_digit_string. cbn [read_digits]. rewrite Z.add_0_l.
  replace (0 <? Z.of_nat kf) with true by (symmetry; apply Z.ltb_lt; lia).
  reflexivity.
Qed.

(** The fixed layout of the digits [c] of a thousandth reads back as that
    thousandth. *)
Lemma format_reads_thousandth (c k j : Z) :
  0 <= j -> 1 <= k -> k + j <= 15 ->
  10 ^ (k - 1) <= c < 10 ^ k -> c mod 10 <> 0 ->
  exists d,
    read_unsigned (format_float_short c k (k + j - 3)) = Some d
    /\ plain_decimal d = true
    /\ dt_digits d * 1000 = c * 10 ^ j * 10 ^ dt_places d.
Proof.
  intros Hj Hk Hkj Hc Hc10.
  assert (Hk1 : 0 < 10 ^ (k - 1)) by (apply pow10_pos; lia).
  unfold format_float_short. set (P := k + j - 3).
  replace ((P <=? -4) || (16 <? P)) with false.
  2:{ symmetry. apply orb_false_intro; [apply Z.leb_gt | apply Z.ltb_ge]; unfold P; lia. }
  destruct (P <=? 0) eqn:E0.
  - (* 0.F *)
    apply Z.leb_le in E0.
    change ("0." ++ digit_string (Z.to_nat (k - P)) c)
      with (digit_string 1 0 ++ "." ++ digit_string (Z.to_nat (k - P)) c).
    rewrite read_unsigned_parts; [| lia | lia | change (10 ^ Z.of_nat 1) with 10; lia].
    eexists. split; [reflexivity|].
    rewrite Z2Nat.id by lia.
    assert (Hsmall : c mod 10 ^ (k - P) = c).
    { apply Z.mod_small. assert (10 ^ k <= 10 ^ (k - P)) by (apply pow10_le; lia). lia. }
    unfold plain_decimal. cbn [dt_whole dt_whole_digits dt_digits dt_places].
    rewrite Hsmall, Z.mul_0_l, Z.add_0_l.
    split.
    + change (Z.of_nat 1 =? 1) with true. cbn [orb andb].
      replace (c mod 10 =? 0) with false by (symmetry; apply Z.eqb_neq; exact Hc10).
      apply orb_true_r.
    + replace (k - P) with (3 - j) by (unfold P; lia).
      rewrite <- Z.mul_assoc, <- pow10_split by lia.
      replace (j + (3 - j)) with 3 by lia. reflexivity.
  - apply Z.leb_gt in E0. destruct (P <? k) eqn:E1.
    + (* W.F *)
      apply Z.ltb_lt in E1.
      assert (Hsplit : 10 ^ k = 10 ^ P * 10 ^ (k - P)).
      { rewrite <- pow10_split by lia. f_equal. lia. }
      assert (Hsplit1 : 10 ^ (k - 1) = 10 ^ (P - 1) * 10 ^ (k - P)).
      { rewrite <- pow10_split by lia. f_equal. lia. }
      assert (Hq : 0 < 10 ^ (k - P)) by (apply pow10_pos; lia).
      assert (Hw : 10 ^ (P - 1) <= c / 10 ^ (k - P) < 10 ^ P).
      { split.
        - apply Z.div_le_lower_bound; lia.
        - apply Z.div_lt_upper_bound; lia. }
      assert (0 < 10 ^ (P - 1)) by (apply pow10_pos; lia).
      rewrite read_unsigned_parts; [| lia | lia | rewrite Z2Nat.id by lia; lia].
      eexists. split; [reflexivity|].
      rewrite !Z2Nat.id by lia.
      assert (Hall : c / 10 ^ (k - P) * 10 ^ (k - P) + c mod 10 ^ (k - P) = c).
      { pose proof (Z.div_mod c (10 ^ (k - P)) ltac:(lia)). lia. }
      unfold plain_decimal. cbn [dt_whole dt_whole_digits dt_digits dt_places].
      rewrite Hall. split.
      * replace (10 ^ (P - 1) <=? c / 10 ^ (k - P)) with true
          by (symmetry; apply Z.leb_le; lia).
        rewrite orb_true_r. cbn [andb].
        replace (c mod 10 =? 0) with false by (symmetry; apply Z.eqb_neq; exact Hc10).
        apply orb_true_r.
      * replace (k - P) with (3 - j) by (unfold P; lia).
        rewrite <- Z.mul_assoc, <- pow10_split by lia.
        replace (j + (3 - j)) with 3 by lia. reflexivity.
    + (* W.0 *)
      apply Z.ltb_ge in E1.
      assert (Hsplit : 10 ^ P = 10 ^ k * 10 ^ (P - k)).
      { rewrite <- pow10_split by lia. f_equal. lia. }
      assert (Hsplit1 : 10 ^ (P - 1) = 10 ^ (k - 1) * 10 ^ (P - k)).
      { rewrite <- pow10_split by lia. f_equal. lia. }
      assert (Hq : 0 < 10 ^ (P - k)) by (apply pow10_pos; lia).
      change (digit_string (Z.to_nat P) (c * 10 ^ (P - k)) ++ ".0")
        with (digit_string (Z.to_nat P) (c * 10 ^ (P - k)) ++ "." ++ digit_string 1 0).
      rewrite read_unsigned_parts; [| lia | lia | rewrite Z2Nat.id by lia; nia].
      eexists. split; [reflexivity|].
      rewrite !Z2Nat.id by lia.
      unfold plain_decimal. cbn [dt_whole dt_whole_digits dt_digits dt_places].
      split.
      * replace (10 ^ (P - 1) <=? c * 10 ^ (P - k)) with true
          by (symmetry; apply Z.leb_le; nia).
        rewrite orb_true_r. reflexivity.
      * change (Z.of_nat 1) with 1. change (0 mod 10 ^ 1) with 0. change (10 ^ 1) with 10.
        assert (Hj3 : 10 ^ j = 10 ^ (P - k) * 1000).
        { replace j with (P - k + 3) at 1 by (unfold P; lia).
          rewrite pow10_split by lia. reflexivity. }
        rewrite Hj3. ring.
Qed.

Lemma read_decimal_signed (s : bool) (t : string) (d : decimal_text) :
  read_unsigned t = Some d ->
  read_decimal ((if s then "-" else "") ++ t) = Some (s, d).
Proof.
  intros H. destruct s; cbn [append].
  - unfold read_decimal.
    change (read_unsigned (String "-" t)) with (@None decimal_text).
    cbv iota. change (Ascii.eqb "-" "-") with true. cbv iota. rewrite H. reflexivity.
  - unfold read_decimal. rewrite H. reflexivity.
Qed.

Lemma decompose_ten (n : nat) (N : Z) :
  0 < N <= Z.of_nat n ->
  exists c j, N = c * 10 ^ j /\ 0 <= j /\ c mod 10 <> 0.
Proof.
  revert N. induction n as [|n IH]; intros N HN; [lia|].
  destruct (Z.eq_dec (N mod 10) 0) as [Hz | Hnz].
  - pose proof (Z.div_mod N 10 ltac:(lia)) as Hdm. rewrite Hz in Hdm.
    destruct (IH (N / 10)) as (c & j & Hc & Hj & Hc10); [lia|].
    exists c, (j + 1). split; [|split; [lia | exact Hc10]].
    rewrite pow10_step by lia. lia.
  - exists N, 0. split; [change (10 ^ 0) with 1; lia|]. split; [lia | exact Hnz].
Qed.

Lemma count_digits (n : nat) (c : Z) :
  0 < c < 10 ^ Z.of_nat n ->
  exists k, 1 <= k /\ 10 ^ (k - 1) <= c < 10 ^ k.
Proof.
  induction n as [|n IH]; intros Hc.
  - change (10 ^ Z.of_nat 0) with 1 in Hc. lia.
  - destruct (Z_lt_le_dec c (10 ^ Z.of_nat n)) as [Hlt | Hge].
    + apply IH. lia.
    + exists (Z.of_nat (S n)). split; [lia|].
      replace (Z.of_nat (S n) - 1) with (Z.of_nat n) by lia. lia.
Qed.

(** The text of a float whose rounding interval holds the thousandth of
    [n]. *)
Lemma float_repr_thousandth (n : Z) (m : positive) (e : Z) :
  0 < Z.abs n < 10 ^ 15 ->
  rounds_thousandth (Z.abs n) m e ->
  is_thousandth (float_repr (S754_finite (n <? 0) m e)) n = true.
Proof.
  intros Hn Hround.
  destruct (decompose_ten (Z.to_nat (Z.abs n)) (Z.abs n)) as (c & j & HN & Hj & Hc10); [lia|].
  assert (H10j : 0 < 10 ^ j) by (apply pow10_pos; lia).
  assert (Hc : 0 < c < 10 ^ Z.of_nat 15).
  { change (10 ^ Z.of_nat 15) with (10 ^ 15). nia. }
  destruct (count_digits 15 c Hc) as (k & Hk1 & Hk).
  pose proof (td_basic _ m e c j k Hround Hn HN Hj Hk1 Hk) as (_ & _ & Hkj & _).
  unfold float_repr.
  rewrite (td_shortest _ m e c j k Hround Hn HN Hj Hc10 Hk1 Hk).
  destruct (format_reads_thousandth c k j Hj Hk1 Hkj Hk Hc10) as (d & Hread & Hplain & Hval).
  unfold is_thousandth.
  rewrite (read_decimal_signed _ _ _ Hread).
  rewrite Hplain, <- HN in *. cbn [andb].
  apply andb_true_intro. split.
  - apply Z.eqb_eq. exact Hval.
  - destruct (n <? 0) eqn:E.
    + apply Z.ltb_lt in E. apply Z.leb_le. lia.
    + apply Z.ltb_ge in E. apply Z.leb_le. lia.
Qed.

Lemma float_holds_eq (s : bool) (m : positive) (e n : Z) :
  float_holds (S754_finite s m e) n = true ->
  bounded prec emax m e = true /\ float_eq_Z (S754_finite s m e) n = true.
Proof.
  cbn [float_holds]. intros H.
  apply andb_prop in H as [H Hval]. apply andb_prop in H as [Hb Hs].
  split; [exact Hb|]. cbn [float_eq_Z].
  destruct (e <? 0) eqn:E.
  - apply Z.ltb_lt in E. apply Z.eqb_eq in Hval.
    replace (0 <=? e) with false by (symmetry; apply Z.leb_gt; exact E).
    apply Z.eqb_eq. destruct s.
    + apply Z.ltb_lt in Hs. rewrite Z.abs_neq in Hval by lia. lia.
    + apply Z.ltb_lt in Hs. rewrite Z.abs_eq in Hval by lia. lia.
  - apply Z.ltb_ge in E. apply Z.eqb_eq in Hval.
    replace (0 <=? e) with true by (symmetry; apply Z.leb_le; exact E).
    apply Z.eqb_eq. destruct s.
    + apply Z.ltb_lt in Hs. rewrite Z.abs_neq in Hval by lia.
      change (Z.neg m) with (- Z.pos m). lia.
    + apply Z.ltb_lt in Hs. rewrite Z.abs_eq in Hval by lia. lia.
Qed.

Lemma truediv_1000_thousandth (v : pyval) (n : Z) :
  whole_number v n = true -> Z.abs n < 10 ^ 15 ->
  exists q, py_truediv_int v 1000 = Ok (VFloat q)
            /\ is_thousandth (float_repr q) n = true.
Proof.
  intros Hv Hn.
  assert (Hint : forall a, a = n ->
            exists q, (f <- int_truediv a 1000 ;; Ok (VFloat f)) = Ok (VFloat q)
                      /\ is_thousandth (float_repr q) n = true).
  { intros a ->. destruct (Z.eq_dec n 0) as [-> | Hnz].
    - exists (S754_zero false). split; reflexivity.
    - destruct (int_truediv_1000_rounds n ltac:(lia)) as (m & e & Hdiv & Hround).
      exists (S754_finite (n <? 0) m e). rewrite Hdiv. split; [reflexivity|].
      apply float_repr_thousandth; [lia | exact Hround]. }
  destruct v as [| b | a | x | s | l | d]; try discriminate Hv; cbn [whole_number] in Hv.
  - apply Hint. apply Z.eqb_eq in Hv. destruct b; exact Hv.
  - apply Hint. apply Z.eqb_eq. exact Hv.
  - cbn [py_truediv_int].
    destruct x as [s | s | | s mx ex]; try discriminate Hv.
    + cbn [float_holds] in Hv. apply Z.eqb_eq in Hv. subst n.
      exists (S754_zero s). rewrite float_of_Z_1000. destruct s; split; reflexivity.
    + assert (Hnz : n <> 0).
      { intros ->. cbn [float_holds] in Hv.
        apply andb_prop in Hv as [Hv _]. apply andb_prop in Hv as [_ Hs].
        destruct s; discriminate Hs. }
      destruct (float_holds_eq s mx ex n Hv) as [Hvalid Heq].
      destruct (float_truediv_1000_rounds s mx ex n Hvalid Heq ltac:(lia))
        as (m & e & Hdiv & Hround).
      exists (S754_finite (n <? 0) m e). rewrite Hdiv. split; [reflexivity|].
      apply float_repr_thousandth; [lia | exact Hround].
Qed.

(** C8.  A [date] or [time] field whose value is a whole number of
    milliseconds [n], below [10^15] in absolute value and given as an [int],
    a [bool] or a [float], yields the decimal expansion of [n / 1000]: an
    optional minus sign, the whole part, a point and the fraction, with no
    superfluous zeros and at least one digit on each side; no date
    formatting takes place. *)
Theorem date_time_seconds (field : pyval) (t : string) (v : pyval) (n : Z) :
  py_get field "type" VNone = Ok (VStr t) ->
  t = "date" \/ t = "time" ->
  py_get field "value" VNone = Ok v ->
  whole_number v n = true ->
  Z.abs n < 10 ^ 15 ->
  exists text,
    _get_field_value field = Ok (VStr text)
    /\ is_thousandth text n = true.
Proof.
  intros Htype Ht Hvalue Hnum Hrange.
  destruct (truediv_1000_thousandth v n Hnum Hrange) as (q & Hdiv & Htext).
  exists (float_repr q). split; [|exact Htext].
  assert (Hnone : is_none v = false) by (destruct v; simpl in *; congruence).
  open_field field Htype Hvalue.
  rewrite Hnone, Hdiv.
  destruct Ht as [-> | ->]; reflexivity.
Qed.

Lemma date_time_seconds_witness :
  _get_field_value
    (VDict [("name", VStr "Due"); ("type", VStr "date");
            ("value", VInt 1700000000000)])
  = Ok (VStr "1700000000.0")
  /\ is_thousandth "1700000000.0" 1700000000000 = true.
Proof.
  destruct (date_time_seconds
              (VDict [("name", VStr "Due"); ("type", VStr "date");
                      ("value", VInt 1700000000000)])
              "date" (VInt 1700000000000) 1700000000000)
    as (text & Hvalue & Htext).
  - reflexivity.
  - left; reflexivity.
  - reflexivity.
  - reflexivity.
  - reflexivity.
  - assert (E : text = "1700000000.0").
    { vm_compute in Hvalue. injection Hvalue as <-. reflexivity. }
    rewrite E in Hvalue, Htext. split; [exact Hvalue | exact Htext].
Defined.

(** The same timestamp given as a [float]. *)
Example float_timestamp :
  whole_number (VFloat (float_of_Z 1700000000000)) 1700000000000 = true
  /\ _get_field_value
       (VDict [("name", VStr "Due"); ("type", VStr "time");
               ("value", VFloat (float_of_Z 1700000000000))])
     = Ok (VStr "1700000000.0").
Proof. split; vm_compute; reflexivity. Qed.

Lemma dropdown_lookup_find (options : list pyval) (v : pyval) :
  forallb is_dict options = true ->
  dropdown_lookup options v =
    Ok (match find (fun option => py_eq (option_id option) v) options with
        | Some option => option_name option
        | None => v
        end).
Proof.
  induction options as [|o r IH]; simpl; intros H; [reflexivity|].
  apply andb_prop in H as [Ho Hr].
  rewrite (py_get_option_id o Ho). cbn [bind].
  destruct (py_eq (option_id o) v).
  - now apply py_get_option_name.
  - now apply IH.
Qed.

(** C5.  A [dropdown] field with a value that is not null yields
    [dropdown_display]: for an identifier the name of the first option
    carrying it, or the identifier itself when no option does; for an object
    its name; for anything else its text.  The options are only consulted
    for an identifier, and have to be objects then. *)
Theorem dropdown_resolves (field v : pyval) (options : list pyval) :
  py_get field "type" VNone = Ok (VStr "dropdown") ->
  py_get field "value" VNone = Ok v ->
  is_none v = false ->
  (is_str v = true ->
   field_options field = Ok (VList options) /\ forallb is_dict options = true) ->
  _get_field_value field = Ok (dropdown_display options v).
Proof.
  intros Htype Hvalue Hnone Hopts.
  open_field field Htype Hvalue.
  rewrite Hnone.
  destruct v; try discriminate Hnone; try reflexivity.
  destruct (Hopts eq_refl) as [Ho Hd].
  cbn -[field_options dropdown_lookup dropdown_display].
  rewrite Ho. cbn [bind py_iter].
  now apply dropdown_lookup_find.
Qed.

Lemma dropdown_resolves_witness :
  _get_field_value (stage_field (VStr "b2")) = Ok (VStr "Closed")
  /\ _get_field_value (stage_field (VStr "zz")) = Ok (VStr "zz")
  /\ _get_field_value (stage_field (VDict [("name", VStr "Held")]))
     = Ok (VStr "Held")
  /\ _get_field_value (stage_field (VInt 2)) = Ok (VStr "2").
Proof.
  split; [|split; [|split]].
  - apply (dropdown_resolves (stage_field (VStr "b2")) (VStr "b2") stage_options);
      [reflexivity | reflexivity | reflexivity | intros _; split; reflexivity].
  - apply (dropdown_resolves (stage_field (VStr "zz")) (VStr "zz") stage_options);
      [reflexivity | reflexivity | reflexivity | intros _; split; reflexivity].
  - apply (dropdown_resolves (stage_field (VDict [("name", VStr "Held")]))
             (VDict [("name", VStr "Held")]) stage_options);
      [reflexivity | reflexivity | reflexivity | intros H; discriminate H].
  - apply (dropdown_resolves (stage_field (VInt 2)) (VInt 2) stage_options);
      [reflexivity | reflexivity | reflexivity | intros H; discriminate H].
Defined.

Lemma mapM_get_name (key : string) (l : list pyval) :
  forallb is_dict l = true ->
  mapM (fun x => py_get x key (VStr "")) l
  = Ok (map (fun x => match x with
                      | VDict d =>
                          match assoc key d with Some y => y | None => VStr "" end
                      | _ => VStr ""
                      end) l).
Proof.
  induction l as [|x r IH]; simpl; intros H; [reflexivity|].
  apply andb_prop in H as [Hx Hr].
  destruct x; try discriminate Hx. cbn [py_get bind].
  now rewrite (IH Hr).
Qed.

(** C9, amended.  A [relationship] field yields [relationship_text]: for a
    sequence, the names of its entries that are not falsy (the empty text
    for an entry without a name), joined by [", "]; for any other value the
    empty text.  Null entries are skipped, and so are empty objects. *)
Theorem relationship_joins_names (field v : pyval) (text : string) :
  py_get field "type" VNone = Ok (VStr "relationship") ->
  py_get field "value" VNone = Ok v ->
  relationship_text v = Some text ->
  _get_field_value field = Ok (VStr text).
Proof.
  intros Htype Hvalue Htext.
  open_field field Htype Hvalue.
  destruct v; simpl in Htext; try (injection Htext as <-; reflexivity).
  cbn -[filter py_join mapM].
  destruct (forallb is_dict (filter truthy l)) eqn:Hd; try discriminate.
  rewrite (mapM_get_name "name" _ Hd). cbn [bind].
  destruct (texts (map option_name (filter truthy l))) as [parts|] eqn:Hp;
    try discriminate.
  injection Htext as <-.
  apply py_join_texts.
  rewrite <- Hp. reflexivity.
Qed.

Lemma relationship_joins_names_witness :
  _get_field_value
    (VDict [("name", VStr "Links"); ("type", VStr "relationship");
            ("value", linked_tasks_example)])
  = Ok (VStr "Survey, , Permit").
Proof.
  apply (relationship_joins_names
           (VDict [("name", VStr "Links"); ("type", VStr "relationship");
                   ("value", linked_tasks_example)])
           linked_tasks_example);
    reflexivity.
Defined.

(** C9 as stated fails on an empty object: it is an object without a name,
    which should add an empty text to the join, but the code skips it like a
    null entry. *)
Lemma relationship_skips_empty_object :
  let v := VList [VDict [("name", VStr "Survey")]; VDict []] in
  relationship_text_claimed v = Some "Survey, "
  /\ _get_field_value
       (VDict [("name", VStr "Links"); ("type", VStr "relationship"); ("value", v)])
     = Ok (VStr "Survey")
  /\ "Survey" <> "Survey, ".
Proof. cbv zeta. repeat split; try reflexivity. discriminate. Qed.

Lemma append_matching_filter (options : list pyval) (item : pyval)
  (names : list pyval) :
  forallb is_dict options = true ->
  append_matching options item names
  = Ok (names ++ map option_name
                   (filter (fun option => py_eq (option_id option) item) options))%list.
Proof.
  revert names. induction options as [|o r IH]; simpl; intros names H.
  - now rewrite app_nil_r.
  - apply andb_prop in H as [Ho Hr].
    rewrite (py_get_option_id o Ho). cbn [bind].
    destruct (py_eq (option_id o) item).
    + rewrite (py_get_option_name o Ho). cbn [bind].
      rewrite (IH _ Hr). simpl. now rewrite <- app_assoc.
    + now apply IH.
Qed.

Lemma append_label_contributed (options : list pyval) (names : list pyval)
  (item : pyval) :
  forallb is_dict options = true ->
  append_label (VList options) names item
  = Ok (names ++ contributed options item)%list.
Proof.
  intros H. unfold append_label, contributed. cbn [py_iter bind].
  destruct item; try now apply append_matching_filter.
  destruct (assoc "name" d); [reflexivity | now apply append_matching_filter].
Qed.

Lemma fold_append_label (options items names : list pyval) :
  forallb is_dict options = true ->
  foldM (append_label (VList options)) items names
  = Ok (names ++ flat_map (contributed options) items)%list.
Proof.
  intros H. revert names.
  induction items as [|item r IH]; simpl; intros names.
  - now rewrite app_nil_r.
  - rewrite (append_label_contributed _ _ _ H). cbn [bind].
    rewrite IH. now rewrite <- app_assoc.
Qed.

(** C6.  A [labels] or [multi_select] field whose value is a sequence
    yields the names its items contribute ([contributed]: the name an
    object carries, else the names of the options with that id, nothing for
    an identifier no option has), in item order, joined by [", "]. *)
Theorem labels_join_names (field : pyval) (t : string)
  (items options : list pyval) (parts : list string) :
  py_get field "type" VNone = Ok (VStr t) ->
  t = "labels" \/ t = "multi_select" ->
  py_get field "value" VNone = Ok (VList items) ->
  field_options field = Ok (VList options) ->
  forallb is_dict options = true ->
  texts (flat_map (contributed options) items) = Some parts ->
  _get_field_value field = Ok (VStr (String.concat ", " parts)).
Proof.
  intros Htype Ht Hvalue Hopts Hd Hparts.
  open_field field Htype Hvalue.
  assert (Hbranch :
    py_in_list (VStr t) text_types = false
    /\ py_in_list (VStr t) number_types = false
    /\ py_eq (VStr t) (VStr "checkbox") = false
    /\ py_eq (VStr t) (VStr "dropdown") = false
    /\ py_eq (VStr t) (VStr "labels") || py_eq (VStr t) (VStr "multi_select") = true)
    by (destruct Ht as [-> | ->]; repeat split).
  destruct Hbranch as (-> & -> & -> & -> & ->).
  cbn [is_none]. rewrite Hopts. cbn [bind].
  rewrite (fold_append_label _ _ _ Hd). cbn [bind app].
  now apply py_join_texts.
Qed.

Lemma labels_join_names_witness :
  _get_field_value
    (VDict [("name", VStr "Tags"); ("type", VStr "multi_select");
            ("value", VList tag_items);
            ("type_config", VDict [("options", VList tag_options)])])
  = Ok (VStr "Review, Legacy, Urgent").
Proof.
  apply (labels_join_names
           (VDict [("name", VStr "Tags"); ("type", VStr "multi_select");
                   ("value", VList tag_items);
                   ("type_config", VDict [("options", VList tag_options)])])
           "multi_select" tag_items tag_options ["Review"; "Legacy"; "Urgent"]).
  - reflexivity.
  - right; reflexivity.
  - reflexivity.
  - reflexivity.
  - reflexivity.
  - reflexivity.
Defined.

(** ** Columns and rows *)

Lemma py_same_str (a b : string) : py_same (VStr a) (VStr b) = String.eqb a b.
Proof. reflexivity. Qed.

Lemma dict_mem_slots (g : string -> pyval) (cols : list string) (n : string) :
  dict_mem (slots g cols) (VStr n) = mem n cols.
Proof.
  unfold dict_mem, mem, slots. induction cols as [|c r IH]; simpl; [reflexivity|].
  rewrite IH, py_same_str. now rewrite (String.eqb_sym c n).
Qed.

Lemma dict_put_absent (g : string -> pyval) (cols : list string) (n : string)
  (x : pyval) :
  mem n cols = false ->
  dict_put (slots g cols) (VStr n) x = (slots g cols ++ [(VStr n, x)])%list.
Proof.
  unfold mem. induction cols as [|c r IH]; simpl; intros H; [reflexivity|].
  apply orb_false_elim in H as [Hc Hr].
  rewrite py_same_str, (String.eqb_sym c n), Hc. now rewrite (IH Hr).
Qed.

Lemma slots_ext (g h : string -> pyval) (cols : list string) :
  (forall c, In c cols -> g c = h c) -> slots g cols = slots h cols.
Proof.
  intros H. unfold slots. apply map_ext_in. intros c Hc. now rewrite (H c Hc).
Qed.

Lemma dict_put_present (g : string -> pyval) (cols : list string) (n : string)
  (x : pyval) :
  NoDup cols -> In n cols ->
  dict_put (slots g cols) (VStr n) x = slots (override g n x) cols.
Proof.
  induction cols as [|c r IH]; simpl; intros Hnd Hin; [contradiction|].
  inversion Hnd as [|? ? Hc Hr]; subst.
  rewrite py_same_str. unfold override at 1.
  destruct (String.eqb c n) eqn:E.
  - apply String.eqb_eq in E. subst c. f_equal.
    apply slots_ext. intros c Hc'. unfold override.
    destruct (String.eqb c n) eqn:E'; [|reflexivity].
    apply String.eqb_eq in E'. now subst.
  - f_equal. apply IH; [assumption|].
    destruct Hin as [->|]; [|assumption].
    now rewrite String.eqb_refl in E.
Qed.

Lemma mem_In (n : string) (cols : list string) : mem n cols = true <-> In n cols.
Proof.
  unfold mem. rewrite existsb_exists. split.
  - intros (c & Hc & E). apply String.eqb_eq in E. now subst.
  - intros H. exists n. split; [assumption | apply String.eqb_refl].
Qed.

Lemma mem_not_In (n : string) (cols : list string) :
  mem n cols = false <-> ~ In n cols.
Proof.
  rewrite <- mem_In. destruct (mem n cols); split; congruence.
Qed.

Lemma dict_put_marked (cols : list string) (n : string) :
  dict_put (marked cols) (VStr n) (VBool true) = marked (insert_name cols n).
Proof.
  unfold insert_name. destruct (mem n cols) eqn:E.
  - unfold marked, slots, mem in *.
    induction cols as [|c r IH]; simpl in *; [discriminate|].
    rewrite py_same_str, (String.eqb_sym c n).
    destruct (String.eqb n c); [reflexivity|].
    simpl in E. now rewrite (IH E).
  - unfold marked. rewrite (dict_put_absent _ _ _ _ E).
    unfold slots. now rewrite map_app.
Qed.

Lemma py_get_field_name (field : pyval) (n : string) :
  field_name field = Some n -> py_get field "name" VNone = Ok (VStr n).
Proof.
  destruct field; simpl; try discriminate.
  destruct (assoc "name" d) as [[]|]; try discriminate.
  now intros [= ->].
Qed.

Lemma fold_add_field_name (fields : list pyval) (ns cols : list string) :
  names_of fields = Some ns ->
  foldM add_field_name fields (marked cols)
  = Ok (marked (fold_left insert_name ns cols)).
Proof.
  revert ns cols. induction fields as [|f r IH]; simpl; intros ns cols H.
  - now injection H as <-.
  - destruct (field_name f) as [n|] eqn:Hn; try discriminate.
    destruct (names_of r) as [ns'|]; try discriminate.
    injection H as <-. unfold add_field_name at 1.
    rewrite (py_get_field_name _ _ Hn). cbn [bind dict_setitem hashable].
    rewrite dict_put_marked. simpl. exact (IH ns' _ eq_refl).
Qed.

Lemma py_iter_task_fields (task : pyval) (fields : list pyval) :
  task_fields task = Some fields ->
  (fs <- py_get task "custom_fields" (VList []) ;; py_iter fs) = Ok fields.
Proof.
  destruct task; simpl; try discriminate.
  destruct (assoc "custom_fields" d) as [[]|]; try discriminate;
    now intros [= ->].
Qed.

Lemma fold_add_task_fields (tasks : list pyval) (names cols : list string) :
  all_field_names tasks = Some names ->
  foldM add_task_fields tasks (marked cols)
  = Ok (marked (fold_left insert_name names cols)).
Proof.
  revert names cols. induction tasks as [|t r IH]; simpl; intros names cols H.
  - now injection H as <-.
  - destruct (task_fields t) as [fields|] eqn:Hf; try discriminate.
    destruct (names_of fields) as [ns|] eqn:Hns; try discriminate.
    destruct (all_field_names r) as [rest|]; try discriminate.
    injection H as <-. unfold add_task_fields at 1.
    pose proof (py_iter_task_fields _ _ Hf) as Hi.
    destruct (py_get t "custom_fields" (VList [])) as [fs|]; try discriminate.
    cbn [bind] in Hi |- *. rewrite Hi. cbn [bind].
    rewrite (fold_add_field_name _ _ _ Hns). cbn [bind].
    rewrite fold_left_app. exact (IH rest _ eq_refl).
Qed.

Lemma filter_twice {A : Type} (p q : A -> bool) (l : list A) :
  filter p (filter q l) = filter (fun x => q x && p x) l.
Proof.
  induction l as [|x r IH]; simpl; [reflexivity|].
  destruct (q x); simpl; [destruct (p x)|]; now rewrite IH.
Qed.

Lemma fold_insert_first_seen (names cols : list string) :
  fold_left insert_name names cols
  = (cols ++ filter (fresh_for cols) (first_seen names))%list.
Proof.
  revert cols. induction names as [|n r IH]; simpl; intros cols.
  - now rewrite app_nil_r.
  - rewrite IH. unfold insert_name, fresh_for at 2.
    destruct (mem n cols) eqn:E; simpl.
    + f_equal. rewrite filter_twice. apply filter_ext. intros x.
      unfold differs, fresh_for. destruct (String.eqb x n) eqn:Ex; [|reflexivity].
      apply String.eqb_eq in Ex. subst x. now rewrite E.
    + rewrite <- app_assoc. simpl. do 2 f_equal.
      rewrite filter_twice. apply filter_ext. intros x.
      unfold differs, fresh_for, mem. rewrite existsb_app. simpl.
      rewrite orb_false_r, negb_orb. apply andb_comm.
Qed.

Lemma first_seen_In (names : list string) (n : string) :
  In n (first_seen names) <-> In n names.
Proof.
  induction names as [|m r IH]; simpl; [tauto|].
  rewrite filter_In, IH. unfold differs.
  destruct (String.eqb n m) eqn:E.
  - apply String.eqb_eq in E. subst. simpl. intuition.
  - simpl. assert (m <> n) by (intros ->; now rewrite String.eqb_refl in E).
    intuition.
Qed.

Lemma first_seen_NoDup (names : list string) : NoDup (first_seen names).
Proof.
  induction names as [|m r IH]; simpl; constructor.
  - rewrite filter_In. unfold differs. rewrite String.eqb_refl. simpl.
    intros [_ H]. discriminate.
  - now apply NoDup_filter.
Qed.

(** C3.  Over tasks of the expected shape (objects whose custom fields are
    objects named by texts), column discovery succeeds and its keys are the
    field names of all tasks, each once, in the order of first occurrence. *)
Theorem discover_columns_first_seen (tasks : list pyval) (names : list string) :
  all_field_names tasks = Some names ->
  exists custom_field_names,
    discover_columns tasks = Ok custom_field_names
    /\ dict_keys custom_field_names = map VStr (first_seen names)
    /\ NoDup (first_seen names)
    /\ (forall n, In n (first_seen names) <-> In n names).
Proof.
  intros H. exists (marked (first_seen names)). repeat split.
  - unfold discover_columns. change (@nil (pyval * pyval)) with (marked []).
    rewrite (fold_add_task_fields _ _ _ H), fold_insert_first_seen. simpl.
    f_equal. f_equal. clear H.
    induction (first_seen names) as [|x r IH]; simpl; [reflexivity|].
    now rewrite IH.
  - unfold dict_keys, marked, slots. rewrite map_map. reflexivity.
  - apply first_seen_NoDup.
  - apply first_seen_In.
  - apply first_seen_In.
Qed.

Lemma discover_columns_first_seen_witness :
  exists custom_field_names,
    discover_columns two_tasks = Ok custom_field_names
    /\ dict_keys custom_field_names = [VStr "A"; VStr "B"; VStr "C"]
    /\ NoDup ["A"; "B"; "C"]
    /\ (forall n, In n ["A"; "B"; "C"] <-> In n ["A"; "B"; "B"; "C"]).
Proof.
  exact (discover_columns_first_seen two_tasks ["A"; "B"; "B"; "C"] eq_refl).
Defined.

Lemma fold_blank_slots (pre cols : list string) :
  NoDup (pre ++ cols) ->
  foldM (fun d name => dict_setitem d name (VStr "")) (map VStr cols)
        (slots blank pre)
  = Ok (slots blank (pre ++ cols)).
Proof.
  revert pre. induction cols as [|c r IH]; simpl; intros pre Hnd.
  - now rewrite app_nil_r.
  - assert (Hc : mem c pre = false).
    { apply mem_not_In. intros Hin.
      apply NoDup_remove_2 in Hnd. apply Hnd, in_or_app. now left. }
    rewrite (dict_put_absent _ _ _ _ Hc).
    change (slots blank pre ++ [(VStr c, VStr "")])%list
      with (slots blank pre ++ slots blank [c])%list.
    unfold slots at 1 2. rewrite <- map_app. fold (slots blank (pre ++ [c])).
    rewrite (IH (pre ++ [c])%list); rewrite <- app_assoc; [reflexivity|exact Hnd].
Qed.

Lemma find_last {A : Type} (p : A -> bool) (l : list A) (x : A) :
  find p (l ++ [x]) =
    match find p l with
    | Some y => Some y
    | None => if p x then Some x else None
    end.
Proof.
  induction l as [|y r IH]; simpl; [reflexivity|].
  destruct (p y); [reflexivity | exact IH].
Qed.

(** The loop over a task's fields keeps the keys of the slots and leaves
    in each slot what [slot_value] says, starting from the slots [g]. *)
Lemma fold_store_field (cols : list string) (fields : list pyval) :
  NoDup cols ->
  forall (names : list string) (g : string -> pyval),
  names_of fields = Some names ->
  Forall (fun field => forall n, field_name field = Some n -> In n cols ->
                       exists v, _get_field_value field = Ok v) fields ->
  exists g',
    foldM store_field fields (slots g cols) = Ok (slots g' cols)
    /\ forall c, In c cols ->
         match find (named c) (rev fields) with
         | Some field => _get_field_value field
         | None => Ok (g c)
         end = Ok (g' c).
Proof.
  intros Hnd. induction fields as [|f r IH]; simpl; intros names g Hnames Hok.
  - exists g. split; [reflexivity | now intros].
  - destruct (field_name f) as [n|] eqn:Hn; try discriminate.
    destruct (names_of r) as [ns|] eqn:Hns; try discriminate.
    inversion Hok as [|? ? Hf Hr]; subst.
    unfold store_field at 1.
    rewrite (py_get_field_name _ _ Hn). cbn [bind dict_contains hashable].
    rewrite dict_mem_slots.
    destruct (mem n cols) eqn:Hmem.
    + apply mem_In in Hmem.
      destruct (Hf n Hn Hmem) as [v Hv].
      rewrite Hv. cbn [bind dict_setitem hashable].
      rewrite (dict_put_present _ _ _ _ Hnd Hmem).
      destruct (IH ns (override g n v) eq_refl Hr) as (g' & Hfold & Hslots).
      exists g'. split; [exact Hfold|].
      intros c Hc. rewrite find_last, <- (Hslots c Hc).
      destruct (find (named c) (rev r)); [reflexivity|].
      unfold named, override. rewrite Hn.
      rewrite (String.eqb_sym n c).
      destruct (String.eqb c n) eqn:E; [|reflexivity].
      apply String.eqb_eq in E. now subst.
    + destruct (IH ns g eq_refl Hr) as (g' & Hfold & Hslots).
      exists g'. split; [exact Hfold|].
      intros c Hc. rewrite find_last, <- (Hslots c Hc).
      destruct (find (named c) (rev r)); [reflexivity|].
      unfold named. rewrite Hn.
      destruct (String.eqb n c) eqn:E; [|reflexivity].
      apply String.eqb_eq in E. subst.
      apply mem_In in Hc. congruence.
Qed.

Lemma mapM_pointwise {A B : Type} (f : A -> result B) (g : A -> B) (l : list A) :
  (forall x, In x l -> f x = Ok (g x)) -> mapM f l = Ok (map g l).
Proof.
  induction l as [|x r IH]; simpl; intros H; [reflexivity|].
  rewrite (H x (or_introl eq_refl)). cbn [bind].
  rewrite IH; [reflexivity|]. intros y Hy. apply H. now right.
Qed.

(** C4.  For a task of the expected shape and a column set with text keys,
    the row is the task's name followed by one value per column, in column
    order: the normalised value of the task's last field of that name, the
    empty text when it has none.  Fields named outside the column set play
    no part; those named inside it have to normalise. *)
Theorem process_task_row (task name : pyval) (fields : list pyval)
  (names cols : list string) (custom_field_names : pydict) :
  py_get task "name" (VStr "") = Ok name ->
  task_fields task = Some fields ->
  names_of fields = Some names ->
  dict_keys custom_field_names = map VStr cols ->
  NoDup cols ->
  Forall (fun field => forall n, field_name field = Some n -> In n cols ->
                       exists v, _get_field_value field = Ok v) fields ->
  exists values,
    mapM (slot_value fields) cols = Ok values
    /\ List.length values = List.length cols
    /\ _process_task task custom_field_names = Ok (name :: values).
Proof.
  intros Hname Hfields Hnames Hkeys Hnd Hok.
  destruct (fold_store_field cols fields Hnd names blank Hnames Hok)
    as (g' & Hfold & Hslots).
  exists (map g' cols). split; [|split].
  - apply mapM_pointwise. intros c Hc. unfold slot_value.
    exact (Hslots c Hc).
  - apply length_map.
  - unfold _process_task. rewrite Hname. cbn [bind]. rewrite Hkeys.
    change (@nil (pyval * pyval)) with (slots blank []).
    rewrite (fold_blank_slots [] cols Hnd). cbn [bind app].
    pose proof (py_iter_task_fields _ _ Hfields) as Hi.
    destruct (py_get task "custom_fields" (VList [])) as [fs|]; try discriminate.
    cbn [bind] in Hi |- *. rewrite Hi. cbn [bind].
    rewrite Hfold. cbn [bind]. simpl.
    do 2 f_equal. unfold dict_values, slots. rewrite map_map. reflexivity.
Qed.

Lemma process_task_row_witness :
  _process_task row_task (marked ["A"; "B"; "C"])
  = Ok [VStr "first"; VStr "5"; VStr "2"; VStr ""].
Proof.
  destruct (process_task_row row_task (VStr "first")
              [text_field "A" "1"; text_field "B" "2"; text_field "Z" "9";
               text_field "A" "5"]
              ["A"; "B"; "Z"; "A"] ["A"; "B"; "C"] (marked ["A"; "B"; "C"]))
    as (values & Hvalues & _ & Hrow).
  - reflexivity.
  - reflexivity.
  - reflexivity.
  - reflexivity.
  - repeat constructor; simpl; intuition discriminate.
  - repeat constructor; intros; eexists; reflexivity.
  - vm_compute in Hvalues. injection Hvalues as <-. exact Hrow.
Defined.

(** ** The export run *)

Lemma text_field_value (field : pyval) (v : pyval) :
  py_get field "type" VNone = Ok (VStr "text") ->
  py_get field "value" VNone = Ok v ->
  is_none v = false ->
  _get_field_value field = Ok (VStr (py_str v)).
Proof.
  intros Htype Hvalue Hnone. open_field field Htype Hvalue.
  now rewrite Hnone.
Qed.

Lemma discover_single (task field : pyval) (n : string) :
  py_get task "custom_fields" (VList []) = Ok (VList [field]) ->
  py_get field "name" VNone = Ok (VStr n) ->
  discover_columns [task] = Ok [(VStr n, VBool true)].
Proof.
  intros Hfields Hname. unfold discover_columns. cbn [foldM].
  unfold add_task_fields. rewrite Hfields. cbn [bind py_iter foldM].
  unfold add_field_name. rewrite Hname. reflexivity.
Qed.

Lemma process_single (task field name : pyval) (n : string) (v : pyval) :
  py_get task "name" (VStr "") = Ok name ->
  py_get task "custom_fields" (VList []) = Ok (VList [field]) ->
  py_get field "name" VNone = Ok (VStr n) ->
  _get_field_value field = Ok v ->
  _process_task task [(VStr n, VBool true)] = Ok [name; v].
Proof.
  intros Hname Hfields Hfname Hvalue. unfold _process_task.
  rewrite Hname, Hfields. cbn [bind py_iter foldM dict_keys map fst].
  cbn [dict_setitem hashable dict_put bind foldM].
  unfold store_field. rewrite Hfname. cbn [bind dict_contains hashable].
  unfold dict_mem. cbn [existsb fst]. rewrite py_same_str, String.eqb_refl.
  cbn [orb bind]. rewrite Hvalue. cbn [bind dict_setitem hashable dict_put].
  rewrite py_same_str, String.eqb_refl. reflexivity.
Qed.

Section OrchestratorProperties.

Variable http_get : nat -> pyval -> option pyval.
Variable sheet_title : list string -> pyval -> result string.
Variable cell_value : pyval -> result pyval.
Variable filepath : result string.

Local Abbreviation get_tasks := (_get_tasks_from_list http_get).
Local Abbreviation run_list := (export_list http_get sheet_title cell_value).
Local Abbreviation run := (export_to_excel http_get sheet_title cell_value filepath).

Lemma export_list_skip (wb : workbook) (k : nat) (sheet_name list_id tasks : pyval) :
  get_tasks k list_id = Ok tasks -> truthy tasks = false ->
  run_list (wb, k) (sheet_name, list_id) = Ok (wb, S k).
Proof. intros H Hf. unfold export_list. rewrite H. cbn [bind]. now rewrite Hf. Qed.

Lemma update_sheet_head (h : worksheet) (r : workbook) (i : nat)
  (f : worksheet -> worksheet) :
  update_sheet (S i) f (h :: r) = h :: update_sheet i f r.
Proof. reflexivity. Qed.

Lemma update_sheet_length (i : nat) (f : worksheet -> worksheet) (wb : workbook) :
  List.length (update_sheet i f wb) = List.length wb.
Proof.
  revert i. induction wb as [|ws r IH]; intros [|i]; simpl; try reflexivity.
  now rewrite IH.
Qed.

Lemma fold_rows_head (cfn : pydict) (i : nat) (tasks : list pyval)
  (h : worksheet) (r wb : workbook) :
  foldM (append_task_row cell_value cfn (S i)) tasks (h :: r) = Ok wb ->
  exists r', wb = h :: r' /\ List.length r' = List.length r.
Proof.
  revert r. induction tasks as [|t ts IH]; simpl; intros r H.
  - injection H as <-. now exists r.
  - unfold append_task_row at 1, ws_append in H.
    destruct (_process_task t cfn) as [row|]; try discriminate.
    cbn [bind] in H.
    destruct (mapM cell_value row) as [cells|]; try discriminate.
    cbn [bind] in H. rewrite update_sheet_head in H.
    apply IH in H as (r' & -> & Hlen). exists r'. split; [reflexivity|].
    now rewrite Hlen, update_sheet_length.
Qed.

Lemma export_sheet_head (h : worksheet) (r wb : workbook) (sheet_name tasks : pyval) :
  export_sheet sheet_title cell_value (h :: r) sheet_name tasks = Ok wb ->
  exists r', wb = h :: r' /\ List.length r' = S (List.length r).
Proof.
  unfold export_sheet, create_sheet, ws_append. intros H.
  destruct (sheet_title (sheetnames (h :: r)) sheet_name) as [name|];
    try discriminate.
  cbn [bind] in H.
  destruct (py_iter tasks) as [ts|]; try discriminate. cbn [bind] in H.
  destruct (discover_columns ts) as [cfn|]; try discriminate. cbn [bind] in H.
  destruct (mapM cell_value _) as [cells|]; try discriminate. cbn [bind] in H.
  simpl List.length in H. simpl app in H. rewrite update_sheet_head in H.
  apply fold_rows_head in H as (r' & -> & Hlen). exists r'. split; [reflexivity|].
  rewrite Hlen, update_sheet_length, length_app. simpl. apply Nat.add_1_r.
Qed.

(** The loop never touches the first sheet, and adds one sheet for every
    list that comes back with tasks. *)
Lemma run_lists_head (list_ids : list (pyval * pyval)) (h : worksheet)
  (r wb : workbook) (k k' : nat) :
  foldM run_list list_ids (h :: r, k) = Ok (wb, k') ->
  exists r',
    wb = h :: r'
    /\ List.length r'
       = (List.length r + lists_with_tasks http_get k list_ids)%nat.
Proof.
  revert r k. induction list_ids as [|[sheet_name list_id] rest IH];
    simpl; intros r k H.
  - injection H as <- _. exists r. split; [reflexivity | apply plus_n_O].
  - destruct (get_tasks k list_id) as [tasks|]; try discriminate.
    cbn [bind] in H. destruct (truthy tasks); cbn [negb] in H.
    + destruct (export_sheet sheet_title cell_value (h :: r) sheet_name tasks)
        as [wb1|] eqn:E; try discriminate.
      apply export_sheet_head in E as (r1 & -> & Hlen1).
      cbn [bind] in H. apply IH in H as (r' & -> & Hlen).
      exists r'. split; [reflexivity|]. rewrite Hlen, Hlen1. lia.
    + cbn [bind] in H. apply IH in H as (r' & -> & Hlen).
      exists r'. split; [reflexivity|]. rewrite Hlen. lia.
Qed.

Lemma remove_default_sheet_head (created : workbook) :
  remove_default_sheet (default_sheet :: created)
  = Ok (match created with [] => [default_sheet] | _ :: _ => created end).
Proof. destruct created; reflexivity. Qed.

Lemma run_lists_all_empty (list_ids : list (pyval * pyval)) (wb : workbook) (k : nat) :
  (forall i entry, nth_error list_ids i = Some entry ->
     exists tasks, get_tasks (k + i) (snd entry) = Ok tasks /\ truthy tasks = false) ->
  foldM run_list list_ids (wb, k) = Ok (wb, (k + List.length list_ids)%nat).
Proof.
  revert k. induction list_ids as [|[sheet_name list_id] rest IH]; simpl; intros k H.
  - now rewrite Nat.add_0_r.
  - destruct (H O (sheet_name, list_id) eq_refl) as (tasks & Ht & Hf).
    rewrite Nat.add_0_r in Ht. simpl in Ht. rewrite Ht. cbn [bind].
    rewrite Hf. cbn [bind negb].
    rewrite IH.
    + now rewrite Nat.add_succ_r.
    + intros i entry Hi. rewrite Nat.add_succ_comm. exact (H (S i) entry Hi).
Qed.

(** C2.  A list whose retrieval yields no tasks leaves the workbook as it
    is, and the loop goes on with the remaining lists.  With two lists, the
    first without tasks and the second with one task carrying the single
    text field ["Status"] of value ["Open"], the workbook that is saved has
    exactly one sheet, the second list's, with the header row and one data
    row. *)
Theorem empty_list_is_skipped :
  (forall (wb : workbook) (k : nat) (sheet_name list_id tasks : pyval)
          (rest : list (pyval * pyval)),
      get_tasks k list_id = Ok tasks ->
      truthy tasks = false ->
      foldM run_list ((sheet_name, list_id) :: rest) (wb, k)
      = foldM run_list rest (wb, S k))
  /\ (forall (name1 id1 name2 id2 task field : pyval)
             (task_name sheet path : string),
        get_tasks 0 id1 = Ok (VList []) ->
        get_tasks 1 id2 = Ok (VList [task]) ->
        py_get task "name" (VStr "") = Ok (VStr task_name) ->
        py_get task "custom_fields" (VList []) = Ok (VList [field]) ->
        py_get field "name" VNone = Ok (VStr "Status") ->
        py_get field "type" VNone = Ok (VStr "text") ->
        py_get field "value" VNone = Ok (VStr "Open") ->
        sheet_title ["Sheet"] name2 = Ok sheet ->
        Forall (fun v => cell_value v = Ok v)
               [VStr "Task Name"; VStr "Status"; VStr task_name; VStr "Open"] ->
        filepath = Ok path ->
        run [(name1, id1); (name2, id2)]
        = Ok (path,
              [ {| title := sheet;
                   rows := [[VStr "Task Name"; VStr "Status"];
                            [VStr task_name; VStr "Open"]] |} ])).
Proof.
  split.
  - intros wb k sheet_name list_id tasks rest Ht Hf. cbn [foldM].
    now rewrite (export_list_skip wb k sheet_name list_id tasks Ht Hf).
  - intros name1 id1 name2 id2 task field task_name sheet path
           H1 H2 Hname Hfields Hfname Hftype Hfvalue Htitle Hcells Hpath.
    apply Forall_cons_iff in Hcells as [Hc1 Hcells].
    apply Forall_cons_iff in Hcells as [Hc2 Hcells].
    apply Forall_cons_iff in Hcells as [Hc3 Hcells].
    apply Forall_cons_iff in Hcells as [Hc4 _].
    unfold export_to_excel. cbn [foldM].
    rewrite (export_list_skip Workbook 0 name1 id1 (VList []) H1 eq_refl).
    cbn [bind]. unfold export_list. rewrite H2.
    cbn [bind truthy negb]. unfold export_sheet, create_sheet.
    cbn [sheetnames Workbook map title]. rewrite Htitle.
    cbn [bind py_iter].
    rewrite (discover_single task field "Status" Hfields Hfname).
    cbn [bind dict_keys map fst app].
    unfold ws_append at 1. cbn [mapM]. rewrite Hc1, Hc2.
    cbn [bind foldM]. unfold append_task_row.
    rewrite (process_single task field (VStr task_name) "Status" (VStr "Open")
               Hname Hfields Hfname
               (text_field_value field (VStr "Open") Hftype Hfvalue eq_refl)).
    cbn [bind]. unfold ws_append. cbn [mapM]. rewrite Hc3, Hc4.
    cbn [bind]. rewrite Hpath. reflexivity.
Qed.

(** C10.  After the loop the workbook is the default sheet followed by
    the data sheets created, one for every list that came back with tasks,
    and the removal step drops the default sheet exactly when there is a
    data sheet; what is left is the workbook that is saved.  When every list
    yields no tasks, that is the single blank default sheet. *)
Theorem default_sheet_removed_iff_created :
  (forall (list_ids : list (pyval * pyval)) (wb : workbook) (k : nat),
      foldM run_list list_ids (Workbook, O) = Ok (wb, k) ->
      exists created,
        wb = default_sheet :: created
        /\ List.length created = lists_with_tasks http_get O list_ids
        /\ remove_default_sheet wb
           = Ok (match created with
                 | [] => [default_sheet]
                 | _ :: _ => created
                 end)
        /\ run list_ids
           = (path <- filepath ;;
              Ok (path, match created with
                        | [] => [default_sheet]
                        | _ :: _ => created
                        end)))
  /\ (forall (list_ids : list (pyval * pyval)) (path : string),
        (forall i entry, nth_error list_ids i = Some entry ->
           exists tasks,
             get_tasks i (snd entry) = Ok tasks /\ truthy tasks = false) ->
        filepath = Ok path ->
        run list_ids = Ok (path, [default_sheet])).
Proof.
  split.
  - intros list_ids wb k H.
    destruct (run_lists_head list_ids default_sheet [] wb O k H)
      as (created & -> & Hlen).
    exists created. repeat split.
    + exact Hlen.
    + apply remove_default_sheet_head.
    + unfold export_to_excel. cbv zeta. rewrite H. cbn [bind fst].
      now rewrite remove_default_sheet_head.
  - intros list_ids path Hall Hpath. unfold export_to_excel.
    rewrite (run_lists_all_empty list_ids Workbook O Hall).
    cbn [bind fst]. rewrite Hpath. reflexivity.
Qed.

End OrchestratorProperties.

Lemma empty_list_is_skipped_witness :
  foldM (export_list two_lists_http title_as_given cell_as_given)
        two_lists (Workbook, O)
  = foldM (export_list two_lists_http title_as_given cell_as_given)
          (tl two_lists) (Workbook, 1%nat)
  /\ export_to_excel two_lists_http title_as_given cell_as_given
       (Ok "backup.xlsx") two_lists
     = Ok ("backup.xlsx", [contacts_sheet]).
Proof.
  split.
  - apply (proj1 (empty_list_is_skipped two_lists_http title_as_given
                    cell_as_given (Ok "backup.xlsx"))
             Workbook O (VStr "Biuro") (VStr "901") (VList []));
      reflexivity.
  - apply (proj2 (empty_list_is_skipped two_lists_http title_as_given
                    cell_as_given (Ok "backup.xlsx"))
             (VStr "Biuro") (VStr "901") (VStr "Kontakty OSD") (VStr "902")
             status_task
             (VDict [("id", VStr "f1"); ("name", VStr "Status");
                     ("type", VStr "text"); ("value", VStr "Open")])
             "Call the surveyor" "Kontakty OSD" "backup.xlsx");
      try reflexivity.
    repeat constructor.
Defined.

Lemma default_sheet_removed_iff_created_witness :
  (exists created,
      [default_sheet; contacts_sheet] = default_sheet :: created
      /\ List.length created = 1%nat
      /\ remove_default_sheet [default_sheet; contacts_sheet]
         = Ok (match created with
               | [] => [default_sheet]
               | _ :: _ => created
               end)
      /\ export_to_excel two_lists_http title_as_given cell_as_given
           (Ok "backup.xlsx") two_lists
         = Ok ("backup.xlsx", match created with
                              | [] => [default_sheet]
                              | _ :: _ => created
                              end))
  /\ export_to_excel no_answer title_as_given cell_as_given
       (Ok "backup.xlsx") two_lists
     = Ok ("backup.xlsx", [default_sheet]).
Proof.
  split.
  - apply (proj1 (default_sheet_removed_iff_created two_lists_http
                    title_as_given cell_as_given (Ok "backup.xlsx"))
             two_lists [default_sheet; contacts_sheet] 2%nat).
    reflexivity.
  - apply (proj2 (default_sheet_removed_iff_created no_answer
                    title_as_given cell_as_given (Ok "backup.xlsx"))
             two_lists "backup.xlsx").
    + intros [|[|[|i]]] entry H; simpl in H; try discriminate;
        injection H as <-; exists (VList []); split; reflexivity.
    + reflexivity.
Defined.

(** * Further properties of the normaliser *)

Lemma py_same_str_l (s : string) (t : pyval) :
  py_same (VStr s) t = py_eq t (VStr s).
Proof.
  destruct t; try reflexivity. unfold py_same. simpl. apply String.eqb_sym.
Qed.

(** X1.  The normaliser returns a text, and raises nothing, for every field
    object whose value is null or whose type has no structured branch
    (the text and number types, [checkbox], and every unknown type). *)
Theorem get_field_value_safe (field t v : pyval) :
  py_get field "type" VNone = Ok t ->
  py_get field "value" VNone = Ok v ->
  is_none v = true \/ is_structured t = false ->
  exists s, _get_field_value field = Ok (VStr s).
Proof.
  intros Htype Hvalue Hsafe. open_field field Htype Hvalue.
  destruct (is_none v) eqn:Hnone; [eexists; reflexivity|].
  destruct Hsafe as [Hn | Hs]; [discriminate|].
  destruct (py_in_list t text_types); [eexists; reflexivity|].
  destruct (py_in_list t number_types); [eexists; reflexivity|].
  destruct (py_eq t (VStr "checkbox")); [eexists; reflexivity|].
  unfold is_structured, structured_names in Hs. cbn [existsb] in Hs.
  repeat (apply orb_false_elim in Hs as [? Hs]).
  unfold py_in_list, audit_types. cbn [existsb].
  rewrite !py_same_str_l.
  repeat match goal with H : py_eq t _ = false |- _ => rewrite H; clear H end.
  cbn [orb]. eexists; reflexivity.
Qed.

Lemma get_field_value_safe_witness :
  exists s,
    _get_field_value
      (VDict [("name", VStr "Budget"); ("type", VStr "currency");
              ("value", VDict [("amount", VInt 12)])])
    = Ok (VStr s).
Proof.
  apply (get_field_value_safe
           (VDict [("name", VStr "Budget"); ("type", VStr "currency");
                   ("value", VDict [("amount", VInt 12)])])
           (VStr "currency") (VDict [("amount", VInt 12)])).
  - reflexivity.
  - reflexivity.
  - right; reflexivity.
Defined.


Lemma member_key_cases (t key : string) :
  member_key t = Some key ->
  (t = "location" /\ key = "name") \/ (t = "formula" /\ key = "text")
  \/ (t = "created_by" /\ key = "username")
  \/ (t = "updated_by" /\ key = "username").
Proof.
  unfold member_key.
  destruct (String.eqb t "location") eqn:E1.
  { apply String.eqb_eq in E1. intros [= <-]. now left. }
  destruct (String.eqb t "formula") eqn:E2.
  { apply String.eqb_eq in E2. intros [= <-]. right. now left. }
  destruct (String.eqb t "created_by") eqn:E3.
  { apply String.eqb_eq in E3. intros [= <-]. right. right. now left. }
  destruct (String.eqb t "updated_by") eqn:E4.
  { apply String.eqb_eq in E4. intros [= <-]. right. right. now right. }
  discriminate.
Qed.

(** X2.  A [location], [formula], [created_by] or [updated_by] field with a
    value that is not null never raises: an object yields its [name], [text]
    or [username] member as it is (the empty text when it has none), any
    other value yields the empty text. *)
Theorem object_field_member (field : pyval) (t key : string) (v : pyval) :
  py_get field "type" VNone = Ok (VStr t) ->
  member_key t = Some key ->
  py_get field "value" VNone = Ok v ->
  is_none v = false ->
  _get_field_value field = Ok (member key v).
Proof.
  intros Htype Hkey Hvalue Hnone. open_field field Htype Hvalue.
  rewrite Hnone.
  destruct (member_key_cases t key Hkey)
    as [[-> ->] | [[-> ->] | [[-> ->] | [-> ->]]]];
    destruct v; try discriminate Hnone; reflexivity.
Qed.

Lemma object_field_member_witness :
  _get_field_value
    (VDict [("name", VStr "Site"); ("type", VStr "location");
            ("value", VDict [("lat", VInt 52); ("name", VInt 7)])])
  = Ok (VInt 7)
  /\ _get_field_value
       (VDict [("name", VStr "Total"); ("type", VStr "formula");
               ("value", VStr "=A1+B1")])
     = Ok (VStr "").
Proof.
  split.
  - apply (object_field_member
             (VDict [("name", VStr "Site"); ("type", VStr "location");
                     ("value", VDict [("lat", VInt 52); ("name", VInt 7)])])
             "location" "name" (VDict [("lat", VInt 52); ("name", VInt 7)]));
      reflexivity.
  - apply (object_field_member
             (VDict [("name", VStr "Total"); ("type", VStr "formula");
                     ("value", VStr "=A1+B1")])
             "formula" "text" (VStr "=A1+B1"));
      reflexivity.
Defined.

(** X3.  A [labels], [multi_select], [users] or [relationship] field whose
    value is neither null nor a list yields the empty text: the value is not
    stringified, and [type_config] is not looked at. *)
Theorem list_field_needs_list (field : pyval) (t : string) (v : pyval) :
  py_get field "type" VNone = Ok (VStr t) ->
  In t list_names ->
  py_get field "value" VNone = Ok v ->
  is_none v = false ->
  is_list v = false ->
  _get_field_value field = Ok (VStr "").
Proof.
  intros Htype Ht Hvalue Hnone Hlist. open_field field Htype Hvalue.
  rewrite Hnone.
  destruct Ht as [<- | [<- | [<- | [<- | []]]]];
    destruct v; try discriminate Hnone; try discriminate Hlist; reflexivity.
Qed.

Lemma list_field_needs_list_witness :
  _get_field_value
    (VDict [("name", VStr "Tags"); ("type", VStr "labels");
            ("value", VStr "urgent"); ("type_config", VNone)])
  = Ok (VStr "").
Proof.
  apply (list_field_needs_list
           (VDict [("name", VStr "Tags"); ("type", VStr "labels");
                   ("value", VStr "urgent"); ("type_config", VNone)])
           "labels" (VStr "urgent")).
  - reflexivity.
  - left; reflexivity.
  - reflexivity.
  - reflexivity.
  - reflexivity.
Defined.

(** X4.  A [users] field whose value is a list yields the [username]
    members of its entries that are objects (the empty text for an object
    without one), joined by [", "]; entries that are no objects are passed
    over, whatever they are, and never make the call fail. *)
Theorem users_join_usernames (field : pyval) (users : list pyval) :
  py_get field "type" VNone = Ok (VStr "users") ->
  py_get field "value" VNone = Ok (VList users) ->
  _get_field_value field
  = py_join ", " (map (member "username") (filter is_dict users)).
Proof.
  intros Htype Hvalue. open_field field Htype Hvalue.
  cbn -[filter py_join mapM].
  rewrite (mapM_get_name "username" (filter is_dict users)).
  - reflexivity.
  - apply forallb_forall. intros x Hx. now apply filter_In in Hx.
Qed.

Lemma users_join_usernames_witness :
  _get_field_value
    (VDict [("name", VStr "Team"); ("type", VStr "users");
            ("value", VList assignees_example)])
  = Ok (VStr "ola, , jan").
Proof.
  exact (users_join_usernames
           (VDict [("name", VStr "Team"); ("type", VStr "users");
                   ("value", VList assignees_example)])
           assignees_example eq_refl eq_refl).
Defined.

Lemma fold_append_own_names (options : pyval) (items names acc : list pyval) :
  own_names items = Some names ->
  foldM (append_label options) items acc = Ok (acc ++ names)%list.
Proof.
  revert names acc. induction items as [|item r IH]; simpl; intros names acc H.
  - injection H as <-. now rewrite app_nil_r.
  - destruct (own_name item) as [n|] eqn:Hn; try discriminate.
    destruct (own_names r) as [ns|]; try discriminate.
    injection H as <-.
    assert (Hstep : append_label options acc item = Ok (acc ++ [n])%list).
    { unfold append_label. destruct item; try discriminate Hn.
      simpl in Hn. now rewrite Hn. }
    rewrite Hstep. cbn [bind]. rewrite (IH ns _ eq_refl).
    now rewrite <- app_assoc.
Qed.

(** X5.  When every item of a [labels] or [multi_select] value is an object
    carrying its own name, the result is the join of those names and the
    options are never iterated: whatever [type_config.options] holds, a
    null included, it cannot make the call fail. *)
Theorem labels_own_names_ignore_options (field : pyval) (t : string)
  (items names : list pyval) (options : pyval) :
  py_get field "type" VNone = Ok (VStr t) ->
  t = "labels" \/ t = "multi_select" ->
  py_get field "value" VNone = Ok (VList items) ->
  field_options field = Ok options ->
  own_names items = Some names ->
  _get_field_value field = py_join ", " names.
Proof.
  intros Htype Ht Hvalue Hopts Hnames.
  open_field field Htype Hvalue.
  assert (Hbranch :
    py_in_list (VStr t) text_types = false
    /\ py_in_list (VStr t) number_types = false
    /\ py_eq (VStr t) (VStr "checkbox") = false
    /\ py_eq (VStr t) (VStr "dropdown") = false
    /\ py_eq (VStr t) (VStr "labels") || py_eq (VStr t) (VStr "multi_select")
       = true)
    by (destruct Ht as [-> | ->]; repeat split).
  destruct Hbranch as (-> & -> & -> & -> & ->).
  cbn [is_none]. rewrite Hopts. cbn [bind].
  rewrite (fold_append_own_names options items names [] Hnames).
  reflexivity.
Qed.

Lemma labels_own_names_ignore_options_witness :
  _get_field_value
    (VDict [("name", VStr "Tags"); ("type", VStr "labels");
            ("value", VList [VDict [("name", VStr "Urgent")];
                             VDict [("id", VStr "o2"); ("name", VStr "Billing")]]);
            ("type_config", VDict [("options", VNone)])])
  = Ok (VStr "Urgent, Billing").
Proof.
  exact (labels_own_names_ignore_options
           (VDict [("name", VStr "Tags"); ("type", VStr "labels");
                   ("value", VList [VDict [("name", VStr "Urgent")];
                                    VDict [("id", VStr "o2");
                                           ("name", VStr "Billing")]]);
                   ("type_config", VDict [("options", VNone)])])
           "labels"
           [VDict [("name", VStr "Urgent")];
            VDict [("id", VStr "o2"); ("name", VStr "Billing")]]
           [VStr "Urgent"; VStr "Billing"] VNone
           eq_refl (or_introl eq_refl) eq_refl eq_refl eq_refl).
Defined.

(** X12.  The normaliser reads three members of a field object, [type],
    [value] and [type_config]: two field objects that agree on them give the
    same result, whatever their names, ids or other members are. *)
Theorem get_field_value_reads_three_members (d1 d2 : list (string * pyval)) :
  assoc "type" d1 = assoc "type" d2 ->
  assoc "value" d1 = assoc "value" d2 ->
  assoc "type_config" d1 = assoc "type_config" d2 ->
  _get_field_value (VDict d1) = _get_field_value (VDict d2).
Proof.
  intros Ht Hv Hc. unfold _get_field_value, field_options.
  cbn [py_get bind]. now rewrite Ht, Hv, Hc.
Qed.

Lemma get_field_value_reads_three_members_witness :
  _get_field_value (stage_field (VStr "b2"))
  = _get_field_value
      (VDict [("id", VStr "c0ffee"); ("date_created", VStr "1700000000000");
              ("type_config", VDict [("options", VList stage_options)]);
              ("value", VStr "b2"); ("name", VStr "Phase");
              ("type", VStr "dropdown"); ("hide_from_guests", VBool false)]).
Proof.
  apply get_field_value_reads_three_members; reflexivity.
Defined.


(** * Further properties of dictionaries, columns and rows *)

Lemma SFeqb_refl (f : spec_float) : f <> S754_nan -> SFeqb f f = true.
Proof.
  unfold SFeqb, SFcompare. destruct f as [s|s| |s m e]; intros H;
    try congruence; try (now destruct s).
  rewrite Z.compare_refl, Pos.compare_cont_refl. now destruct s.
Qed.

Lemma py_same_refl (k : pyval) : hashable k = true -> py_same k k = true.
Proof.
  unfold py_same. destruct k; try discriminate; intros _.
  - reflexivity.
  - simpl. apply Bool.eqb_reflx.
  - simpl. apply Z.eqb_refl.
  - destruct f as [s|s| |s m e]; try reflexivity; try (now destruct s).
    cbn [is_nan andb orb py_eq].
    apply (SFeqb_refl (S754_finite s m e)). discriminate.
  - simpl. apply String.eqb_refl.
Qed.

Lemma dict_mem_unmatched (d : pydict) (k : pyval) :
  dict_mem d k = negb (unmatched (dict_keys d) k).
Proof.
  unfold dict_mem, unmatched, dict_keys. rewrite negb_involutive.
  induction d as [|[k' x] r IH]; simpl; [reflexivity|]. now rewrite IH.
Qed.

Lemma dict_put_keys (d : pydict) (k x : pyval) :
  dict_keys (dict_put d k x)
  = if dict_mem d k then dict_keys d else (dict_keys d ++ [k])%list.
Proof.
  unfold dict_mem, dict_keys. induction d as [|[k' x'] r IH]; simpl.
  - reflexivity.
  - destruct (py_same k' k); simpl; [reflexivity|]. rewrite IH.
    now destruct (existsb _ r).
Qed.

Lemma dict_put_length (d : pydict) (k x : pyval) :
  dict_mem d k = true -> List.length (dict_put d k x) = List.length d.
Proof.
  intros H. pose proof (dict_put_keys d k x) as E. rewrite H in E.
  unfold dict_keys in E. apply (f_equal (@List.length _)) in E.
  now rewrite !length_map in E.
Qed.

Lemma dict_mem_put (d : pydict) (k x k0 : pyval) :
  dict_mem d k0 = true -> dict_mem (dict_put d k x) k0 = true.
Proof.
  rewrite !dict_mem_unmatched, dict_put_keys. unfold unmatched.
  rewrite !negb_involutive. intros H.
  destruct (dict_mem d k); [exact H|].
  rewrite existsb_app, H. reflexivity.
Qed.

Lemma dict_mem_put_same (d : pydict) (k x : pyval) :
  hashable k = true -> dict_mem (dict_put d k x) k = true.
Proof.
  intros Hk. destruct (dict_mem d k) eqn:E.
  - now apply dict_mem_put.
  - rewrite dict_mem_unmatched, dict_put_keys, E. unfold unmatched.
    rewrite negb_involutive, existsb_app. simpl.
    rewrite (py_same_refl k Hk). now rewrite orb_true_r.
Qed.

Lemma distinct_after_snoc (seen keys : list pyval) (k : pyval) :
  distinct_after seen (keys ++ [k])
  = distinct_after seen keys && unmatched (seen ++ keys)%list k.
Proof.
  revert seen. induction keys as [|k' r IH]; simpl; intros seen.
  - now rewrite app_nil_r, andb_true_r.
  - rewrite IH, <- app_assoc. simpl. now rewrite andb_assoc.
Qed.

Lemma dict_put_wf (d : pydict) (k x : pyval) :
  hashable k = true -> dict_wf d = true -> dict_wf (dict_put d k x) = true.
Proof.
  unfold dict_wf. intros Hk H. apply andb_prop in H as [Hh Hd].
  rewrite dict_put_keys, dict_mem_unmatched.
  destruct (unmatched (dict_keys d) k) eqn:E; simpl.
  - rewrite forallb_app, Hh, distinct_after_snoc, Hd. simpl.
    now rewrite Hk, E.
  - now rewrite Hh, Hd.
Qed.

Lemma add_field_name_spec (d d' : pydict) (field : pyval) :
  add_field_name d field = Ok d' ->
  exists n,
    py_get field "name" VNone = Ok n /\ hashable n = true
    /\ d' = dict_put d n (VBool true).
Proof.
  unfold add_field_name, dict_setitem. intros H.
  destruct (py_get field "name" VNone) as [n|]; try discriminate.
  cbn [bind] in H. destruct (hashable n) eqn:Hn; try discriminate.
  injection H as <-. now exists n.
Qed.

Lemma dict_put_true_values (d : pydict) (k : pyval) :
  Forall (fun x => x = VBool true) (dict_values d) ->
  Forall (fun x => x = VBool true) (dict_values (dict_put d k (VBool true))).
Proof.
  unfold dict_values. induction d as [|[k' x'] r IH]; simpl; intros H.
  - repeat constructor.
  - inversion H; subst. destruct (py_same k' k); simpl.
    + now constructor.
    + constructor; [reflexivity | now apply IH].
Qed.

Lemma fold_add_field_name_inv (fields : list pyval) (d d' : pydict) :
  foldM add_field_name fields d = Ok d' ->
  column_set d ->
  column_set d'
  /\ (forall k, dict_mem d k = true -> dict_mem d' k = true)
  /\ (forall field n, In field fields -> py_get field "name" VNone = Ok n ->
        dict_mem d' n = true).
Proof.
  revert d. induction fields as [|f r IH]; simpl; intros d H [Hwf Hv].
  - injection H as <-. split; [now split|]. split; [auto|]. intros ? ? [].
  - destruct (add_field_name d f) as [d1|] eqn:E; try discriminate.
    cbn [bind] in H.
    destruct (add_field_name_spec _ _ _ E) as (n & Hn & Hh & ->).
    destruct (IH _ H) as (Hcs & Hmono & Hall).
    { split; [now apply dict_put_wf | now apply dict_put_true_values]. }
    split; [exact Hcs|]. split.
    + intros k Hk. apply Hmono. now apply dict_mem_put.
    + intros field n0 [<- | Hin] Hn0.
      * rewrite Hn in Hn0. injection Hn0 as <-.
        apply Hmono. now apply dict_mem_put_same.
      * now apply (Hall field).
Qed.

Lemma add_task_fields_spec (d d' : pydict) (task : pyval) :
  add_task_fields d task = Ok d' ->
  exists fields,
    (fs <- py_get task "custom_fields" (VList []) ;; py_iter fs) = Ok fields
    /\ foldM add_field_name fields d = Ok d'.
Proof.
  unfold add_task_fields. intros H.
  destruct (py_get task "custom_fields" (VList [])) as [fs|]; try discriminate.
  cbn [bind] in H |- *.
  destruct (py_iter fs) as [fields|]; try discriminate.
  cbn [bind] in H. now exists fields.
Qed.

Lemma fold_add_task_fields_inv (tasks : list pyval) (d d' : pydict) :
  foldM add_task_fields tasks d = Ok d' ->
  column_set d ->
  column_set d'
  /\ (forall k, dict_mem d k = true -> dict_mem d' k = true)
  /\ (forall task fields field n,
        In task tasks ->
        (fs <- py_get task "custom_fields" (VList []) ;; py_iter fs) = Ok fields ->
        In field fields -> py_get field "name" VNone = Ok n ->
        dict_mem d' n = true).
Proof.
  revert d. induction tasks as [|t r IH]; simpl; intros d H Hcs.
  - injection H as <-. split; [exact Hcs|]. split; [auto|]. intros ? ? ? ? [].
  - destruct (add_task_fields d t) as [d1|] eqn:E; try discriminate.
    cbn [bind] in H.
    destruct (add_task_fields_spec _ _ _ E) as (fs & Hfs & Hfold).
    destruct (fold_add_field_name_inv _ _ _ Hfold Hcs) as (Hcs1 & Hm1 & Ha1).
    destruct (IH _ H Hcs1) as (Hcs' & Hm' & Ha').
    split; [exact Hcs'|]. split.
    + intros k Hk. auto.
    + intros task fields field n [<- | Hin] Hfields Hfield Hn.
      * rewrite Hfs in Hfields. injection Hfields as <-.
        apply Hm'. now apply (Ha1 field).
      * now apply (Ha' task fields field).
Qed.

Lemma discover_columns_wf (tasks : list pyval) (d : pydict) :
  discover_columns tasks = Ok d -> column_set d.
Proof.
  intros H. apply (fold_add_task_fields_inv tasks [] d H).
  split; [reflexivity | constructor].
Qed.

(** X6.  Whatever the field names are (texts, numbers, null for a field
    without a name), a column set that discovery returns holds every name
    that occurs in the tasks, holds no key twice, and maps every key to
    [True]. *)
Theorem discover_columns_complete (tasks : list pyval) (d : pydict) :
  discover_columns tasks = Ok d ->
  dict_wf d = true
  /\ Forall (fun x => x = VBool true) (dict_values d)
  /\ (forall task fields field n,
        In task tasks ->
        (fs <- py_get task "custom_fields" (VList []) ;; py_iter fs) = Ok fields ->
        In field fields -> py_get field "name" VNone = Ok n ->
        dict_mem d n = true).
Proof.
  intros H.
  destruct (fold_add_task_fields_inv tasks [] d H) as ([Hwf Hv] & _ & Hall).
  { split; [reflexivity | constructor]. }
  repeat split; assumption.
Qed.

Lemma discover_columns_complete_witness :
  dict_wf [(VInt 1, VBool true); (VNone, VBool true); (VStr "Status", VBool true)]
  = true
  /\ Forall (fun x => x = VBool true)
            (dict_values [(VInt 1, VBool true); (VNone, VBool true);
                          (VStr "Status", VBool true)])
  /\ (forall task fields field n,
        In task odd_names_tasks ->
        (fs <- py_get task "custom_fields" (VList []) ;; py_iter fs) = Ok fields ->
        In field fields -> py_get field "name" VNone = Ok n ->
        dict_mem [(VInt 1, VBool true); (VNone, VBool true);
                  (VStr "Status", VBool true)] n = true).
Proof.
  exact (discover_columns_complete odd_names_tasks
           [(VInt 1, VBool true); (VNone, VBool true);
            (VStr "Status", VBool true)] eq_refl).
Defined.


Lemma fold_setitem_blank (keys : list pyval) (acc : pydict) :
  forallb hashable keys = true ->
  distinct_after (dict_keys acc) keys = true ->
  exists acc',
    foldM (fun d name => dict_setitem d name (VStr "")) keys acc = Ok acc'
    /\ dict_keys acc' = (dict_keys acc ++ keys)%list.
Proof.
  revert acc. induction keys as [|k r IH]; simpl; intros acc Hh Hd.
  - exists acc. now rewrite app_nil_r.
  - apply andb_prop in Hh as [Hk Hr]. apply andb_prop in Hd as [Hu Hd].
    unfold dict_setitem at 1. rewrite Hk. cbn [bind].
    assert (Hkeys : dict_keys (dict_put acc k (VStr "")) = (dict_keys acc ++ [k])%list).
    { rewrite dict_put_keys, dict_mem_unmatched, Hu. reflexivity. }
    destruct (IH (dict_put acc k (VStr "")) Hr) as (acc' & Hfold & Hacc').
    { now rewrite Hkeys. }
    exists acc'. split; [exact Hfold|].
    now rewrite Hacc', Hkeys, <- app_assoc.
Qed.

Lemma store_field_keys (d d' : pydict) (field : pyval) :
  store_field d field = Ok d' -> dict_keys d' = dict_keys d.
Proof.
  unfold store_field, dict_contains, dict_setitem. intros H.
  destruct (py_get field "name" VNone) as [n|]; try discriminate.
  cbn [bind] in H. destruct (hashable n); try discriminate.
  cbn [bind] in H. destruct (dict_mem d n) eqn:E.
  - destruct (_get_field_value field) as [x|]; try discriminate.
    cbn [bind] in H. injection H as <-. now rewrite dict_put_keys, E.
  - now injection H as <-.
Qed.

Lemma fold_store_field_keys (fields : list pyval) (d d' : pydict) :
  foldM store_field fields d = Ok d' -> dict_keys d' = dict_keys d.
Proof.
  revert d. induction fields as [|f r IH]; simpl; intros d H.
  - now injection H as <-.
  - destruct (store_field d f) as [d1|] eqn:E; try discriminate.
    cbn [bind] in H. rewrite (IH _ H). exact (store_field_keys _ _ _ E).
Qed.

Lemma process_task_shape (task : pyval) (cfn : pydict) (row : list pyval) :
  dict_wf cfn = true ->
  _process_task task cfn = Ok row ->
  exists name values,
    py_get task "name" (VStr "") = Ok name
    /\ row = name :: values
    /\ List.length values = List.length cfn.
Proof.
  unfold dict_wf, _process_task. intros Hwf H.
  apply andb_prop in Hwf as [Hh Hd].
  destruct (py_get task "name" (VStr "")) as [name|]; try discriminate.
  cbn [bind] in H.
  destruct (fold_setitem_blank (dict_keys cfn) [] Hh Hd) as (d0 & Hd0 & Hk0).
  rewrite Hd0 in H. cbn [bind] in H.
  destruct (py_get task "custom_fields" (VList [])) as [fs|]; try discriminate.
  cbn [bind] in H. destruct (py_iter fs) as [fields|]; try discriminate.
  cbn [bind] in H.
  destruct (foldM store_field fields d0) as [d1|] eqn:E; try discriminate.
  cbn [bind] in H. injection H as <-.
  exists name, (dict_values d1). repeat split.
  apply fold_store_field_keys in E.
  rewrite Hk0 in E. simpl in E. unfold dict_keys, dict_values in *.
  apply (f_equal (@List.length _)) in E. rewrite !length_map in *. exact E.
Qed.

Lemma process_task_row_shape_aux (task : pyval) (cfn : pydict)
  (row : list pyval) :
  dict_wf cfn = true ->
  _process_task task cfn = Ok row ->
  List.length row = S (List.length cfn).
Proof.
  intros Hwf H.
  destruct (process_task_shape task cfn row Hwf H) as (? & ? & _ & -> & Hl).
  simpl. now rewrite Hl.
Qed.

(** X7.  Whatever the task holds, a row that [_process_task] returns for a
    well-formed column set starts with [task.get("name", "")] and has
    exactly one further cell per column: no field of the task adds or
    removes a cell. *)
Theorem process_task_row_length (task : pyval) (cfn : pydict) (row : list pyval) :
  dict_wf cfn = true ->
  _process_task task cfn = Ok row ->
  py_get task "name" (VStr "") = Ok (hd VNone row)
  /\ List.length row = S (List.length cfn).
Proof.
  intros Hwf H.
  destruct (process_task_shape task cfn row Hwf H) as (name & values & Hn & -> & Hl).
  split; [exact Hn |]. simpl. now rewrite Hl.
Qed.

Lemma process_task_row_length_witness :
  py_get row_task "name" (VStr "")
  = Ok (hd VNone [VStr "first"; VStr "5"; VStr "2"; VStr ""])
  /\ List.length [VStr "first"; VStr "5"; VStr "2"; VStr ""]
     = S (List.length (marked ["A"; "B"; "C"])).
Proof.
  exact (process_task_row_length row_task (marked ["A"; "B"; "C"])
           [VStr "first"; VStr "5"; VStr "2"; VStr ""] eq_refl eq_refl).
Defined.


(** * Further properties of the export run *)

Lemma mapM_length {A B : Type} (f : A -> result B) (l : list A) (l' : list B) :
  mapM f l = Ok l' -> List.length l' = List.length l.
Proof.
  revert l'. induction l as [|x r IH]; simpl; intros l' H.
  - now injection H as <-.
  - destruct (f x) as [y|]; try discriminate. cbn [bind] in H.
    destruct (mapM f r) as [ys|]; try discriminate. cbn [bind] in H.
    injection H as <-. simpl. now rewrite (IH ys eq_refl).
Qed.

Lemma update_sheet_last (pre : workbook) (ws : worksheet)
  (f : worksheet -> worksheet) :
  update_sheet (List.length pre) f (pre ++ [ws])%list = (pre ++ [f ws])%list.
Proof. induction pre as [|h r IH]; simpl; [reflexivity | now rewrite IH]. Qed.

Lemma foldM_app {A S : Type} (f : S -> A -> result S) (l1 l2 : list A) (s : S) :
  foldM f (l1 ++ l2)%list s = (s' <- foldM f l1 s ;; foldM f l2 s').
Proof.
  revert s. induction l1 as [|x r IH]; simpl; intros s; [reflexivity|].
  destruct (f s x); cbn [bind]; [apply IH | reflexivity].
Qed.

Lemma foldM_raise {A S : Type} (f : S -> A -> result S) (l : list A) (s : S)
  (x : A) (e : exn) :
  f s x = Raise e -> foldM f (x :: l) s = Raise e.
Proof. intros H. simpl. now rewrite H. Qed.

Section OrchestratorInvariants.

Variable http_get : nat -> pyval -> option pyval.
Variable sheet_title : list string -> pyval -> result string.
Variable cell_value : pyval -> result pyval.
Variable filepath : result string.

Local Abbreviation get_tasks := (_get_tasks_from_list http_get).
Local Abbreviation run_list := (export_list http_get sheet_title cell_value).
Local Abbreviation run_sheet := (export_sheet sheet_title cell_value).
Local Abbreviation run :=
  (export_to_excel http_get sheet_title cell_value filepath).

Lemma ws_append_last (pre : workbook) (ws : worksheet) (row : list pyval)
  (wb' : workbook) :
  ws_append cell_value (pre ++ [ws])%list (List.length pre) row = Ok wb' ->
  exists cells,
    mapM cell_value row = Ok cells /\ wb' = (pre ++ [add_row cells ws])%list.
Proof.
  unfold ws_append. intros H.
  destruct (mapM cell_value row) as [cells|]; try discriminate.
  cbn [bind] in H. injection H as <-. exists cells.
  now rewrite update_sheet_last.
Qed.

Lemma fold_rows_table (cfn : pydict) (pre : workbook) (tasks : list pyval) :
  dict_wf cfn = true ->
  forall (ws : worksheet) (wb' : workbook),
  foldM (append_task_row cell_value cfn (List.length pre)) tasks (pre ++ [ws])%list
  = Ok wb' ->
  exists data,
    wb' = (pre ++ [ {| title := title ws; rows := (rows ws ++ data)%list |} ])%list
    /\ List.length data = List.length tasks
    /\ Forall (fun row => List.length row = S (List.length cfn)) data.
Proof.
  intros Hwf. induction tasks as [|t ts IH]; simpl; intros ws wb' H.
  - injection H as <-. exists []. rewrite app_nil_r. destruct ws.
    repeat split. constructor.
  - unfold append_task_row at 1 in H.
    destruct (_process_task t cfn) as [row|] eqn:Hrow; try discriminate.
    cbn [bind] in H.
    destruct (ws_append cell_value (pre ++ [ws])%list (List.length pre) row)
      as [wb1|] eqn:Happ; try discriminate.
    cbn [bind] in H.
    destruct (ws_append_last _ _ _ _ Happ) as (cells & Hcells & ->).
    destruct (IH _ _ H) as (data & -> & Hlen & Hall).
    exists (cells :: data). simpl. rewrite <- app_assoc. simpl.
    repeat split.
    + now rewrite Hlen.
    + constructor; [|exact Hall].
      rewrite (mapM_length _ _ _ Hcells).
      now destruct (process_task_row_shape_aux t cfn row Hwf Hrow).
Qed.

Lemma export_sheet_shape (wb wb' : workbook) (sheet_name tasks : pyval) :
  run_sheet wb sheet_name tasks = Ok wb' ->
  exists name ts cfn header data,
    sheet_title (sheetnames wb) sheet_name = Ok name
    /\ py_iter tasks = Ok ts
    /\ discover_columns ts = Ok cfn
    /\ mapM cell_value (VStr "Task Name" :: dict_keys cfn) = Ok header
    /\ wb' = (wb ++ [ {| title := name; rows := header :: data |} ])%list
    /\ List.length data = List.length ts
    /\ Forall (fun row => List.length row = List.length header) data.
Proof.
  unfold export_sheet, create_sheet. intros H.
  destruct (sheet_title (sheetnames wb) sheet_name) as [name|];
    try discriminate.
  cbn [bind] in H.
  destruct (py_iter tasks) as [ts|]; try discriminate. cbn [bind] in H.
  destruct (discover_columns ts) as [cfn|] eqn:Hcfn; try discriminate.
  cbn [bind] in H.
  destruct (ws_append cell_value _ (List.length wb) _) as [wb1|] eqn:Happ;
    try discriminate.
  cbn [bind] in H.
  destruct (ws_append_last _ _ _ _ Happ) as (header & Hheader & ->).
  destruct (discover_columns_wf ts cfn Hcfn) as [Hwf _].
  destruct (fold_rows_table cfn wb ts Hwf _ _ H) as (data & -> & Hlen & Hall).
  exists name, ts, cfn, header, data. simpl.
  repeat split; try assumption.
  apply (mapM_length cell_value) in Hheader. simpl in Hheader.
  unfold dict_keys in Hheader. rewrite length_map in Hheader.
  rewrite Hheader. exact Hall.
Qed.

Lemma table_of_rows (name : string) (header : list pyval)
  (data : list (list pyval)) :
  Forall (fun row => List.length row = List.length header) data ->
  is_table {| title := name; rows := header :: data |} = true.
Proof.
  intros H. unfold is_table. simpl. apply forallb_forall. intros row Hrow.
  rewrite Forall_forall in H. rewrite (H row Hrow). apply Nat.eqb_refl.
Qed.

(** The loop only appends: the sheets it finds stay as they are, every list
    that comes back with tasks adds one table, and every list costs one
    exchange. *)
Lemma run_lists_tables (list_ids : list (pyval * pyval)) (wb wb' : workbook)
  (k k' : nat) :
  foldM run_list list_ids (wb, k) = Ok (wb', k') ->
  exists added,
    wb' = (wb ++ added)%list
    /\ forallb is_table added = true
    /\ List.length added = lists_with_tasks http_get k list_ids
    /\ k' = (k + List.length list_ids)%nat.
Proof.
  revert wb k. induction list_ids as [|[sheet_name list_id] rest IH];
    simpl; intros wb k H.
  - injection H as <- <-. exists []. rewrite app_nil_r. repeat split. lia.
  - destruct (get_tasks k list_id) as [tasks|]; try discriminate.
    cbn [bind] in H. destruct (truthy tasks); cbn [negb] in H.
    + destruct (run_sheet wb sheet_name tasks) as [wb1|] eqn:E;
        try discriminate.
      cbn [bind] in H.
      destruct (export_sheet_shape _ _ _ _ E)
        as (name & ts & cfn & header & data & _ & _ & _ & _ & -> & _ & Hall).
      destruct (IH _ _ H) as (added & -> & Htab & Hlen & ->).
      exists ({| title := name; rows := header :: data |} :: added).
      rewrite <- app_assoc. simpl. repeat split.
      * now rewrite (table_of_rows name header data Hall).
      * now rewrite Hlen.
      * lia.
    + cbn [bind] in H. destruct (IH _ _ H) as (added & -> & Htab & Hlen & ->).
      exists added. repeat split; try assumption. lia.
Qed.

Lemma table_rectangular (ws : worksheet) :
  is_table ws = true -> rectangular ws = true.
Proof. unfold is_table, rectangular. now destruct (rows ws). Qed.

(** X8.  Exporting one list appends exactly one sheet to the workbook and
    leaves the sheets already there untouched.  The new sheet carries the
    title the workbook chose for the configured name; its first row is the
    header, ["Task Name"] followed by the discovered column names in their
    order; one data row per task follows, each as long as the header. *)
Theorem export_sheet_appends_table (wb wb' : workbook)
  (sheet_name tasks : pyval) :
  run_sheet wb sheet_name tasks = Ok wb' ->
  exists ws ts cfn,
    wb' = (wb ++ [ws])%list
    /\ sheet_title (sheetnames wb) sheet_name = Ok (title ws)
    /\ py_iter tasks = Ok ts
    /\ discover_columns ts = Ok cfn
    /\ mapM cell_value (VStr "Task Name" :: dict_keys cfn)
       = Ok (hd [] (rows ws))
    /\ List.length (rows ws) = S (List.length ts)
    /\ is_table ws = true.
Proof.
  intros H.
  destruct (export_sheet_shape _ _ _ _ H)
    as (name & ts & cfn & header & data & Ht & Hts & Hc & Hh & -> & Hlen & Hall).
  exists {| title := name; rows := header :: data |}, ts, cfn.
  repeat split; try assumption.
  - simpl. now rewrite Hlen.
  - now apply table_of_rows.
Qed.

(** X9.  A workbook that reaches [save] is never empty, holds as many
    sheets as lists came back with tasks (the default sheet alone when none
    did), and every sheet in it is rectangular: all rows of a sheet have the
    length of its header, however the fields vary from task to task. *)
Theorem saved_workbook_rectangular (list_ids : list (pyval * pyval))
  (path : string) (wb : workbook) :
  run list_ids = Ok (path, wb) ->
  List.length wb = Nat.max 1 (lists_with_tasks http_get O list_ids)
  /\ forallb rectangular wb = true.
Proof.
  unfold export_to_excel. intros H.
  destruct (foldM run_list list_ids (Workbook, O)) as [[wb1 k]|] eqn:E;
    try discriminate.
  cbn [bind fst] in H.
  destruct (run_lists_tables _ _ _ _ _ E) as (added & -> & Htab & Hlen & _).
  change (Workbook ++ added)%list with (default_sheet :: added) in H.
  rewrite remove_default_sheet_head in H. cbn [bind] in H.
  destruct filepath as [p|]; try discriminate. cbn [bind] in H.
  injection H as _ <-. rewrite <- Hlen.
  assert (Hrect : forallb rectangular added = true).
  { apply forallb_forall. intros ws Hws. apply table_rectangular.
    rewrite forallb_forall in Htab. now apply Htab. }
  destruct added as [|ws r]; [split; reflexivity|].
  split; [simpl; lia | exact Hrect].
Qed.

(** X10.  An exception raised while a list is processed ends the run: no
    later list is asked for, and nothing is saved, whatever the lists
    before it produced. *)
Theorem export_aborts_on_first_error (done rest : list (pyval * pyval))
  (entry : pyval * pyval) (st : workbook * nat) (e : exn) :
  foldM run_list done (Workbook, O) = Ok st ->
  run_list st entry = Raise e ->
  run (done ++ entry :: rest)%list = Raise e.
Proof.
  intros Hdone Hentry. unfold export_to_excel.
  rewrite foldM_app, Hdone. cbn [bind].
  now rewrite (foldM_raise _ rest st entry e Hentry).
Qed.

(** X11.  At the loop, a request that fails and an answer without a
    ["tasks"] member both count as a list without tasks: the list is
    skipped and the run goes on.  An answer that is no object raises
    [AttributeError] instead. *)
Theorem retrieval_outcomes :
  (forall (wb : workbook) (k : nat) (sheet_name list_id : pyval),
      http_get k list_id = None ->
      run_list (wb, k) (sheet_name, list_id) = Ok (wb, S k))
  /\ (forall (wb : workbook) (k : nat) (sheet_name list_id : pyval)
             (d : list (string * pyval)),
        http_get k list_id = Some (VDict d) -> assoc "tasks" d = None ->
        run_list (wb, k) (sheet_name, list_id) = Ok (wb, S k))
  /\ (forall (wb : workbook) (k : nat) (sheet_name list_id body : pyval),
        http_get k list_id = Some body -> is_dict body = false ->
        run_list (wb, k) (sheet_name, list_id) = Raise AttributeError).
Proof.
  unfold export_list, _get_tasks_from_list. repeat split.
  - intros wb k sheet_name list_id H. now rewrite H.
  - intros wb k sheet_name list_id d H Hd. rewrite H. simpl. now rewrite Hd.
  - intros wb k sheet_name list_id body H Hb. rewrite H.
    destruct body; try discriminate Hb; reflexivity.
Qed.

End OrchestratorInvariants.


Lemma export_sheet_appends_table_witness :
  exists ws ts cfn,
    [default_sheet; contacts_sheet] = (Workbook ++ [ws])%list
    /\ title_as_given (sheetnames Workbook) (VStr "Kontakty OSD")
       = Ok (title ws)
    /\ py_iter (VList [status_task]) = Ok ts
    /\ discover_columns ts = Ok cfn
    /\ mapM cell_as_given (VStr "Task Name" :: dict_keys cfn)
       = Ok (hd [] (rows ws))
    /\ List.length (rows ws) = S (List.length ts)
    /\ is_table ws = true.
Proof.
  exact (export_sheet_appends_table title_as_given cell_as_given
           Workbook [default_sheet; contacts_sheet]
           (VStr "Kontakty OSD") (VList [status_task]) eq_refl).
Defined.

Lemma saved_workbook_rectangular_witness :
  List.length [contacts_sheet]
  = Nat.max 1 (lists_with_tasks two_lists_http O two_lists)
  /\ forallb rectangular [contacts_sheet] = true.
Proof.
  exact (saved_workbook_rectangular two_lists_http title_as_given
           cell_as_given (Ok "backup.xlsx") two_lists "backup.xlsx"
           [contacts_sheet] eq_refl).
Defined.

Lemma export_aborts_on_first_error_witness :
  export_to_excel due_http title_as_given cell_as_given (Ok "backup.xlsx")
    two_lists
  = Raise TypeError.
Proof.
  apply (export_aborts_on_first_error due_http title_as_given cell_as_given
           (Ok "backup.xlsx")
           [(VStr "Biuro", VStr "901")] []
           (VStr "Kontakty OSD", VStr "902")
           ([default_sheet; office_sheet], 1%nat) TypeError).
  - reflexivity.
  - reflexivity.
Defined.

Lemma retrieval_outcomes_witness :
  export_list no_answer title_as_given cell_as_given
    (Workbook, O) (VStr "Biuro", VStr "901")
  = Ok (Workbook, 1%nat)
  /\ export_list no_tasks_key_http title_as_given cell_as_given
       (Workbook, O) (VStr "Biuro", VStr "901")
     = Ok (Workbook, 1%nat)
  /\ export_list array_http title_as_given cell_as_given
       (Workbook, O) (VStr "Biuro", VStr "901")
     = Raise AttributeError.
Proof.
  split; [|split].
  - apply (proj1 (retrieval_outcomes no_answer title_as_given cell_as_given)).
    reflexivity.
  - apply (proj1 (proj2 (retrieval_outcomes no_tasks_key_http title_as_given
                           cell_as_given))
             Workbook O (VStr "Biuro") (VStr "901")
             [("err", VStr "Team not authorized"); ("ECODE", VStr "OAUTH_027")]);
      reflexivity.
  - apply (proj2 (proj2 (retrieval_outcomes array_http title_as_given
                           cell_as_given))
             Workbook O (VStr "Biuro") (VStr "901") (VList [status_task]));
      reflexivity.
Defined.
